(** * xauto: the task-state and recovery core of [web_dashboard.py]

    A shallow embedding of [AutomationState], [TaskStateManager], the
    automation worker loop and the start/recover endpoints, followed by the
    properties of the paired-task builder, the progress ledger, persistence
    and recovery. *)

From Stdlib Require Import ZArith QArith Lia Ascii String.
From stdpp Require Import gmap strings list fin_maps sorting pretty.

Open Scope Z_scope.

(* ===================================================================== *)
(** * Python strings: [str.strip()] and truthiness *)
(* ===================================================================== *)

(** Characters are code points below 256.  [py_isspace] is [str.isspace] on
    them: TAB..CR, FS..US, SPACE, NEL (0x85) and NBSP (0xA0). *)
Definition py_isspace (c : ascii) : bool :=
  let n := N_of_ascii c in
  ((9 <=? n) && (n <=? 13) || (28 <=? n) && (n <=? 32)
   || (n =? 133) || (n =? 160))%N.

Fixpoint lstrip (s : string) : string :=
  match s with
  | EmptyString => EmptyString
  | String c s' => if py_isspace c then lstrip s' else s
  end.

Fixpoint rstrip (s : string) : string :=
  match s with
  | EmptyString => EmptyString
  | String c s' =>
      match rstrip s' with
      | EmptyString => if py_isspace c then EmptyString else String c EmptyString
      | r => String c r
      end
  end.

(** [s.strip()] *)
Definition strip (s : string) : string := rstrip (lstrip s).

(** [bool(s)] for a string: true exactly on the non-empty ones. *)
Definition truthy (s : string) : bool :=
  match s with EmptyString => false | String _ _ => true end.

(** A string that neither starts nor ends with a whitespace character. *)
Definition no_surrounding_space (s : string) : Prop :=
  (forall c s', s = String c s' -> py_isspace c = false) /\
  (forall s' c, s = s' +:+ String c EmptyString -> py_isspace c = false).

(** The code points below 256 that Python counts as white space. *)
Definition space_code (n : N) : Prop :=
  (9 <= n <= 13)%N \/ (28 <= n <= 32)%N \/ n = 133%N \/ n = 160%N.

(** A string of white space only, the empty string among them. *)
Fixpoint blank (s : string) : Prop :=
  match s with
  | EmptyString => True
  | String c s' => space_code (N_of_ascii c) /\ blank s'
  end.

(** [t] is [s] without its leading and trailing white space: [s] is [t]
    between two runs of white space, and [t] neither starts nor ends with
    a white-space character.  Every string has exactly one such [t]. *)
Definition trimmed_of (s t : string) : Prop :=
  exists l r,
    s = l +:+ t +:+ r /\ blank l /\ blank r /\
    (forall c t', t = String c t' -> ~ space_code (N_of_ascii c)) /\
    (forall t' c,
       t = t' +:+ String c EmptyString -> ~ space_code (N_of_ascii c)).

(* ===================================================================== *)
(** * Paired tasks: [AutomationState._create_paired_tasks] *)
(* ===================================================================== *)

(** One entry of [paired_tasks]: the dict built at lines 712-718. *)
Record PairedTask := mkPairedTask {
  index : Z;
  tweet_url : string;
  comment : string;
  original_tweet_index : Z;
  original_comment_index : Z
}.

#[global] Instance PairedTask_eq_dec : EqDecision PairedTask.
Proof. solve_decision. Defined.

(** [l[i] if i < len(l) else ""] *)
Definition get_or_empty (l : list string) (i : nat) : string :=
  default EmptyString (l !! i).

(** The body of the [for i in range(max_length)] loop: the list
    [paired_tasks] after position [i] has been handled. *)
Definition pair_step (tweet_links reply_comments : list string)
    (paired_tasks : list PairedTask) (i : nat) : list PairedTask :=
  let tweet_url := get_or_empty tweet_links i in
  let comment := get_or_empty reply_comments i in
  if truthy (strip tweet_url) then
    paired_tasks ++ [ {| index := Z.of_nat i;
                         tweet_url := strip tweet_url;
                         comment := strip comment;
                         original_tweet_index := Z.of_nat i;
                         original_comment_index := Z.of_nat i |} ]
  else paired_tasks.

Definition _create_paired_tasks (tweet_links reply_comments : list string)
    : list PairedTask :=
  let max_length := Nat.max (length tweet_links) (length reply_comments) in
  foldl (pair_step tweet_links reply_comments) [] (seq 0 max_length).

(** What position [i] contributes to the result. *)
Definition paired_task_at (tweet_links reply_comments : list string) (i : nat)
    : option PairedTask :=
  if truthy (strip (get_or_empty tweet_links i)) then
    Some {| index := Z.of_nat i;
            tweet_url := strip (get_or_empty tweet_links i);
            comment := strip (get_or_empty reply_comments i);
            original_tweet_index := Z.of_nat i;
            original_comment_index := Z.of_nat i |}
  else None.

(* ===================================================================== *)
(** * Python sets of ints *)
(* ===================================================================== *)

(** A [set] value is kept as the list of its elements in the order they
    were added, without duplicates. *)

(** [s.add(x)] *)
Definition set_add (s : list Z) (x : Z) : list Z :=
  if decide (x ∈ s) then s else s ++ [x].

(** [set(l)]: the elements of [l] are added one by one. *)
Definition set_of_list (l : list Z) : list Z := foldl set_add [] l.

(** Python does not fix the order in which a set is iterated; the
    interpreter's hash table does.  For sets of ints that only grow it is
    some function of the insertions made, which is taken as an interface:
    [iter_order s] is the order in which the set with insertions [s] is
    iterated, a rearrangement of [s]. *)
Class PySetOrder := {
  iter_order : list Z -> list Z;
  iter_order_perm : forall s, iter_order s ≡ₚ s
}.

(** Iteration in insertion order. *)
Definition insertion_order : PySetOrder :=
  {| iter_order := fun s => s;
     iter_order_perm := fun s => Permutation_refl s |}.

(** Iteration in reverse insertion order.  On the insertions 7, 15 this is
    what CPython 3.11 does: after [s.add(7); s.add(15)], [list(s)] is
    [[15, 7]], and [list(set([15, 7]))] is [[7, 15]]. *)
Definition reversing_order : PySetOrder :=
  {| iter_order := fun s => rev s;
     iter_order_perm := fun s => Permutation_sym (Permutation_rev s) |}.

(** [list(s)] *)
Definition set_to_list {order : PySetOrder} (s : list Z) : list Z :=
  iter_order s.

(** [x in s] *)
Definition set_in (x : Z) (s : list Z) : bool := bool_decide (x ∈ s).

(** [len(s)] *)
Definition set_len (s : list Z) : Z := Z.of_nat (length s).

(** The mathematical set a Python set stands for. *)
Definition members (s : list Z) : gset Z := list_to_set s.

(* ===================================================================== *)
(** * [AutomationState] *)
(* ===================================================================== *)

Record AutomationState := mkAutomationState {
  task_id : string;
  profile_name : string;
  tweet_links : list string;
  reply_comments : list string;
  actions : list (string * bool);    (* the dict, in insertion order *)
  min_wait : Z;
  max_wait : Z;
  max_retries : Z;
  paired_tasks : list PairedTask;
  processed_tasks : list Z;          (* the three sets, see above *)
  successful_tasks : list Z;
  failed_tasks : list Z;
  current_index : Z;
  start_time : string;
  last_updated : string
}.

(** [AutomationState.__init__]; [now] is the reading of [datetime.now()
    .isoformat()] taken while the object is built. *)
Definition AutomationState_init (now : string) (task_id profile_name : string)
    (tweet_links reply_comments : list string) (actions : list (string * bool))
    (min_wait max_wait max_retries : Z) : AutomationState :=
  {| task_id := task_id;
     profile_name := profile_name;
     tweet_links := tweet_links;
     reply_comments := reply_comments;
     actions := actions;
     min_wait := min_wait;
     max_wait := max_wait;
     max_retries := max_retries;
     paired_tasks := _create_paired_tasks tweet_links reply_comments;
     processed_tasks := [];
     successful_tasks := [];
     failed_tasks := [];
     current_index := 0;
     start_time := now;
     last_updated := now |}.

(** [enumerate(l)] *)
Definition enumerate {A} (l : list A) : list (nat * A) := imap pair l.

(** [get_remaining_tasks] (line 724):
    [[task for i, task in enumerate(self.paired_tasks)
      if i not in self.processed_tasks]] *)
Definition get_remaining_tasks (st : AutomationState) : list PairedTask :=
  snd <$> filter (fun it => Z.of_nat (fst it) ∉ processed_tasks st)
                 (enumerate (paired_tasks st)).

(** The ledger's [remaining] as the specification words it: the items whose
    stored [index] is not in [processed], in their original order. *)
Definition remaining_by_index (processed : list Z) (items : list PairedTask)
    : list PairedTask :=
  filter (fun t => index t ∉ processed) items.

(** The complement: the items whose stored [index] is in [processed]. *)
Definition processed_by_index (processed : list Z) (items : list PairedTask)
    : list PairedTask :=
  filter (fun t => index t ∈ processed) items.

(** [mark_task_processed] (lines 726-733). *)
Definition mark_task_processed (now : string) (st : AutomationState)
    (task_index : Z) (success : bool) : AutomationState :=
  {| task_id := task_id st;
     profile_name := profile_name st;
     tweet_links := tweet_links st;
     reply_comments := reply_comments st;
     actions := actions st;
     min_wait := min_wait st;
     max_wait := max_wait st;
     max_retries := max_retries st;
     paired_tasks := paired_tasks st;
     processed_tasks := set_add (processed_tasks st) task_index;
     successful_tasks :=
       if success then set_add (successful_tasks st) task_index
       else successful_tasks st;
     failed_tasks :=
       if success then failed_tasks st
       else set_add (failed_tasks st) task_index;
     current_index := current_index st;
     start_time := start_time st;
     last_updated := now |}.

(** A sequence of [mark] calls, each with its clock reading. *)
Definition mark_all (st : AutomationState)
    (calls : list (string * Z * bool)) : AutomationState :=
  foldl (fun st c => mark_task_processed c.1.1 st c.1.2 c.2) st calls.

(** The dict returned by [get_progress_stats].  The two rates are Python
    floats; they are kept here as the exact quotients. *)
Record Stats := mkStats {
  total_tasks : Z;
  processed_count : Z;
  successful_count : Z;
  failed_count : Z;
  remaining_count : Z;
  success_rate : Q;
  progress_percentage : Q
}.

Definition percent_of (count total : Z) : Q :=
  if 0 <? total then Qmult (Qdiv (inject_Z count) (inject_Z total)) (inject_Z 100)
  else inject_Z 0.

Definition get_progress_stats (st : AutomationState) : Stats :=
  let total_tasks := Z.of_nat (length (paired_tasks st)) in
  let processed_count := set_len (processed_tasks st) in
  let successful_count := set_len (successful_tasks st) in
  let failed_count := set_len (failed_tasks st) in
  {| total_tasks := total_tasks;
     processed_count := processed_count;
     successful_count := successful_count;
     failed_count := failed_count;
     remaining_count := total_tasks - processed_count;
     success_rate := percent_of successful_count total_tasks;
     progress_percentage := percent_of processed_count total_tasks |}.

(* ===================================================================== *)
(** * Snapshots and the file system *)
(* ===================================================================== *)

(** The dict [state_data] that [save_state] dumps (lines 760-775). *)
Record state_data := mkStateData {
  sd_task_id : string;
  sd_profile_name : string;
  sd_paired_tasks : list PairedTask;
  sd_actions : list (string * bool);
  sd_min_wait : Z;
  sd_max_wait : Z;
  sd_max_retries : Z;
  sd_processed_tasks : list Z;
  sd_successful_tasks : list Z;
  sd_failed_tasks : list Z;
  sd_current_index : Z;
  sd_start_time : string;
  sd_last_updated : string;
  sd_stats : Stats
}.

(** The dict as [save_state] fills it; the three arrays are [list(...)] of
    the sets. *)
Definition state_data_of {order : PySetOrder} (st : AutomationState)
    : state_data :=
  {| sd_task_id := task_id st;
     sd_profile_name := profile_name st;
     sd_paired_tasks := paired_tasks st;
     sd_actions := actions st;
     sd_min_wait := min_wait st;
     sd_max_wait := max_wait st;
     sd_max_retries := max_retries st;
     sd_processed_tasks := set_to_list (processed_tasks st);
     sd_successful_tasks := set_to_list (successful_tasks st);
     sd_failed_tasks := set_to_list (failed_tasks st);
     sd_current_index := current_index st;
     sd_start_time := start_time st;
     sd_last_updated := last_updated st;
     sd_stats := get_progress_stats st |}.

(** Lines of the per-task log.  The f-strings of the source are kept as
    constructors carrying the values they interpolate. *)
Inductive LogLine :=
  | LogStarting (profile : string)
  | LogConfiguration (total : Z) (acts : list (string * bool))
      (min_w max_w retries : Z)
  | LogStrategy
  | LogDriverFailed
  | LogDriverReady
  | LogRandomized (count : Z)
  | LogCancelRequested
  | LogCancelled
  | LogProcessing (pos count : Z) (url comment : string)
  | LogTaskSucceeded
  | LogTaskFailed
  | LogProgress (stats : Stats)
  | LogProgressSaved
  | LogWaiting (seconds : Z)
  | LogCompleted (stats : Stats)
  | LogAutomationError.

(** The values of the ['status'] field. *)
Inductive TaskStatus := Running | Completed | Error | Cancelled.

#[global] Instance TaskStatus_eq_dec : EqDecision TaskStatus.
Proof. solve_decision. Defined.

(** A task record of [TaskStateManager.task_status] (lines 1140-1150). *)
Record TaskRecord := mkTaskRecord {
  type_ : string;
  status : TaskStatus;
  progress : Z;
  total : Z;
  current : Z;
  logs : list LogLine;
  record_start_time : string;
  strategy : string;
  actions_enabled : list (string * bool)
}.

Definition with_status (s : TaskStatus) (r : TaskRecord) : TaskRecord :=
  {| type_ := type_ r; status := s; progress := progress r; total := total r;
     current := current r; logs := logs r;
     record_start_time := record_start_time r; strategy := strategy r;
     actions_enabled := actions_enabled r |}.

Definition with_logs (new_lines : list LogLine) (r : TaskRecord) : TaskRecord :=
  {| type_ := type_ r; status := status r; progress := progress r;
     total := total r; current := current r; logs := logs r ++ new_lines;
     record_start_time := record_start_time r; strategy := strategy r;
     actions_enabled := actions_enabled r |}.

Definition with_progress (cur prog : Z) (r : TaskRecord) : TaskRecord :=
  {| type_ := type_ r; status := status r; progress := prog; total := total r;
     current := cur; logs := logs r;
     record_start_time := record_start_time r; strategy := strategy r;
     actions_enabled := actions_enabled r |}.

(** What a file of the working directory holds.  [Unreadable] is any text
    on which [json.load] raises. *)
Inductive file :=
  | StateFile (d : state_data)
  | TasksFile (tasks : gmap string TaskRecord)
  | Unreadable.

(** [f"automation_state_{task_id}.json"] *)
Definition state_file (task_id : string) : string :=
  "automation_state_" +:+ task_id +:+ ".json".

(** [AutomationState.save_state] (lines 755-778): the file named after the
    task id is created or replaced by the dump of [state_data]. *)
Definition save_state {order : PySetOrder} (st : AutomationState)
    (fs : gmap string file) : gmap string file :=
  let state_file := state_file (task_id st) in
  <[state_file := StateFile (state_data_of st)]> fs.

(** The [try] body of [load_state] (lines 791-819): the object is built by
    the constructor from the lists read off the stored tasks, then the
    stored fields are put over it. *)
Definition restore (now : string) (d : state_data) : AutomationState :=
  let links := tweet_url <$> sd_paired_tasks d in
  let comments := comment <$> sd_paired_tasks d in
  let state :=
    AutomationState_init now (sd_task_id d) (sd_profile_name d)
      links comments (sd_actions d)
      (sd_min_wait d) (sd_max_wait d) (sd_max_retries d) in
  {| task_id := task_id state;
     profile_name := profile_name state;
     tweet_links := tweet_links state;
     reply_comments := reply_comments state;
     actions := actions state;
     min_wait := min_wait state;
     max_wait := max_wait state;
     max_retries := max_retries state;
     paired_tasks := sd_paired_tasks d;
     processed_tasks := set_of_list (sd_processed_tasks d);
     successful_tasks := set_of_list (sd_successful_tasks d);
     failed_tasks := set_of_list (sd_failed_tasks d);
     current_index := sd_current_index d;
     start_time := sd_start_time d;
     last_updated := sd_last_updated d |}.

(** [AutomationState.load_state] (lines 780-822): [None] when the file is
    missing, and when reading it raises. *)
Definition load_state (now : string) (fs : gmap string file)
    (task_id : string) : option AutomationState :=
  match fs !! state_file task_id with
  | None => None
  | Some (StateFile d) => Some (restore now d)
  | Some _ => None
  end.

(** [AutomationState.cleanup] (lines 824-828). *)
Definition cleanup (st : AutomationState) (fs : gmap string file)
    : gmap string file :=
  let state_file := state_file (task_id st) in
  match fs !! state_file with
  | Some _ => delete state_file fs
  | None => fs
  end.

(* ===================================================================== *)
(** * The process state and [TaskStateManager] *)
(* ===================================================================== *)

(** The module-level registries and the files of the working directory. *)
Record World := mkWorld {
  automation_states : gmap string AutomationState;
  task_status : gmap string TaskRecord;
  active_threads : gset string;
  files : gmap string file
}.

Definition task_state_file : string := "task_state.json".

(** [TaskStateManager.save_state] (lines 180-192) after the in-memory
    store became [tasks].  The dumped dict also carries a [last_updated]
    stamp and the manager's own (always empty) thread list; only
    [task_status] is kept here. *)
Definition with_tasks (tasks : gmap string TaskRecord) (w : World) : World :=
  {| automation_states := automation_states w;
     task_status := tasks;
     active_threads := active_threads w;
     files := <[task_state_file := TasksFile tasks]> (files w) |}.

(** [add_task_status] / [TaskStateManager.add_task] (lines 210-213). *)
Definition add_task_status (task_id : string) (task_data : TaskRecord)
    (w : World) : World :=
  with_tasks (<[task_id := task_data]> (task_status w)) w.

(** [update_task_status] / [TaskStateManager.update_task] (lines 215-219):
    nothing happens for an id that has no record. *)
Definition update_task_status (task_id : string)
    (updates : TaskRecord -> TaskRecord) (w : World) : World :=
  match task_status w !! task_id with
  | Some r => with_tasks (<[task_id := updates r]> (task_status w)) w
  | None => w
  end.

(** The recurring four lines that read the record's log list, append to it
    and write it back. *)
Definition append_logs (task_id : string) (new_lines : list LogLine)
    (w : World) : World :=
  update_task_status task_id (with_logs new_lines) w.

(** [current_task.get('status')] of [get_task_status().get(task_id, {})]. *)
Definition status_of (task_id : string) (w : World) : option TaskStatus :=
  status <$> task_status w !! task_id.

(** [state.save_state()] in the process state. *)
Definition save_state_in {order : PySetOrder} (st : AutomationState)
    (w : World) : World :=
  {| automation_states := automation_states w;
     task_status := task_status w;
     active_threads := active_threads w;
     files := save_state st (files w) |}.

(** [state.cleanup()] in the process state. *)
Definition cleanup_in (st : AutomationState) (w : World) : World :=
  {| automation_states := automation_states w;
     task_status := task_status w;
     active_threads := active_threads w;
     files := cleanup st (files w) |}.

(** What [cancel_task] (lines 2083-2090) does to the record the worker
    polls: the status becomes ['cancelled'] and a line is logged. *)
Definition request_cancel (task_id : string) (w : World) : World :=
  match task_status w !! task_id with
  | Some _ =>
      append_logs task_id [LogCancelRequested]
        (update_task_status task_id (with_status Cancelled) w)
  | None => w
  end.

(* ===================================================================== *)
(** * [WebDashboard.run_automation_async] and its worker *)
(* ===================================================================== *)

(** [int(x)] of a float: truncation towards zero.  The clock reading is a
    rational number of seconds. *)
Definition py_int (x : Q) : Z := Z.quot (Qnum x) (Z.pos (Qden x)).

(** [f"automation_{int(time.time())}"] (line 1132). *)
Definition automation_id (clock : Q) : string :=
  "automation_" +:+ pretty (py_int clock).

Definition initial_task_data (now : string) (state : AutomationState)
    (actions : list (string * bool)) : TaskRecord :=
  {| type_ := "automation";
     status := Running;
     progress := 0;
     total := Z.of_nat (length (paired_tasks state));
     current := 0;
     logs := [];
     record_start_time := now;
     strategy := "standard";
     actions_enabled := actions |}.

(** The synchronous part of [run_automation_async] (lines 1132-1151 and
    1308-1314): the state object is registered, the task record added, the
    worker thread registered and started; the id is returned. *)
Definition run_automation_async (now : string) (clock : Q)
    (profile_name : string) (tweet_links reply_comments : list string)
    (actions : list (string * bool)) (min_wait max_wait max_retries : Z)
    (w : World) : string * World :=
  let task_id := automation_id clock in
  let state :=
    AutomationState_init now task_id profile_name tweet_links reply_comments
      actions min_wait max_wait max_retries in
  let w :=
    {| automation_states := <[task_id := state]> (automation_states w);
       task_status := task_status w;
       active_threads := active_threads w;
       files := files w |} in
  let w := add_task_status task_id (initial_task_data now state actions) w in
  let w :=
    {| automation_states := automation_states w;
       task_status := task_status w;
       active_threads := {[task_id]} ∪ active_threads w;
       files := files w |} in
  (task_id, w).

(** What the worker does not decide itself. *)
Record Env := mkEnv {
  driver_ok : bool;                               (* automation.setup_driver() *)
  shuffle : list PairedTask -> list PairedTask;   (* random.shuffle *)
  executor : PairedTask -> bool;                  (* _process_tweet_with_retries *)
  cancel_before : nat -> bool;  (* a cancel request lands before item i is polled *)
  draw_wait : nat -> Z;                           (* random.randint(min_wait, max_wait) *)
  percent : Z -> Z -> Z;                          (* int((a / b) * 100), on floats *)
  now_at : nat -> string                          (* datetime.now().isoformat() *)
}.

(** How the worker's [try] block was left. *)
Inductive WorkerExit :=
  | NoDriver      (* setup_driver() failed: early return *)
  | Exhausted     (* the for loop ran out of items *)
  | CancelSeen    (* the status check saw 'cancelled': break *)
  | Raised.       (* an exception reached the except clause *)

Definition with_current_index (i : Z) (st : AutomationState) : AutomationState :=
  {| task_id := task_id st;
     profile_name := profile_name st;
     tweet_links := tweet_links st;
     reply_comments := reply_comments st;
     actions := actions st;
     min_wait := min_wait st;
     max_wait := max_wait st;
     max_retries := max_retries st;
     paired_tasks := paired_tasks st;
     processed_tasks := processed_tasks st;
     successful_tasks := successful_tasks st;
     failed_tasks := failed_tasks st;
     current_index := i;
     start_time := start_time st;
     last_updated := last_updated st |}.

Section Worker.
Context {order : PySetOrder}.
Variable env : Env.
Variable task_id : string.
Variables min_wait max_wait : Z.

(** The [for i, task in enumerate(remaining_tasks)] loop (lines
    1200-1271); [count] is [len(remaining_tasks)] and [i] the position of
    the head of [tasks]. *)
Fixpoint process_tasks (count : nat) (i : nat) (tasks : list PairedTask)
    (state : AutomationState) (w : World)
    : WorkerExit * AutomationState * World :=
  match tasks with
  | [] => (Exhausted, state, w)
  | task :: rest =>
      let w := if cancel_before env i then request_cancel task_id w else w in
      if bool_decide (status_of task_id w = Some Cancelled) then
        (CancelSeen, state, append_logs task_id [LogCancelled] w)
      else
        let task_index := index task in
        let state := with_current_index (Z.of_nat i) state in
        let w :=
          update_task_status task_id
            (with_progress (Z.of_nat i + 1)
               (percent env (Z.of_nat i + 1) (Z.of_nat count))) w in
        let w :=
          append_logs task_id
            [LogProcessing (Z.of_nat i + 1) (Z.of_nat count)
               (tweet_url task) (comment task)] w in
        let success := executor env task in
        let state :=
          mark_task_processed (now_at env i) state task_index success in
        let w :=
          append_logs task_id
            [if success then LogTaskSucceeded else LogTaskFailed] w in
        let w :=
          append_logs task_id [LogProgress (get_progress_stats state)] w in
        let w :=
          if (Z.of_nat i + 1) mod 3 =? 0 then
            append_logs task_id [LogProgressSaved] (save_state_in state w)
          else w in
        if Z.of_nat i <? Z.of_nat count - 1 then
          if max_wait <? min_wait then (Raised, state, w)  (* randint raises *)
          else
            let wait_time := draw_wait env i in
            let w := append_logs task_id [LogWaiting wait_time] w in
            if wait_time <? 0 then (Raised, state, w)      (* sleep raises *)
            else process_tasks count (S i) rest state w
        else process_tasks count (S i) rest state w
  end.

(** The [finally] clause (lines 1299-1306). *)
Definition worker_finally (w : World) : World :=
  {| automation_states := delete task_id (automation_states w);
     task_status := task_status w;
     active_threads := active_threads w ∖ {[task_id]};
     files := files w |}.

(** [automation_worker] (lines 1153-1306) for the job whose state object
    is [state]. *)
Definition automation_worker (state : AutomationState) (w : World)
    : WorkerExit * AutomationState * World :=
  let w :=
    append_logs task_id
      [LogStarting (profile_name state);
       LogConfiguration (Z.of_nat (length (paired_tasks state)))
         (actions state) min_wait max_wait (max_retries state)] w in
  let w := append_logs task_id [LogStrategy] w in
  if negb (driver_ok env) then
    let w := update_task_status task_id (with_status Error) w in
    let w := append_logs task_id [LogDriverFailed] w in
    (NoDriver, state, worker_finally w)
  else
    let w := append_logs task_id [LogDriverReady] w in
    let remaining_tasks := shuffle env (get_remaining_tasks state) in
    let w :=
      append_logs task_id
        [LogRandomized (Z.of_nat (length remaining_tasks))] w in
    match process_tasks (length remaining_tasks) 0 remaining_tasks state w with
    | (Raised, state, w) =>
        let w := update_task_status task_id (with_status Error) w in
        let w := append_logs task_id [LogAutomationError] w in
        let w := save_state_in state w in
        (Raised, state, worker_finally w)
    | (exit, state, w) =>
        let w := save_state_in state w in
        let final_stats := get_progress_stats state in
        let w := update_task_status task_id (with_status Completed) w in
        let w := append_logs task_id [LogCompleted final_stats] w in
        (exit, state, worker_finally w)
    end.
End Worker.

(* ===================================================================== *)
(** * The endpoints [start_automation] and [recover_automation] *)
(* ===================================================================== *)

(** The JSON body of [POST /api/automate]; an absent key is [None]. *)
Record AutomateRequest := mkAutomateRequest {
  req_profile_name : option string;
  req_tweet_links : list string;
  req_reply_comments : list string;
  req_actions : list (string * bool);
  req_min_wait : option Z;
  req_max_wait : option Z;
  req_max_retries : option Z
}.

(** The JSON answers: [Started] and [Recovered] are the 200 answers,
    [Failure code error] the others. *)
Inductive Response :=
  | Started (task_id : string)
  | Recovered (task_id : string) (remaining_count : Z)
  | Failure (code : Z) (error : string).

(** [not profile_name] for a value that is [None] or a string. *)
Definition missing (name : option string) : bool :=
  match name with
  | None => true
  | Some s => negb (truthy s)
  end.

(** [any(actions.values())] *)
Definition any_enabled (actions : list (string * bool)) : bool :=
  existsb snd actions.

(** [start_automation] (lines 1803-1846). *)
Definition start_automation (now : string) (clock : Q)
    (data : AutomateRequest) (w : World) : Response * World :=
  let profile_name := req_profile_name data in
  let tweet_links := req_tweet_links data in
  let reply_comments := req_reply_comments data in
  let actions := req_actions data in
  let min_wait := default 5 (req_min_wait data) in
  let max_wait := default 15 (req_max_wait data) in
  let max_retries := default 3 (req_max_retries data) in
  if missing profile_name then
    (Failure 400 "Profile name is required", w)
  else if bool_decide (tweet_links = []) then
    (Failure 400 "Tweet links are required", w)
  else if negb (any_enabled actions) then
    (Failure 400 "At least one action must be selected", w)
  else
    let '(task_id, w) :=
      run_automation_async now clock (default EmptyString profile_name)
        tweet_links reply_comments actions min_wait max_wait max_retries w in
    (Started task_id, w).

(** The loop of lines 1924-1929: the stored tasks whose list position is
    not in [processed_tasks]. *)
Definition recover_remaining (state : AutomationState) : list PairedTask :=
  foldl (fun acc it =>
           if set_in (Z.of_nat (fst it)) (processed_tasks state) then acc
           else acc ++ [snd it])
        [] (enumerate (paired_tasks state)).

(** [recover_automation] (lines 1904-1961).  The new worker is started
    inside [run_automation_async]; the old snapshot is removed right
    after. *)
Definition recover_automation (now : string) (clock : Q)
    (task_id : string) (w : World) : Response * World :=
  match load_state now (files w) task_id with
  | None => (Failure 404 "No saved state found for recovery", w)
  | Some state =>
      if bool_decide (status_of task_id w = Some Running) then
        (Failure 400 "Task is already running", w)
      else
        let remaining_tweets := tweet_url <$> recover_remaining state in
        let remaining_comments := comment <$> recover_remaining state in
        if bool_decide (remaining_tweets = []) then
          (Failure 400 "No remaining tweets to process", w)
        else
          let '(new_task_id, w) :=
            run_automation_async now clock (profile_name state)
              remaining_tweets remaining_comments (actions state)
              (min_wait state) (max_wait state) (max_retries state) w in
          let w := cleanup_in state w in
          (Recovered new_task_id (Z.of_nat (length remaining_tweets)), w)
  end.

(** The three refusals of [recover_automation], by the specification's
    names. *)
Definition NotFound : Response :=
  Failure 404 "No saved state found for recovery".
Definition AlreadyRunning : Response :=
  Failure 400 "Task is already running".
Definition NothingRemaining : Response :=
  Failure 400 "No remaining tweets to process".

(** A refusal of [start_automation] for bad input. *)
Definition ValidationError (r : Response) : Prop :=
  exists error, r = Failure 400 error.

(* ===================================================================== *)
(** * Vocabulary of the statements *)
(* ===================================================================== *)

(** The indices passed to [mark] with outcome [success] in [calls]. *)
Definition marked (success : bool) (calls : list (string * Z * bool))
    : gset Z :=
  list_to_set (snd ∘ fst <$> filter (fun c => snd c = success) calls).

(** The stored indices are the list positions: the builder dropped nothing
    before any kept item. *)
Definition contiguous (items : list PairedTask) : Prop :=
  index <$> items = (Z.of_nat <$> seq 0 (length items)).

(** Two snapshots that agree on every field, the three index arrays being
    compared as collections: same entries, in any order. *)
Definition same_up_to_index_order (d d' : state_data) : Prop :=
  sd_task_id d = sd_task_id d' /\
  sd_profile_name d = sd_profile_name d' /\
  sd_paired_tasks d = sd_paired_tasks d' /\
  sd_actions d = sd_actions d' /\
  sd_min_wait d = sd_min_wait d' /\
  sd_max_wait d = sd_max_wait d' /\
  sd_max_retries d = sd_max_retries d' /\
  sd_processed_tasks d ≡ₚ sd_processed_tasks d' /\
  sd_successful_tasks d ≡ₚ sd_successful_tasks d' /\
  sd_failed_tasks d ≡ₚ sd_failed_tasks d' /\
  sd_current_index d = sd_current_index d' /\
  sd_start_time d = sd_start_time d' /\
  sd_last_updated d = sd_last_updated d' /\
  sd_stats d = sd_stats d'.

(** The sets of a state object hold no index twice. *)
Definition sets_wf (st : AutomationState) : Prop :=
  NoDup (processed_tasks st) /\
  NoDup (successful_tasks st) /\
  NoDup (failed_tasks st).

(** The inputs [start_automation] refuses. *)
Definition refused_input (data : AutomateRequest) : Prop :=
  missing (req_profile_name data) = true \/
  req_tweet_links data = [] \/
  any_enabled (req_actions data) = false.

(** A snapshot is stored for the job id. *)
Definition has_snapshot (task_id : string) (w : World) : Prop :=
  exists d, files w !! state_file task_id = Some (StateFile d).

(** The task record of [task_id] exists. *)
Definition has_task_record (task_id : string) (w : World) : Prop :=
  is_Some (task_status w !! task_id).

(** A stored task as the builder leaves it: target and annotation trimmed,
    target non-empty. *)
Definition stored_trimmed (t : PairedTask) : Prop :=
  strip (tweet_url t) = tweet_url t /\
  tweet_url t <> EmptyString /\
  strip (comment t) = comment t.

(** The task the builder makes of a stored task met at position [i]. *)
Definition reindexed (i : nat) (t : PairedTask) : PairedTask :=
  {| index := Z.of_nat i;
     tweet_url := tweet_url t;
     comment := comment t;
     original_tweet_index := Z.of_nat i;
     original_comment_index := Z.of_nat i |}.

(* ===================================================================== *)
(** * [TaskStateManager]: loading, removing, cleaning up *)
(* ===================================================================== *)

(** [TaskStateManager.load_state] (lines 194-208), as run by [__init__] on
    an empty store: the stored [task_status]; the empty dict when the file
    is missing, lacks the key or cannot be read. *)
Definition load_task_state (fs : gmap string file) : gmap string TaskRecord :=
  match fs !! task_state_file with
  | Some (TasksFile tasks) => tasks
  | Some _ => ∅
  | None => ∅
  end.

(** [remove_task_status] / [TaskStateManager.remove_task] (lines 221-225). *)
Definition remove_task_status (task_id : string) (w : World) : World :=
  match task_status w !! task_id with
  | Some _ => with_tasks (delete task_id (task_status w)) w
  | None => w
  end.

(** [TaskStateManager.get_task] (lines 227-229). *)
Definition get_task (task_id : string) (w : World) : option TaskRecord :=
  task_status w !! task_id.

(** [a < b] on time stamps. *)
Definition Qltb (a b : Q) : bool := negb (Qle_bool b a).

(** [status in ['completed', 'error', 'cancelled']] *)
Definition finished (s : TaskStatus) : bool :=
  match s with
  | Running => false
  | Completed | Error | Cancelled => true
  end.

Section Cleanup.
(** [datetime.fromisoformat(s).timestamp()]; [None] when it raises. *)
Variable parse_time : string -> option Q.

(** The test of lines 241-249 that puts a task on [tasks_to_remove]. *)
Definition expired (cutoff_time : Q) (task_data : TaskRecord) : bool :=
  finished (status task_data) &&
  truthy (record_start_time task_data) &&
  match parse_time (record_start_time task_data) with
  | Some task_timestamp => Qltb task_timestamp cutoff_time
  | None => false
  end.

(** [TaskStateManager.cleanup_completed_tasks] (lines 235-255);
    [now_timestamp] is [datetime.now().timestamp()].  The dict is walked in
    the map's own key order. *)
Definition cleanup_completed_tasks (now_timestamp : Q) (max_age_hours : Z)
    (w : World) : World :=
  let cutoff_time := Qminus now_timestamp (inject_Z (max_age_hours * 3600)) in
  let tasks_to_remove :=
    fst <$> filter (fun kv => expired cutoff_time (snd kv) = true)
                   (map_to_list (task_status w)) in
  foldl (fun w task_id => remove_task_status task_id w) w tasks_to_remove.

(** A new process over the files [fs]: the module builds its
    [TaskStateManager] (line 258), the registries start empty (lines
    164-169), and [initialize_task_state] (lines 281-305) cleans up tasks
    older than 24 hours. *)
Definition restart (now_timestamp : Q) (fs : gmap string file) : World :=
  cleanup_completed_tasks now_timestamp 24
    {| automation_states := ∅;
       task_status := load_task_state fs;
       active_threads := ∅;
       files := fs |}.
End Cleanup.

(** The task file holds the in-memory store. *)
Definition in_sync (w : World) : Prop :=
  load_task_state (files w) = task_status w.

(* ===================================================================== *)
(** * The read-only endpoint [get_automation_tasks] *)
(* ===================================================================== *)

(** The ['status'] of an entry of ['tasks']. *)
Inductive ItemStatus := Pending | Success | Failed.

(** One [task_info] dict (lines 2004-2015). *)
Record TaskInfo := mkTaskInfo {
  info_index : Z;
  info_tweet_url : string;
  info_comment : string;
  info_status : ItemStatus
}.

(** The body of the loop of lines 2003-2017 for the task at position [i]. *)
Definition task_info (state : AutomationState) (i : nat) (task : PairedTask)
    : TaskInfo :=
  {| info_index := Z.of_nat i;
     info_tweet_url := tweet_url task;
     info_comment := comment task;
     info_status :=
       if set_in (Z.of_nat i) (processed_tasks state) then
         if set_in (Z.of_nat i) (successful_tasks state) then Success
         else Failed
       else Pending |}.

(** The 200 answer of [get_automation_tasks] (lines 2021-2030). *)
Record TasksView := mkTasksView {
  view_task_id : string;
  view_profile_name : string;
  view_tasks : list TaskInfo;
  view_stats : Stats;
  view_actions : list (string * bool);
  view_start_time : string;
  view_last_updated : string
}.

(** Lines 1989-1998, shared with [get_automation_state] (lines 1852-1873):
    the registered state object if there is one, else the stored
    snapshot. *)
Definition find_state (now : string) (task_id : string) (w : World)
    : option AutomationState :=
  match automation_states w !! task_id with
  | Some state => Some state
  | None => load_state now (files w) task_id
  end.

(** [get_automation_tasks] (lines 1985-2034); [None] is the 404 answer. *)
Definition get_automation_tasks (now : string) (task_id : string) (w : World)
    : option TasksView :=
  match find_state now task_id w with
  | None => None
  | Some state =>
      Some {| view_task_id := task_id;
              view_profile_name := profile_name state;
              view_tasks := imap (task_info state) (paired_tasks state);
              view_stats := get_progress_stats state;
              view_actions := actions state;
              view_start_time := start_time state;
              view_last_updated := last_updated state |}
  end.

#[global] Instance ItemStatus_eq_dec : EqDecision ItemStatus.
Proof. solve_decision. Defined.

(** The target and annotation an entry or a task carries. *)
Definition info_pair (e : TaskInfo) : string * string :=
  (info_tweet_url e, info_comment e).
Definition task_pair (t : PairedTask) : string * string :=
  (tweet_url t, comment t).

(** [w'] has the registries of [w]: the same registered state objects and
    the same registered threads. *)
Definition same_registries (w w' : World) : Prop :=
  automation_states w' = automation_states w /\
  active_threads w' = active_threads w.

(* ===================================================================== *)
(** * Actions and retries *)
(* ===================================================================== *)

(** [d[k] = v] on a dict kept in insertion order: an existing key keeps
    its place. *)
Fixpoint dict_set (d : list (string * bool)) (k : string) (v : bool)
    : list (string * bool) :=
  match d with
  | [] => [(k, v)]
  | (k', v') :: d' =>
      if decide (k = k') then (k, v) :: d' else (k', v') :: dict_set d' k v
  end.

(** The names registered by [StandardAutomationStrategy] (lines 667-672). *)
Definition standard_actions : list string := ["like"; "retweet"; "reply"].

(** What the browser does during one attempt on a tweet. *)
Record Attempt := mkAttempt {
  page_loads : bool;                    (* driver.get and the wait do not raise *)
  can_execute : string -> bool;         (* action.can_execute(driver) *)
  action_result : string -> option bool (* action.execute(...); None: it raises *)
}.

(** The body of the loop of [execute_actions] (lines 635-655): the value
    stored under [action_name]. *)
Definition run_action (registered : list string) (a : Attempt)
    (action_name : string) (enabled : bool) : bool :=
  if enabled && bool_decide (action_name ∈ registered) then
    if can_execute a action_name then
      match action_result a action_name with
      | Some result => result
      | None => false
      end
    else false
  else false.

(** [AutomationStrategy.execute_actions] (lines 627-659). *)
Definition execute_actions (registered : list string) (a : Attempt)
    (enabled_actions : list (string * bool)) : list (string * bool) :=
  foldl (fun results entry =>
           dict_set results (fst entry)
             (run_action registered a (fst entry) (snd entry)))
        [] enabled_actions.

(** [[name for name, flag in d.items() if flag]] *)
Definition true_keys (d : list (string * bool)) : list string :=
  fst <$> filter (fun entry => snd entry = true) d.

(** The lines [_process_tweet_with_retries] adds to the task's log; the
    action names and the exception text they interpolate are not kept. *)
Inductive RetryLine :=
  | RetryActionsFailed (attempt : Z)   (* "Attempt n failed for actions ..., retrying" *)
  | RetryAllFailed                     (* "All attempts failed for actions ..." *)
  | RetryRaised (attempt : Z)          (* "Attempt n failed: ..., retrying" *)
  | RetryError.                        (* "Error processing tweet: ..." *)

Section Retries.
Variable registered : list string.
Variable attempts : nat -> Attempt.
Variable actions : list (string * bool).
Variable max_retries : Z.

(** The [for attempt in range(max_retries)] loop of
    [_process_tweet_with_retries] (lines 1320-1381) over the attempts still
    to make: the result and the lines logged. *)
Fixpoint try_attempts (todo : list nat) : bool * list RetryLine :=
  match todo with
  | [] => (false, [])
  | attempt :: rest =>
      if page_loads (attempts attempt) then
        let action_results :=
          execute_actions registered (attempts attempt) actions in
        let enabled_actions := true_keys actions in
        let successful_actions := true_keys action_results in
        if (length successful_actions =? length enabled_actions)%nat then
          (true, [])
        else if Z.of_nat attempt <? max_retries - 1 then
          let '(result, lines) := try_attempts rest in
          (result, RetryActionsFailed (Z.of_nat attempt + 1) :: lines)
        else (false, [RetryAllFailed])
      else
        if Z.of_nat attempt <? max_retries - 1 then
          let '(result, lines) := try_attempts rest in
          (result, RetryRaised (Z.of_nat attempt + 1) :: lines)
        else (false, [RetryError])
  end.

(** [_process_tweet_with_retries] (lines 1316-1383). *)
Definition _process_tweet_with_retries : bool * list RetryLine :=
  try_attempts (seq 0 (Z.to_nat max_retries)).
End Retries.

(** What one call of [scraper.scrape_tweet_content(link)] does. *)
Inductive ScrapeAttempt :=
  | ScrapeRaises
  | ScrapeReturns (content : option string).

(** [content and content.strip()] *)
Definition has_content (content : option string) : bool :=
  match content with
  | Some text => truthy text && truthy (strip text)
  | None => false
  end.

(** The loop of [_scrape_with_retries] (lines 1385-1404) over the attempts
    still to make. *)
Fixpoint scrape_attempts (attempts : nat -> ScrapeAttempt) (todo : list nat)
    : option string :=
  match todo with
  | [] => None
  | attempt :: rest =>
      match attempts attempt with
      | ScrapeReturns content =>
          if has_content content then content
          else scrape_attempts attempts rest
      | ScrapeRaises => scrape_attempts attempts rest
      end
  end.

(** [_scrape_with_retries] (lines 1385-1404). *)
Definition _scrape_with_retries (attempts : nat -> ScrapeAttempt)
    (max_retries : Z) : option string :=
  scrape_attempts attempts (seq 0 (Z.to_nat max_retries)).

(** An attempt in which the page loads and every enabled action is
    registered, can execute and reports success. *)
Definition attempt_succeeds (registered : list string) (a : Attempt)
    (actions : list (string * bool)) : Prop :=
  page_loads a = true /\
  forall name, (name, true) ∈ actions ->
    name ∈ registered /\
    can_execute a name = true /\
    action_result a name = Some true.

(** A scrape attempt that returns text with something other than white
    space in it. *)
Definition scrape_succeeds (a : ScrapeAttempt) : Prop :=
  exists text, a = ScrapeReturns (Some text) /\ strip text <> EmptyString.

(* ===================================================================== *)
(** * Saving in place: what a concurrent reader can find *)
(* ===================================================================== *)

(** [open(path, 'w')]: the file is created, or truncated if it exists.
    Until the dump has been written out it holds an empty or partial text,
    on which [json.load] raises. *)
Definition open_for_writing (path : string) (fs : gmap string file)
    : gmap string file :=
  <[path := Unreadable]> fs.

(** The states of the working directory a reader can find while
    [AutomationState.save_state] runs its last two lines (777-778): after
    [open(state_file, 'w')], and after [json.dump] and the close. *)
Definition save_state_stages {order : PySetOrder} (st : AutomationState)
    (fs : gmap string file) : list (gmap string file) :=
  let state_file := state_file (task_id st) in
  let opened := open_for_writing state_file fs in
  [opened; <[state_file := StateFile (state_data_of st)]> opened].

(** The same for [TaskStateManager.save_state] (lines 189-190), run after
    the in-memory store has become [tasks]. *)
Definition with_tasks_stages (tasks : gmap string TaskRecord) (w : World)
    : list World :=
  let opened := open_for_writing task_state_file (files w) in
  [ {| automation_states := automation_states w;
       task_status := tasks;
       active_threads := active_threads w;
       files := opened |};
    {| automation_states := automation_states w;
       task_status := tasks;
       active_threads := active_threads w;
       files := <[task_state_file := TasksFile tasks]> opened |} ].

(** A save is atomic for the readers of a job's snapshot: at every stage
    they load what was stored before the save or what is stored after
    it. *)
Definition snapshot_save_atomic {order : PySetOrder} (now : string)
    (st : AutomationState) (fs : gmap string file) : Prop :=
  forall stage, stage ∈ save_state_stages st fs ->
    load_state now stage (task_id st) = load_state now fs (task_id st) \/
    load_state now stage (task_id st) =
      load_state now (save_state st fs) (task_id st).

(* ===================================================================== *)
(** * Properties of [strip] *)
(* ===================================================================== *)

Lemma lstrip_head s c s' : lstrip s = String c s' -> py_isspace c = false.
Proof.
  induction s as [|a s IH]; simpl; [discriminate|].
  destruct (py_isspace a) eqn:Ha; [exact IH|].
  intros [= <- _]. exact Ha.
Qed.

Lemma rstrip_head s c r : rstrip s = String c r -> exists s', s = String c s'.
Proof.
  destruct s as [|a s]; simpl; [discriminate|].
  destruct (rstrip s); [destruct (py_isspace a)|]; intros [= <- _]; eauto.
Qed.

Lemma rstrip_last s s' c :
  rstrip s = s' +:+ String c EmptyString -> py_isspace c = false.
Proof.
  revert s'. induction s as [|a s IH]; intros s'; simpl.
  - destruct s'; discriminate.
  - destruct (rstrip s) as [|b r] eqn:Hr.
    + destruct (py_isspace a) eqn:Ha.
      * destruct s'; discriminate.
      * destruct s' as [|x s']; simpl.
        -- intros [= <-]. exact Ha.
        -- intros [= _ H]. destruct s'; discriminate.
    + destruct s' as [|x s']; simpl; [discriminate|].
      intros [= _ H]. exact (IH s' H).
Qed.

Lemma strip_no_surrounding_space s : no_surrounding_space (strip s).
Proof.
  split.
  - intros c s' H. unfold strip in H.
    destruct (rstrip_head _ _ _ H) as [s'' Hs]. exact (lstrip_head _ _ _ Hs).
  - intros s' c H. exact (rstrip_last _ _ _ H).
Qed.

Lemma truthy_true s : truthy s = true <-> s <> EmptyString.
Proof. destruct s; simpl; split; congruence. Qed.

(* ===================================================================== *)
(** * The paired-task builder *)
(* ===================================================================== *)

Lemma py_isspace_spec c : py_isspace c = true <-> space_code (N_of_ascii c).
Proof.
  unfold py_isspace, space_code. cbv zeta.
  rewrite !orb_true_iff, !andb_true_iff, !N.leb_le, !N.eqb_eq. tauto.
Qed.

Lemma py_isspace_false c : py_isspace c = false <-> ~ space_code (N_of_ascii c).
Proof.
  rewrite <- py_isspace_spec. by destruct (py_isspace c); split.
Qed.

Lemma append_nil_l (s : string) : EmptyString +:+ s = s.
Proof. reflexivity. Qed.

Lemma append_cons (c : ascii) (s t : string) :
  String c s +:+ t = String c (s +:+ t).
Proof. reflexivity. Qed.

Lemma append_nil_r (s : string) : s +:+ EmptyString = s.
Proof.
  induction s as [|c s IH]; [done|]. by rewrite append_cons, IH.
Qed.

Lemma blank_append a b : blank (a +:+ b) <-> blank a /\ blank b.
Proof.
  induction a as [|c a IH].
  - rewrite append_nil_l. simpl. tauto.
  - rewrite append_cons. simpl. rewrite IH. tauto.
Qed.

Lemma lstrip_split s : exists l, s = l +:+ lstrip s /\ blank l.
Proof.
  induction s as [|c s (l & Hs & Hl)]; simpl.
  - by exists EmptyString.
  - destruct (py_isspace c) eqn:Hc.
    + exists (String c l). rewrite append_cons, <- Hs. split; [done|].
      simpl. split; [by apply py_isspace_spec|done].
    + by exists EmptyString.
Qed.

Lemma rstrip_split s : exists r, s = rstrip s +:+ r /\ blank r.
Proof.
  induction s as [|c s (r & Hs & Hr)]; simpl.
  - by exists EmptyString.
  - destruct (rstrip s) as [|d u] eqn:Hu.
    + rewrite append_nil_l in Hs. subst r.
      destruct (py_isspace c) eqn:Hc.
      * exists (String c s). split; [done|].
        simpl. split; [by apply py_isspace_spec|done].
      * exists s. by rewrite append_cons, append_nil_l.
    + exists r. split; [|done]. rewrite append_cons. by rewrite <- Hs.
Qed.

Lemma lstrip_blank s : blank s -> lstrip s = EmptyString.
Proof.
  induction s as [|c s IH]; simpl; [done|].
  intros [Hc Hs]. apply py_isspace_spec in Hc. rewrite Hc. by apply IH.
Qed.

(** [strip] takes the white space off both ends and nothing else. *)
Lemma strip_trimmed_of s : trimmed_of s (strip s).
Proof.
  destruct (lstrip_split s) as (l & Hs & Hl).
  destruct (rstrip_split (lstrip s)) as (r & Hm & Hr).
  exists l, r. fold (strip s) in Hm.
  split; [by rewrite <- Hm|]. split; [done|]. split; [done|].
  destruct (strip_no_surrounding_space s) as [Hhead Hlast].
  split.
  - intros c t' Ht. apply py_isspace_false. by eapply Hhead.
  - intros t' c Ht. apply py_isspace_false. by eapply Hlast.
Qed.

(** [strip] leaves nothing exactly on the strings of white space. *)
Lemma strip_empty_iff_blank s : strip s = EmptyString <-> blank s.
Proof.
  split.
  - intros He. destruct (strip_trimmed_of s) as (l & r & Hs & Hl & Hr & _).
    rewrite He, append_nil_l in Hs. rewrite Hs. by apply blank_append.
  - intros Hb. unfold strip. by rewrite lstrip_blank.
Qed.

Lemma get_or_empty_blank (l : list string) (i : nat) :
  ~ blank (get_or_empty l i) <-> exists s, l !! i = Some s /\ ~ blank s.
Proof.
  unfold get_or_empty. destruct (l !! i) as [s|]; simpl.
  - split; [by exists s|]. by intros (s' & [= <-] & Hs).
  - split; [by intros []|]. by intros (s' & [=] & _).
Qed.

Lemma string_last_split (t : string) :
  t <> EmptyString -> exists t' c, t = t' +:+ String c EmptyString.
Proof.
  induction t as [|a t IH]; [done|]. intros _.
  destruct t as [|b t].
  - by exists EmptyString, a.
  - destruct IH as (t' & c & Ht); [done|].
    exists (String a t'), c. by rewrite append_cons, <- Ht.
Qed.

Lemma blank_prefix_unique (l1 l2 a b : string) :
  l1 +:+ a = l2 +:+ b -> blank l1 -> blank l2 ->
  (forall c a', a = String c a' -> ~ space_code (N_of_ascii c)) ->
  (forall c b', b = String c b' -> ~ space_code (N_of_ascii c)) ->
  l1 = l2 /\ a = b.
Proof.
  revert l2. induction l1 as [|c l1 IH]; intros [|d l2] Heq Hl1 Hl2 Ha Hb.
  - done.
  - rewrite append_nil_l, append_cons in Heq. simpl in Hl2.
    exfalso. by apply (Ha _ _ Heq), Hl2.
  - rewrite append_nil_l, append_cons in Heq. simpl in Hl1.
    exfalso. by apply (Hb _ _ (eq_sym Heq)), Hl1.
  - rewrite !append_cons in Heq. injection Heq as -> Heq.
    simpl in Hl1, Hl2.
    destruct (IH l2 Heq) as [-> ->]; tauto.
Qed.

Lemma blank_suffix_unique (t1 t2 r1 r2 : string) :
  t1 +:+ r1 = t2 +:+ r2 -> blank r1 -> blank r2 ->
  (forall t' c, t1 = t' +:+ String c EmptyString -> ~ space_code (N_of_ascii c)) ->
  (forall t' c, t2 = t' +:+ String c EmptyString -> ~ space_code (N_of_ascii c)) ->
  t1 = t2.
Proof.
  assert (forall t r, t <> EmptyString -> blank (t +:+ r) ->
            (forall t' c, t = t' +:+ String c EmptyString ->
                          ~ space_code (N_of_ascii c)) -> False) as Hno.
  { intros t r Hne Hb Hlast.
    destruct (string_last_split t Hne) as (t' & c & Ht).
    apply (Hlast _ _ Ht). rewrite Ht in Hb.
    apply blank_append in Hb as [Hb _]. apply blank_append in Hb as [_ Hb].
    simpl in Hb. tauto. }
  revert t2. induction t1 as [|c t1 IH]; intros [|d t2] Heq Hr1 Hr2 H1 H2.
  - done.
  - exfalso. rewrite append_nil_l in Heq. rewrite Heq in Hr1.
    by apply (Hno (String d t2) r2).
  - exfalso. rewrite append_nil_l in Heq. rewrite <- Heq in Hr2.
    by apply (Hno (String c t1) r1).
  - rewrite !append_cons in Heq. injection Heq as -> Heq. f_equal.
    apply IH; try done.
    + intros t' c Ht. apply (H1 (String d t') c). by rewrite append_cons, Ht.
    + intros t' c Ht. apply (H2 (String d t') c). by rewrite append_cons, Ht.
Qed.

Lemma trimmed_of_nonempty s u :
  trimmed_of s u -> (u <> EmptyString <-> ~ blank s).
Proof.
  intros (l & r & -> & Hl & Hr & Hhead & _). split.
  - intros Hne Hb. destruct u as [|c u]; [done|].
    apply blank_append in Hb as [_ Hb]. apply blank_append in Hb as [Hb _].
    simpl in Hb. by apply (Hhead c u eq_refl), Hb.
  - intros Hnb ->. apply Hnb. rewrite append_nil_l. by apply blank_append.
Qed.

(** A string has one trimmed form. *)
Lemma trimmed_of_unique s u1 u2 : trimmed_of s u1 -> trimmed_of s u2 -> u1 = u2.
Proof.
  intros H1 H2.
  pose proof (trimmed_of_nonempty s u1 H1) as N1.
  pose proof (trimmed_of_nonempty s u2 H2) as N2.
  destruct H1 as (l1 & r1 & E1 & Hl1 & Hr1 & Hh1 & Ht1).
  destruct H2 as (l2 & r2 & E2 & Hl2 & Hr2 & Hh2 & Ht2).
  destruct (decide (u1 = EmptyString)) as [->|Hne1].
  { destruct (decide (u2 = EmptyString)) as [->|Hne2]; [done|].
    exfalso. apply (proj1 N2 Hne2). rewrite E1, append_nil_l. by apply blank_append. }
  destruct (decide (u2 = EmptyString)) as [->|Hne2].
  { exfalso. apply (proj1 N1 Hne1). rewrite E2, append_nil_l. by apply blank_append. }
  rewrite E1 in E2.
  destruct (blank_prefix_unique l1 l2 (u1 +:+ r1) (u2 +:+ r2) E2 Hl1 Hl2)
    as [_ Heq].
  - intros c a' Ha. destruct u1 as [|c1 u1]; [done|].
    rewrite append_cons in Ha. injection Ha as -> _. by apply (Hh1 c u1).
  - intros c b' Hb. destruct u2 as [|c2 u2]; [done|].
    rewrite append_cons in Hb. injection Hb as -> _. by apply (Hh2 c u2).
  - by apply (blank_suffix_unique u1 u2 r1 r2).
Qed.

Lemma trimmed_target_nonempty (l : list string) (i : nat) :
  (exists s, l !! i = Some s /\ ~ blank s) <->
  (exists u, trimmed_of (default EmptyString (l !! i)) u /\ u <> EmptyString).
Proof.
  rewrite <- get_or_empty_blank. unfold get_or_empty. split.
  - intros Hnb. exists (strip (default EmptyString (l !! i))).
    split; [apply strip_trimmed_of|].
    by apply (trimmed_of_nonempty _ _ (strip_trimmed_of _)).
  - intros (u & Hu & Hne). by apply (trimmed_of_nonempty _ _ Hu).
Qed.

Lemma pair_loop_omap tl rc acc (l : list nat) :
  foldl (pair_step tl rc) acc l = acc ++ omap (paired_task_at tl rc) l.
Proof.
  revert acc. induction l as [|i l IH]; intros acc; simpl.
  - by rewrite app_nil_r.
  - rewrite IH. unfold pair_step, paired_task_at.
    destruct (truthy (strip (get_or_empty tl i))); simpl; [|done].
    by rewrite <- app_assoc.
Qed.

Lemma create_paired_tasks_omap tl rc :
  _create_paired_tasks tl rc =
  omap (paired_task_at tl rc) (seq 0 (Nat.max (length tl) (length rc))).
Proof. unfold _create_paired_tasks. by rewrite pair_loop_omap. Qed.

Lemma paired_task_at_index tl rc i t :
  paired_task_at tl rc i = Some t -> index t = Z.of_nat i.
Proof.
  unfold paired_task_at. destruct (truthy _); [|discriminate].
  by intros [= <-].
Qed.

Lemma elem_of_created tl rc t :
  t ∈ _create_paired_tasks tl rc <->
  exists i, (i < Nat.max (length tl) (length rc))%nat /\
            paired_task_at tl rc i = Some t.
Proof.
  rewrite create_paired_tasks_omap, list_elem_of_omap.
  split.
  - intros (i & Hi & Ht). exists i. split; [|done].
    apply elem_of_seq in Hi. lia.
  - intros (i & Hi & Ht). exists i. split; [|done].
    apply elem_of_seq. lia.
Qed.

Lemma omap_seq_sorted tl rc a n :
  StronglySorted Z.lt (index <$> omap (paired_task_at tl rc) (seq a n)) /\
  Forall (fun t => Z.of_nat a <= index t) (omap (paired_task_at tl rc) (seq a n)).
Proof.
  revert a. induction n as [|n IH]; intros a; simpl.
  - split; constructor.
  - destruct (IH (S a)) as [Hs Hb].
    assert (Forall (fun t => Z.of_nat a < index t)
              (omap (paired_task_at tl rc) (seq (S a) n))) as Hlt.
    { eapply Forall_impl; [exact Hb|]. simpl. intros t Ht. lia. }
    destruct (paired_task_at tl rc a) as [t|] eqn:Ht; simpl.
    + apply paired_task_at_index in Ht. split.
      * constructor; [exact Hs|]. rewrite Ht.
        apply Forall_fmap. exact Hlt.
      * constructor; [lia|].
        eapply Forall_impl; [exact Hlt|]. simpl. intros; lia.
    + split; [exact Hs|].
      eapply Forall_impl; [exact Hlt|]. simpl. intros; lia.
Qed.

Lemma created_sorted tl rc :
  StronglySorted Z.lt (index <$> _create_paired_tasks tl rc).
Proof. rewrite create_paired_tasks_omap. apply omap_seq_sorted. Qed.

Lemma sorted_lt_NoDup (l : list Z) : StronglySorted Z.lt l -> NoDup l.
Proof.
  induction 1 as [|x l Hs IH Hall]; constructor; [|exact IH].
  intros Hin. rewrite Forall_forall in Hall. specialize (Hall _ Hin). lia.
Qed.

(** C6: the builder yields strictly increasing indices below the longer
    input's length, no index twice; the item of index [i] carries the
    target and the annotation of position [i] (the empty string past the
    end of a list) without their leading and trailing white space; there
    is an item of index [i] exactly when the target at [i] has something
    other than white space in it, that is, when its trimmed form is not
    empty, so a blank target leaves an index gap;
    the targets ["", "b"] with the annotations ["x", "y"] give the one item
    (1, "b", "y"), and empty inputs give nothing. *)
Theorem create_paired_tasks_pairing (tl rc : list string) :
  let tasks := _create_paired_tasks tl rc in
  let n := Nat.max (length tl) (length rc) in
  StronglySorted Z.lt (index <$> tasks) /\
  (forall t, t ∈ tasks -> 0 <= index t < Z.of_nat n) /\
  NoDup (index <$> tasks) /\
  (forall t, t ∈ tasks ->
     exists i : nat,
       index t = Z.of_nat i /\
       original_tweet_index t = Z.of_nat i /\
       original_comment_index t = Z.of_nat i /\
       trimmed_of (default EmptyString (tl !! i)) (tweet_url t) /\
       trimmed_of (default EmptyString (rc !! i)) (comment t) /\
       tweet_url t <> EmptyString) /\
  (forall i : nat,
     (exists t, t ∈ tasks /\ index t = Z.of_nat i) <->
     (exists s, tl !! i = Some s /\ ~ blank s)) /\
  (forall i : nat,
     (exists t, t ∈ tasks /\ index t = Z.of_nat i) <->
     (exists u,
        trimmed_of (default EmptyString (tl !! i)) u /\ u <> EmptyString)) /\
  (forall i s, tl !! i = Some s -> blank s ->
     forall t, t ∈ tasks -> index t <> Z.of_nat i) /\
  _create_paired_tasks [""; "b"]%string ["x"; "y"]%string =
    [mkPairedTask 1 "b" "y" 1 1] /\
  _create_paired_tasks [] [] = [].
Proof.
  intros tasks n. subst tasks n.
  split; [apply created_sorted|].
  split.
  { intros t (i & Hi & Ht)%elem_of_created.
    apply paired_task_at_index in Ht. lia. }
  split; [apply sorted_lt_NoDup, created_sorted|].
  assert (forall i : nat,
            (exists t, t ∈ _create_paired_tasks tl rc /\ index t = Z.of_nat i) <->
            (exists s, tl !! i = Some s /\ ~ blank s)) as Hiff.
  { intros i. rewrite <- get_or_empty_blank, <- strip_empty_iff_blank. split.
    - intros (t & (j & Hj & Ht)%elem_of_created & Hidx).
      pose proof (paired_task_at_index _ _ _ _ Ht) as Hidx'.
      assert (j = i) as -> by lia.
      unfold paired_task_at in Ht.
      destruct (truthy _) eqn:Htr; [|discriminate].
      by apply truthy_true.
    - intros Hne.
      assert (i < Nat.max (length tl) (length rc))%nat as Hi.
      { destruct (decide (i < length tl)%nat) as [|Hge]; [lia|].
        exfalso. apply Hne. unfold get_or_empty.
        rewrite lookup_ge_None_2 by lia. reflexivity. }
      apply truthy_true in Hne.
      eexists. split.
      + apply elem_of_created. exists i. split; [exact Hi|].
        unfold paired_task_at. rewrite Hne. reflexivity.
      + reflexivity. }
  split.
  { intros t (i & Hi & Ht)%elem_of_created. exists i.
    unfold paired_task_at in Ht.
    destruct (truthy _) eqn:Htr; [|discriminate]. injection Ht as <-. simpl.
    split; [done|]. split; [done|]. split; [done|].
    split; [apply strip_trimmed_of|]. split; [apply strip_trimmed_of|].
    by apply truthy_true. }
  split; [exact Hiff|].
  split; [intros i; by rewrite <- trimmed_target_nonempty|].
  split; [|split; reflexivity].
  intros i s Hs Hb t Ht Hidx.
  destruct (proj1 (Hiff i)) as (s' & Hs' & Hnb); [by exists t|].
  rewrite Hs in Hs'. injection Hs' as <-. done.
Qed.

(* ===================================================================== *)
(** * Python sets *)
(* ===================================================================== *)

Lemma elem_of_set_add s x y : y ∈ set_add s x <-> y ∈ s \/ y = x.
Proof.
  unfold set_add. destruct (decide (x ∈ s)) as [Hin|Hnin].
  - split; [tauto|]. intros [?| ->]; done.
  - rewrite elem_of_app, list_elem_of_singleton. tauto.
Qed.

Lemma members_set_add s x : members (set_add s x) = members s ∪ {[x]}.
Proof.
  apply set_eq. intros y. unfold members.
  rewrite elem_of_union, !elem_of_list_to_set, elem_of_singleton.
  apply elem_of_set_add.
Qed.

Lemma set_add_NoDup s x : NoDup s -> NoDup (set_add s x).
Proof.
  intros Hs. unfold set_add. destruct (decide (x ∈ s)); [done|].
  apply NoDup_app. split; [done|]. split; [|apply NoDup_singleton].
  intros y Hy ->%list_elem_of_singleton. done.
Qed.

Lemma fold_set_add_NoDup acc l :
  NoDup (acc ++ l) -> foldl set_add acc l = acc ++ l.
Proof.
  revert acc. induction l as [|x l IH]; intros acc Hnd; simpl.
  - by rewrite app_nil_r.
  - assert (x ∉ acc) as Hx.
    { apply NoDup_app in Hnd as (_ & Hdisj & _). intros Hin.
      apply (Hdisj _ Hin). by left. }
    unfold set_add at 2. rewrite decide_False by done.
    rewrite IH; rewrite <- app_assoc; done.
Qed.

(** Rebuilding a set from a list without repetitions keeps the elements
    in the order of the list. *)
Lemma set_of_list_NoDup l : NoDup l -> set_of_list l = l.
Proof. intros Hl. unfold set_of_list. by rewrite fold_set_add_NoDup. Qed.

Lemma set_to_list_perm {order : PySetOrder} s : set_to_list s ≡ₚ s.
Proof. apply iter_order_perm. Qed.

Lemma set_to_list_NoDup {order : PySetOrder} s :
  NoDup s -> NoDup (set_to_list s).
Proof. intros Hs. by rewrite set_to_list_perm. Qed.

Lemma set_len_perm s s' : s ≡ₚ s' -> set_len s = set_len s'.
Proof. intros H. unfold set_len. by rewrite H. Qed.

(* ===================================================================== *)
(** * The progress ledger *)
(* ===================================================================== *)

Lemma mark_processed now st i b :
  members (processed_tasks (mark_task_processed now st i b)) =
  members (processed_tasks st) ∪ {[i]}.
Proof. simpl. apply members_set_add. Qed.

Lemma mark_successful now st i b :
  members (successful_tasks (mark_task_processed now st i b)) =
  members (successful_tasks st) ∪ (if b then {[i]} else ∅).
Proof.
  simpl. destruct b; [apply members_set_add|]. by rewrite union_empty_r_L.
Qed.

Lemma mark_failed now st i b :
  members (failed_tasks (mark_task_processed now st i b)) =
  members (failed_tasks st) ∪ (if b then ∅ else {[i]}).
Proof.
  simpl. destruct b; [|apply members_set_add]. by rewrite union_empty_r_L.
Qed.

Lemma marked_cons b now i b' calls :
  marked b ((now, i, b') :: calls) =
  (if decide (b' = b) then {[i]} else ∅) ∪ marked b calls.
Proof.
  unfold marked. rewrite filter_cons. simpl.
  destruct (decide (b' = b)); simpl; [done|]. by rewrite union_empty_l_L.
Qed.

Lemma mark_all_sets st calls :
  members (processed_tasks (mark_all st calls)) =
    members (processed_tasks st) ∪ (marked true calls ∪ marked false calls) /\
  members (successful_tasks (mark_all st calls)) =
    members (successful_tasks st) ∪ marked true calls /\
  members (failed_tasks (mark_all st calls)) =
    members (failed_tasks st) ∪ marked false calls.
Proof.
  revert st. induction calls as [|[[now i] b] calls IH]; intros st.
  - unfold marked; simpl. rewrite !union_empty_r_L. done.
  - unfold mark_all in *. simpl foldl.
    destruct (IH (mark_task_processed now st i b)) as (Hp & Hs & Hf).
    rewrite Hp, Hs, Hf, mark_processed, mark_successful, mark_failed.
    rewrite !marked_cons. clear IH Hp Hs Hf.
    destruct b; simpl; repeat split; apply set_eq; intros x;
      rewrite ?elem_of_union, ?elem_of_singleton, ?elem_of_empty; tauto.
Qed.

Lemma init_sets_wf now id profile tl rc acts mn mx retries :
  sets_wf (AutomationState_init now id profile tl rc acts mn mx retries).
Proof. repeat split; constructor. Qed.

Lemma mark_sets_wf now st i b :
  sets_wf st -> sets_wf (mark_task_processed now st i b).
Proof.
  intros (Hp & Hs & Hf). unfold sets_wf. simpl.
  split; [by apply set_add_NoDup|].
  destruct b; (split; [try done; by apply set_add_NoDup|]);
    try done; by apply set_add_NoDup.
Qed.

(** Every ledger the program builds keeps its sets free of repetitions. *)
Lemma mark_all_sets_wf st calls : sets_wf st -> sets_wf (mark_all st calls).
Proof.
  revert st. induction calls as [|[[now i] b] calls IH]; intros st Hwf; [done|].
  apply IH. by apply mark_sets_wf.
Qed.

(** C2, as the code has it: over any sequence of [mark] calls the three
    sets only grow.  [processed] gains every marked index, [successful]
    those marked with success and [failed] those marked with failure;
    nothing is ever taken out, so the overlap of [successful] and [failed]
    is what the two grown sets share: every index that ended up on both
    sides. *)
Theorem mark_all_grows (st : AutomationState)
    (calls : list (string * Z * bool)) :
  let st' := mark_all st calls in
  members (processed_tasks st) ⊆ members (processed_tasks st') /\
  members (successful_tasks st) ⊆ members (successful_tasks st') /\
  members (failed_tasks st) ⊆ members (failed_tasks st') /\
  members (processed_tasks st') =
    members (processed_tasks st) ∪ (marked true calls ∪ marked false calls) /\
  members (successful_tasks st') =
    members (successful_tasks st) ∪ marked true calls /\
  members (failed_tasks st') =
    members (failed_tasks st) ∪ marked false calls /\
  members (successful_tasks st') ∩ members (failed_tasks st') =
    (members (successful_tasks st) ∪ marked true calls) ∩
    (members (failed_tasks st) ∪ marked false calls).
Proof.
  intros st'. subst st'.
  destruct (mark_all_sets st calls) as (Hp & Hs & Hf).
  rewrite Hp, Hs, Hf. clear Hp Hs Hf.
  repeat split; try apply union_subseteq_l.
Qed.

(** C2 fails as stated: marking index 0 as a success and then as a failure
    leaves 0 in [successful] and puts it in [failed] as well. *)
Lemma mark_opposite_outcome_overlap :
  let st0 :=
    AutomationState_init "t0" "job" "profile" ["a"] ["x"] [("like", true)]
      5 15 3 in
  let st := mark_all st0
              [("t1", 0, true); ("t2", 0, false)] in
  0 ∈ successful_tasks st /\
  members (successful_tasks st) ∩ members (failed_tasks st) <> ∅.
Proof.
  simpl. split.
  - vm_compute. set_solver.
  - vm_compute. set_solver.
Qed.

(* ===================================================================== *)
(** * Remaining tasks *)
(* ===================================================================== *)

Lemma remaining_positions_from (P : list Z) (k : nat) (l : list PairedTask) :
  (forall (i : nat) t, l !! i = Some t -> index t = Z.of_nat (k + i)) ->
  snd <$> filter (fun it => Z.of_nat (fst it) ∉ P)
                 (imap (fun i t => ((k + i)%nat, t)) l) =
  filter (fun t => index t ∉ P) l.
Proof.
  revert k. induction l as [|t l IH]; intros k Hidx; [done|].
  rewrite imap_cons.
  rewrite (imap_ext _ (fun i t => ((S k + i)%nat, t)) l)
    by (intros; simpl; f_equal; lia).
  rewrite !filter_cons. cbn [fst].
  rewrite (Hidx 0%nat t eq_refl), Nat.add_0_r.
  assert (snd <$> filter (fun it => Z.of_nat (fst it) ∉ P)
                    (imap (fun i t => ((S k + i)%nat, t)) l) =
          filter (fun t => index t ∉ P) l) as Hrest.
  { apply IH. intros i x Hx. rewrite (Hidx (S i) x Hx). f_equal. lia. }
  destruct (decide (Z.of_nat k ∉ P)); rewrite ?fmap_cons; cbn [snd];
    by rewrite Hrest.
Qed.

Lemma contiguous_lookup items (i : nat) t :
  contiguous items -> items !! i = Some t -> index t = Z.of_nat i.
Proof.
  intros Hc Ht.
  assert ((index <$> items) !! i = Some (index t)) as H1
    by (by rewrite list_lookup_fmap, Ht).
  rewrite Hc, list_lookup_fmap in H1.
  apply lookup_lt_Some in Ht.
  rewrite lookup_seq_lt in H1 by done. simpl in H1. congruence.
Qed.

(** On a task list without index gaps the position filter of
    [get_remaining_tasks] selects by stored index. *)
Lemma get_remaining_tasks_contiguous (st : AutomationState) :
  contiguous (paired_tasks st) ->
  get_remaining_tasks st =
  remaining_by_index (processed_tasks st) (paired_tasks st).
Proof.
  intros Hc. unfold get_remaining_tasks, remaining_by_index, enumerate.
  apply (remaining_positions_from (processed_tasks st) 0 (paired_tasks st)).
  intros i t Ht. simpl. by apply contiguous_lookup with (items := paired_tasks st).
Qed.

(** Without index gaps, the returned items and the items whose index is in
    [processed] split the task list, and no item is on both sides. *)
Lemma get_remaining_tasks_partition (st : AutomationState) :
  contiguous (paired_tasks st) ->
  get_remaining_tasks st ++
    processed_by_index (processed_tasks st) (paired_tasks st)
    ≡ₚ paired_tasks st /\
  (forall t, t ∈ get_remaining_tasks st ->
             t ∉ processed_by_index (processed_tasks st) (paired_tasks st)).
Proof.
  intros Hc. rewrite get_remaining_tasks_contiguous by done.
  unfold remaining_by_index, processed_by_index. split.
  - rewrite Permutation_app_comm. apply filter_app_complement.
  - intros t [Hn _]%list_elem_of_filter [Hy _]%list_elem_of_filter. done.
Qed.

(** C1 at a task list with an index gap: the targets ["", "b"] give the
    single task of index 1; once the worker has marked index 1 as
    processed, [get_remaining_tasks] still returns that task (its position
    0 is not in [processed]), while the items whose index is not in
    [processed] are none: the one task is returned as remaining and is
    among the processed ones. *)
Theorem get_remaining_tasks_index_gap :
  let st0 :=
    AutomationState_init "t0" "job" "profile" [""; "b"] ["x"; "y"]
      [("like", true)] 5 15 3 in
  let task_b := mkPairedTask 1 "b" "y" 1 1 in
  let st := mark_task_processed "t1" st0 (index task_b) true in
  paired_tasks st = [task_b] /\
  processed_tasks st = [1] /\
  get_remaining_tasks st = [task_b] /\
  remaining_by_index (processed_tasks st) (paired_tasks st) = [] /\
  processed_by_index (processed_tasks st) (paired_tasks st) = [task_b].
Proof. repeat split; vm_compute; reflexivity. Qed.

(* ===================================================================== *)
(** * Persistence: save, then load *)
(* ===================================================================== *)

Lemma load_state_saved {order : PySetOrder} now st fs :
  load_state now (save_state st fs) (task_id st) =
  Some (restore now (state_data_of st)).
Proof.
  unfold load_state, save_state. cbv zeta. by rewrite lookup_insert_eq.
Qed.

(** C4, as the code has it: after a save, loading the job id gives back the
    stored work items untouched, the same policy, cursor and stamps, and
    the three index sets with the same members; the input lists are read
    off the stored items.  Saving the loaded job again gives the same
    snapshot except that the index arrays may list their entries in another
    order. *)
Theorem load_save_roundtrip {order : PySetOrder} (now : string)
    (st : AutomationState) (fs : gmap string file) :
  sets_wf st ->
  exists st',
    load_state now (save_state st fs) (task_id st) = Some st' /\
    task_id st' = task_id st /\
    profile_name st' = profile_name st /\
    paired_tasks st' = paired_tasks st /\
    tweet_links st' = (tweet_url <$> paired_tasks st) /\
    reply_comments st' = (comment <$> paired_tasks st) /\
    actions st' = actions st /\
    min_wait st' = min_wait st /\
    max_wait st' = max_wait st /\
    max_retries st' = max_retries st /\
    members (processed_tasks st') = members (processed_tasks st) /\
    members (successful_tasks st') = members (successful_tasks st) /\
    members (failed_tasks st') = members (failed_tasks st) /\
    current_index st' = current_index st /\
    start_time st' = start_time st /\
    last_updated st' = last_updated st /\
    same_up_to_index_order (state_data_of st') (state_data_of st).
Proof.
  intros (Hp & Hs & Hf).
  exists (restore now (state_data_of st)).
  split; [apply load_state_saved|].
  assert (forall s, NoDup s ->
            set_of_list (set_to_list s) ≡ₚ s /\
            set_to_list (set_of_list (set_to_list s)) ≡ₚ set_to_list s) as Hset.
  { intros s Hnd. rewrite set_of_list_NoDup by by apply set_to_list_NoDup.
    split; [apply set_to_list_perm|].
    apply (set_to_list_perm (set_to_list s)). }
  destruct (Hset _ Hp) as [Pp Pp'].
  destruct (Hset _ Hs) as [Ps Ps'].
  destruct (Hset _ Hf) as [Pf Pf'].
  repeat split; try reflexivity; simpl;
    try (unfold members; apply list_to_set_perm_L; assumption);
    try assumption.
  unfold get_progress_stats. simpl.
  by rewrite (set_len_perm _ _ Pp), (set_len_perm _ _ Ps),
             (set_len_perm _ _ Pf).
Qed.

(** The round trip on a fresh job with two marked items. *)
Lemma load_save_roundtrip_witness :
  let st :=
    mark_all
      (AutomationState_init "t0" "job" "profile" ["a"; "b"; "c"] ["x"; "y"]
         [("like", true)] 5 15 3)
      [("t1", 2, true); ("t2", 0, false)] in
  sets_wf st /\
  exists st',
    load_state "t3" (save_state (order := insertion_order) st ∅) (task_id st)
      = Some st' /\
    same_up_to_index_order (state_data_of (order := insertion_order) st')
      (state_data_of (order := insertion_order) st).
Proof.
  intros st.
  assert (sets_wf st) as Hwf.
  { repeat split; apply (bool_decide_unpack _); vm_compute; exact I. }
  split; [exact Hwf|].
  destruct (load_save_roundtrip (order := insertion_order) "t3" st ∅ Hwf)
    as (st' & Hload & H).
  exists st'. split; [exact Hload|]. apply H.
Defined.

(** C4 fails as stated when a rebuilt set iterates in another order, as in
    CPython 3.11 on this input: with indices 7 and 15 marked in that order
    the snapshot lists [15, 7]; the set rebuilt from that array on load
    lists [7, 15], so saving the loaded job writes a different file. *)
Lemma resave_reorders_index_arrays :
  let st :=
    mark_all
      (AutomationState_init "t0" "job" "profile" (replicate 16 "u"%string) []
         [("like", true)] 5 15 3)
      [("t1", 7, true); ("t2", 15, true)] in
  exists st',
    load_state "t3" (save_state (order := reversing_order) st ∅) (task_id st)
      = Some st' /\
    sd_processed_tasks (state_data_of (order := reversing_order) st) = [15; 7] /\
    sd_processed_tasks (state_data_of (order := reversing_order) st') = [7; 15] /\
    save_state (order := reversing_order) st' ∅ <>
    save_state (order := reversing_order) st ∅.
Proof.
  intros st. eexists. split; [apply load_state_saved|].
  split; [vm_compute; reflexivity|].
  split; [vm_compute; reflexivity|].
  intros Heq.
  apply (f_equal (fun fs => match fs !! state_file "job" with
                            | Some (StateFile d) => sd_processed_tasks d
                            | _ => []
                            end)) in Heq.
  vm_compute in Heq. discriminate.
Qed.

(* ===================================================================== *)
(** * Job identifiers *)
(* ===================================================================== *)

Lemma automation_id_eq clock1 clock2 :
  automation_id clock1 = automation_id clock2 <->
  py_int clock1 = py_int clock2.
Proof.
  unfold automation_id. split.
  - simpl. intros H. injection H as H. by apply (inj pretty).
  - by intros ->.
Qed.

Lemma save_state_overwrites {order : PySetOrder} st1 st2 fs :
  task_id st1 = task_id st2 ->
  save_state st2 (save_state st1 fs) = save_state st2 fs.
Proof.
  intros Hid. unfold save_state. cbv zeta. rewrite Hid.
  apply insert_insert_eq.
Qed.

(** C10: the returned id is ["automation_"] followed by the whole second of
    the clock.  Two starts that read the same whole second get the same id;
    after the second start the task record and the registered state under
    that id are the second job's.  Both jobs save to the one file named
    after the id: a save of the first job puts the first job's snapshot
    there, a later save of the second job leaves the second job's snapshot
    there and the first's nowhere, no other file being written, and what
    is loaded under the id from then on is the second job. *)
Theorem same_second_same_job_id {order : PySetOrder} (now1 now2 : string)
    (clock1 clock2 : Q)
    (profile1 profile2 : string) (links1 links2 comments1 comments2 : list string)
    (actions1 actions2 : list (string * bool))
    (min1 max1 retries1 min2 max2 retries2 : Z) (w : World) :
  py_int clock1 = py_int clock2 ->
  let start1 :=
    run_automation_async now1 clock1 profile1 links1 comments1 actions1
      min1 max1 retries1 w in
  let start2 :=
    run_automation_async now2 clock2 profile2 links2 comments2 actions2
      min2 max2 retries2 (snd start1) in
  let state1 :=
    AutomationState_init now1 (fst start1) profile1 links1 comments1 actions1
      min1 max1 retries1 in
  let state2 :=
    AutomationState_init now2 (fst start2) profile2 links2 comments2 actions2
      min2 max2 retries2 in
  fst start1 = ("automation_" +:+ pretty (py_int clock1))%string /\
  fst start2 = fst start1 /\
  automation_states (snd start1) !! fst start1 = Some state1 /\
  task_status (snd start1) !! fst start1 =
    Some (initial_task_data now1 state1 actions1) /\
  automation_states (snd start2) !! fst start1 = Some state2 /\
  task_status (snd start2) !! fst start1 =
    Some (initial_task_data now2 state2 actions2) /\
  state_file (task_id state2) = state_file (task_id state1) /\
  (forall fs,
     let path := state_file (fst start1) in
     let fs1 := save_state state1 fs in
     let fs2 := save_state state2 fs1 in
     fs1 !! path = Some (StateFile (state_data_of state1)) /\
     fs2 !! path = Some (StateFile (state_data_of state2)) /\
     (forall other, other <> path ->
        fs1 !! other = fs !! other /\ fs2 !! other = fs !! other) /\
     (forall now,
        load_state now fs1 (fst start1) =
          Some (restore now (state_data_of state1)) /\
        load_state now fs2 (fst start1) =
          Some (restore now (state_data_of state2))) /\
     fs2 = save_state state2 fs).
Proof.
  intros Hsec start1 start2 state1 state2.
  assert (fst start2 = fst start1) as Hid.
  { simpl. unfold automation_id. by rewrite Hsec. }
  split; [reflexivity|]. split; [exact Hid|].
  split; [simpl; apply lookup_insert_eq|].
  split; [simpl; apply lookup_insert_eq|].
  split; [rewrite <- Hid; simpl; apply lookup_insert_eq|].
  split; [rewrite <- Hid; simpl; apply lookup_insert_eq|].
  assert (task_id state2 = task_id state1) as Htid by exact Hid.
  split; [by rewrite Htid|].
  intros fs path fs1 fs2.
  assert (state_file (task_id state1) = path) as Hp1 by reflexivity.
  assert (state_file (task_id state2) = path) as Hp2 by (by rewrite Htid).
  assert (fs1 !! path = Some (StateFile (state_data_of state1))) as Hfs1.
  { subst fs1. unfold save_state. cbv zeta. rewrite Hp1.
    apply lookup_insert_eq. }
  assert (fs2 !! path = Some (StateFile (state_data_of state2))) as Hfs2.
  { subst fs2. unfold save_state at 1. cbv zeta. rewrite Hp2.
    apply lookup_insert_eq. }
  split; [exact Hfs1|]. split; [exact Hfs2|]. split.
  { intros other Hne.
    assert (fs1 !! other = fs !! other) as H1.
    { subst fs1. unfold save_state. cbv zeta. rewrite Hp1.
      by apply lookup_insert_ne. }
    split; [exact H1|]. rewrite <- H1.
    subst fs2. unfold save_state at 1. cbv zeta. rewrite Hp2.
    by apply lookup_insert_ne. }
  split.
  { intros now. unfold load_state. fold path. by rewrite Hfs1, Hfs2. }
  by apply save_state_overwrites.
Qed.

(** Two different requests arriving at 100.2 s and 100.7 s. *)
Lemma same_second_same_job_id_witness :
  let w0 := mkWorld ∅ ∅ ∅ ∅ in
  let start1 :=
    run_automation_async "t1" (1002 # 10) "alice" ["a"] ["x"]
      [("like", true)] 5 15 3 w0 in
  let start2 :=
    run_automation_async "t2" (1007 # 10) "bob" ["b"; "c"] ["y"]
      [("reply", true)] 1 2 3 (snd start1) in
  let state1 :=
    AutomationState_init "t1" (fst start1) "alice" ["a"] ["x"]
      [("like", true)] 5 15 3 in
  let state2 :=
    AutomationState_init "t2" (fst start2) "bob" ["b"; "c"] ["y"]
      [("reply", true)] 1 2 3 in
  let fs1 := save_state (order := insertion_order) state1 ∅ in
  let fs2 := save_state (order := insertion_order) state2 fs1 in
  py_int (1002 # 10) = py_int (1007 # 10) /\
  fst start1 = "automation_100"%string /\
  fst start2 = fst start1 /\
  (total <$> task_status (snd start1) !! fst start1) = Some 1 /\
  (total <$> task_status (snd start2) !! fst start1) = Some 2 /\
  (profile_name <$> load_state "t3" fs1 "automation_100") =
    Some "alice"%string /\
  (profile_name <$> load_state "t3" fs2 "automation_100") =
    Some "bob"%string.
Proof.
  intros w0 start1 start2 state1 state2 fs1 fs2.
  assert (py_int (1002 # 10) = py_int (1007 # 10)) as Hsec by reflexivity.
  pose proof (same_second_same_job_id (order := insertion_order)
                "t1" "t2" (1002 # 10) (1007 # 10)
                "alice" "bob" ["a"] ["b"; "c"] ["x"] ["y"]
                [("like", true)] [("reply", true)] 5 15 3 1 2 3 w0 Hsec)
    as (Hid1 & Hid2 & _ & Hrec1 & _ & Hrec2 & _ & Hfiles).
  split; [exact Hsec|].
  split; [exact Hid1|].
  split; [exact Hid2|].
  split; [fold start1 in Hrec1; rewrite Hrec1; reflexivity|].
  split; [fold start1 start2 in Hrec2; rewrite Hrec2; reflexivity|].
  destruct (Hfiles ∅) as (_ & _ & _ & Hload & _).
  destruct (Hload "t3"%string) as [Hl1 Hl2].
  split.
  - change (load_state "t3" fs1 "automation_100")
      with (load_state "t3" fs1 (fst start1)).
    subst fs1 state1. fold start1 in Hl1. rewrite Hl1. reflexivity.
  - change (load_state "t3" fs2 "automation_100")
      with (load_state "t3" fs2 (fst start1)).
    subst fs2 fs1 state1 state2. fold start1 start2 in Hl2. rewrite Hl2.
    reflexivity.
Defined.

(* ===================================================================== *)
(** * Starting a job *)
(* ===================================================================== *)

(** C8, as the code has it: a request without profile name, with an empty
    target list or with no enabled action is answered by a validation error
    and the process state is left as it was.  Every other request starts a
    job that carries the waits and retry count exactly as given (or their
    defaults 5, 15, 3), whatever the order of the two waits. *)
Theorem start_automation_validation (now : string) (clock : Q)
    (data : AutomateRequest) (w : World) :
  let r := start_automation now clock data w in
  let job :=
    AutomationState_init now (automation_id clock)
      (default EmptyString (req_profile_name data))
      (req_tweet_links data) (req_reply_comments data) (req_actions data)
      (default 5 (req_min_wait data)) (default 15 (req_max_wait data))
      (default 3 (req_max_retries data)) in
  (refused_input data /\ ValidationError (fst r) /\ snd r = w) \/
  (~ refused_input data /\
   fst r = Started (automation_id clock) /\
   automation_states (snd r) !! automation_id clock = Some job /\
   status_of (automation_id clock) (snd r) = Some Running /\
   automation_id clock ∈ active_threads (snd r)).
Proof.
  intros r job. subst r job. unfold start_automation, refused_input.
  destruct (missing (req_profile_name data)) eqn:Hp.
  { left. simpl. split; [by left|]. split; [by eexists|done]. }
  destruct (decide (req_tweet_links data = [])) as [Hl|Hl].
  { left. rewrite bool_decide_eq_true_2 by done. simpl.
    split; [by right; left|]. split; [by eexists|done]. }
  rewrite bool_decide_eq_false_2 by done.
  destruct (any_enabled (req_actions data)) eqn:Ha.
  2:{ left. simpl. split; [by right; right|]. split; [by eexists|done]. }
  right. simpl. split.
  - intros [?|[?|?]]; congruence.
  - split; [done|]. split; [apply lookup_insert_eq|]. split.
    + unfold status_of. simpl. by rewrite lookup_insert_eq.
    + set_solver.
Qed.

(** C8 fails as stated for the waits: a request with [min_wait = 10] and
    [max_wait = 5] is not refused; the job is created with these values. *)
Lemma start_automation_inverted_waits :
  let data :=
    {| req_profile_name := Some "alice"%string;
       req_tweet_links := ["a"%string];
       req_reply_comments := ["x"%string];
       req_actions := [("like"%string, true)];
       req_min_wait := Some 10;
       req_max_wait := Some 5;
       req_max_retries := None |} in
  let r := start_automation "t0" (100 # 1) data (mkWorld ∅ ∅ ∅ ∅) in
  default 5 (req_min_wait data) > default 15 (req_max_wait data) /\
  ~ ValidationError (fst r) /\
  fst r = Started "automation_100" /\
  (min_wait <$> automation_states (snd r) !! "automation_100"%string) = Some 10 /\
  (max_wait <$> automation_states (snd r) !! "automation_100"%string) = Some 5.
Proof.
  intros data r.
  split; [reflexivity|].
  split; [intros [e He]; vm_compute in He; discriminate|].
  split; [reflexivity|].
  split; vm_compute; reflexivity.
Qed.

(* ===================================================================== *)
(** * Recovery *)
(* ===================================================================== *)

Lemma elem_of_fold_set_add acc l x :
  x ∈ foldl set_add acc l <-> x ∈ acc \/ x ∈ l.
Proof.
  revert acc. induction l as [|y l IH]; intros acc; simpl.
  - rewrite elem_of_nil. tauto.
  - rewrite IH, elem_of_set_add, elem_of_cons. tauto.
Qed.

Lemma elem_of_set_of_list l x : x ∈ set_of_list l <-> x ∈ l.
Proof.
  unfold set_of_list. rewrite elem_of_fold_set_add, elem_of_nil. tauto.
Qed.

Lemma recover_loop_filter (P : list Z) acc (l : list (nat * PairedTask)) :
  foldl (fun acc it =>
           if set_in (Z.of_nat (fst it)) P then acc else acc ++ [snd it])
        acc l =
  acc ++ (snd <$> filter (fun it => Z.of_nat (fst it) ∉ P) l).
Proof.
  revert acc. induction l as [|it l IH]; intros acc; simpl.
  - by rewrite app_nil_r.
  - rewrite IH, filter_cons. unfold set_in.
    destruct (decide (Z.of_nat it.1 ∈ P)) as [Hin|Hnin].
    + rewrite bool_decide_eq_true_2 by done.
      by rewrite decide_False by (intros Hn; by apply Hn).
    + rewrite bool_decide_eq_false_2 by done.
      rewrite decide_True by done. simpl. by rewrite <- app_assoc.
Qed.

(** The loop of [recover_automation] selects what [get_remaining_tasks]
    selects. *)
Lemma recover_remaining_eq state :
  recover_remaining state = get_remaining_tasks state.
Proof. unfold recover_remaining. by rewrite recover_loop_filter. Qed.

Lemma restore_remaining now d :
  contiguous (sd_paired_tasks d) ->
  recover_remaining (restore now d) =
  remaining_by_index (sd_processed_tasks d) (sd_paired_tasks d).
Proof.
  intros Hc. rewrite recover_remaining_eq, get_remaining_tasks_contiguous by done.
  simpl. unfold remaining_by_index. apply list_filter_iff.
  intros t. by rewrite elem_of_set_of_list.
Qed.

Lemma recover_automation_cases now clock id w :
  let r := recover_automation now clock id w in
  (~ has_snapshot id w /\ r = (NotFound, w)) \/
  (exists d, files w !! state_file id = Some (StateFile d) /\
     ((status_of id w = Some Running /\ r = (AlreadyRunning, w)) \/
      (status_of id w <> Some Running /\
       recover_remaining (restore now d) = [] /\
       r = (NothingRemaining, w)) \/
      (status_of id w <> Some Running /\
       recover_remaining (restore now d) <> [] /\
       exists w',
         r = (Recovered (automation_id clock)
                (Z.of_nat (length (recover_remaining (restore now d)))), w')))).
Proof.
  intros r. subst r. unfold recover_automation, load_state, has_snapshot.
  destruct (files w !! state_file id) as [[d| |]|] eqn:Hf;
    try (left; split; [by intros [d' [=]]|done]).
  right. exists d. split; [done|].
  destruct (decide (status_of id w = Some Running)) as [Hr|Hr].
  { left. by rewrite bool_decide_eq_true_2. }
  right. rewrite bool_decide_eq_false_2 by done.
  destruct (recover_remaining (restore now d)) as [|t l] eqn:Hrem.
  - left. done.
  - right. split; [done|]. split; [done|].
    rewrite bool_decide_eq_false_2 by done.
    eexists. rewrite length_fmap. reflexivity.
Qed.

(** C5, as the code has it: the three refusals are tried in order.
    [NotFound] is returned exactly when no snapshot is stored for the id;
    [AlreadyRunning] exactly when one is stored and the task record shows
    [running]; [NothingRemaining], for a stored snapshot without index
    gaps, exactly when the record does not show [running] and no item is
    left unprocessed.  Every refusal leaves the process state as it was. *)
Theorem recover_automation_refusals (now : string)
    (clock : Q) (id : string) (w : World) :
  let r := recover_automation now clock id w in
  (fst r = NotFound <-> ~ has_snapshot id w) /\
  (fst r = AlreadyRunning <->
     has_snapshot id w /\ status_of id w = Some Running) /\
  (forall d,
     files w !! state_file id = Some (StateFile d) ->
     contiguous (sd_paired_tasks d) ->
     (fst r = NothingRemaining <->
        status_of id w <> Some Running /\
        remaining_by_index (sd_processed_tasks d) (sd_paired_tasks d) = [])) /\
  (forall code error, fst r = Failure code error -> snd r = w).
Proof.
  intros r.
  destruct (recover_automation_cases now clock id w)
    as [[Hno Hr]|(d & Hd & [[Hrun Hr]|[(Hrun & Hrem & Hr)|(Hrun & Hrem & w' & Hr)]])];
    fold r in Hr; rewrite Hr; simpl.
  - split; [done|]. split.
    { split; [discriminate|]. by intros [Hs _]. }
    split; [|done].
    intros d Hd _. exfalso. apply Hno. by exists d.
  - assert (has_snapshot id w) as Hs by (by exists d).
    split. { split; [discriminate|]. intros Hn. by destruct (Hn Hs). }
    split; [done|]. split; [|done].
    intros d' _ _. split; [discriminate|]. by intros [Hn _].
  - assert (has_snapshot id w) as Hs by (by exists d).
    split. { split; [discriminate|]. intros Hn. by destruct (Hn Hs). }
    split. { split; [discriminate|]. by intros [_ Hn]. }
    split; [|done].
    intros d' Hd' Hc. assert (d' = d) as -> by congruence.
    split; [|done]. intros _. split; [done|].
    by rewrite <- (restore_remaining now).
  - assert (has_snapshot id w) as Hs by (by exists d).
    split. { split; [discriminate|]. intros Hn. by destruct (Hn Hs). }
    split. { split; [discriminate|]. by intros [_ Hn]. }
    split; [|discriminate].
    intros d' Hd' Hc. assert (d' = d) as -> by congruence.
    split; [discriminate|]. intros [_ Hnone]. exfalso. apply Hrem.
    by rewrite restore_remaining.
Qed.

(** A finished job whose record is gone: recovery finds nothing to do. *)
Lemma recover_automation_refusals_witness :
  let st :=
    mark_task_processed "t1"
      (AutomationState_init "t0" "job" "profile" ["a"] ["x"]
         [("like", true)] 5 15 3) 0 true in
  let w := mkWorld ∅ ∅ ∅ (save_state (order := insertion_order) st ∅) in
  contiguous (paired_tasks st) /\
  fst (recover_automation "t2" (200 # 1) "job" w)
    = NothingRemaining.
Proof.
  intros st w.
  assert (contiguous (paired_tasks st)) as Hc by reflexivity.
  split; [exact Hc|].
  destruct (recover_automation_refusals "t2" (200 # 1) "job" w)
    as (_ & _ & Hnothing & _).
  apply (Hnothing (state_data_of (order := insertion_order) st)).
  - reflexivity.
  - exact Hc.
  - split; [discriminate|reflexivity].
Defined.

(** C5 fails as stated for [NothingRemaining]: with a stored snapshot whose
    items are all processed and a task record that shows [running], the
    answer is [AlreadyRunning]. *)
Lemma recover_running_with_nothing_remaining :
  let st :=
    mark_task_processed "t1"
      (AutomationState_init "t0" "job" "profile" ["a"] ["x"]
         [("like", true)] 5 15 3) 0 true in
  let w :=
    mkWorld ∅ {["job"%string := initial_task_data "t0" st (actions st)]} ∅
      (save_state (order := insertion_order) st ∅) in
  let r := recover_automation "t2" (200 # 1) "job" w in
  has_snapshot "job" w /\
  remaining_by_index (processed_tasks st) (paired_tasks st) = [] /\
  fst r = AlreadyRunning /\
  fst r <> NothingRemaining.
Proof.
  intros st w r.
  split; [by exists (state_data_of (order := insertion_order) st)|].
  split; [reflexivity|].
  assert (fst r = AlreadyRunning) as Hr by (vm_compute; reflexivity).
  split; [exact Hr|]. rewrite Hr. discriminate.
Qed.

(** C3 at a snapshot with an index gap: the targets ["", "b", "c"] give the
    tasks of index 1 and 2; the worker has processed "b" (index 1) and the
    snapshot was saved.  The item left by index is "c", but recovery starts
    the new job on "b": position 0 is not in [processed], position 1 is.
    The processed item is done again and the unprocessed one is lost. *)
Theorem recover_automation_index_gap :
  let st :=
    mark_task_processed "t1"
      (AutomationState_init "t0" "job" "profile" [""; "b"; "c"]
         ["x"; "y"; "z"] [("like", true)] 5 15 3) 1 true in
  let w := mkWorld ∅ ∅ ∅ (save_state (order := insertion_order) st ∅) in
  let r := recover_automation "t2" (200 # 1) "job" w in
  paired_tasks st = [mkPairedTask 1 "b" "y" 1 1; mkPairedTask 2 "c" "z" 2 2] /\
  processed_tasks st = [1] /\
  remaining_by_index (processed_tasks st) (paired_tasks st) =
    [mkPairedTask 2 "c" "z" 2 2] /\
  fst r = Recovered "automation_200" 1 /\
  (paired_tasks <$> automation_states (snd r) !! "automation_200"%string) =
    Some [mkPairedTask 0 "b" "y" 0 0] /\
  files (snd r) !! state_file "job" = None.
Proof.
  intros st w r.
  repeat split; vm_compute; reflexivity.
Qed.

(* ===================================================================== *)
(** * The worker *)
(* ===================================================================== *)

(** C7 at a cancelled run: a job of two items is started, the first item is
    processed, a cancel request lands before the second item is polled.
    The loop sees [cancelled], logs it and breaks; the snapshot is saved;
    then the status is set to [completed]. *)
Theorem worker_cancelled_then_completed :
  let start :=
    run_automation_async "t0" (100 # 1) "alice" ["a"; "b"] ["x"; "y"]
      [("like", true)] 5 15 3 (mkWorld ∅ ∅ ∅ ∅) in
  let state :=
    AutomationState_init "t0" (fst start) "alice" ["a"; "b"] ["x"; "y"]
      [("like", true)] 5 15 3 in
  let env :=
    {| driver_ok := true;
       shuffle := fun tasks => tasks;
       executor := fun _ => true;
       cancel_before := fun i => bool_decide (i = 1%nat);
       draw_wait := fun _ => 5;
       percent := fun a b => a * 100 / b;
       now_at := fun _ => "t1"%string |} in
  let run :=
    automation_worker (order := insertion_order) env (fst start) 5 15 state
      (snd start) in
  automation_states (snd start) !! fst start = Some state /\
  status_of (fst start) (snd start) = Some Running /\
  fst (fst run) = CancelSeen /\
  processed_tasks (snd (fst run)) = [0] /\
  (LogCancelled ∈ default [] (logs <$> task_status (snd run) !! fst start)) /\
  status_of (fst start) (snd run) = Some Completed /\
  files (snd run) !! state_file (fst start) =
    Some (StateFile (state_data_of (order := insertion_order) (snd (fst run)))).
Proof.
  intros start state env run.
  split; [vm_compute; reflexivity|].
  split; [vm_compute; reflexivity|].
  split; [vm_compute; reflexivity|].
  split; [vm_compute; reflexivity|].
  split; [vm_compute; set_solver|].
  split; vm_compute; reflexivity.
Qed.

Lemma state_file_not_task_state id : state_file id <> task_state_file.
Proof. unfold state_file, task_state_file. simpl. discriminate. Qed.

Section WorldFacts.
Context {order : PySetOrder}.
Variable tid : string.


Lemma update_task_status_lookup f w :
  task_status (update_task_status tid f w) !! tid = f <$> task_status w !! tid.
Proof.
  unfold update_task_status.
  destruct (task_status w !! tid) as [r|] eqn:Hr; simpl.
  - by rewrite lookup_insert_eq.
  - by rewrite Hr.
Qed.

Lemma update_task_status_files f w path :
  path <> task_state_file ->
  files (update_task_status tid f w) !! path = files w !! path.
Proof.
  intros Hp. unfold update_task_status.
  destruct (task_status w !! tid); simpl; [|done].
  by rewrite lookup_insert_ne.
Qed.

Lemma update_task_status_present f w :
  has_task_record tid w -> has_task_record tid (update_task_status tid f w).
Proof.
  unfold has_task_record. rewrite update_task_status_lookup.
  intros [r ->]. by eexists.
Qed.

Lemma update_status_of s w :
  has_task_record tid w -> status_of tid (update_task_status tid (with_status s) w) = Some s.
Proof.
  intros [r Hr]. unfold status_of.
  by rewrite update_task_status_lookup, Hr.
Qed.

Lemma append_logs_status_of ls w :
  status_of tid (append_logs tid ls w) = status_of tid w.
Proof.
  unfold status_of, append_logs. rewrite update_task_status_lookup.
  by destruct (task_status w !! tid).
Qed.

Lemma append_logs_present ls w : has_task_record tid w -> has_task_record tid (append_logs tid ls w).
Proof. apply update_task_status_present. Qed.

Lemma append_logs_files ls w path :
  path <> task_state_file ->
  files (append_logs tid ls w) !! path = files w !! path.
Proof. apply update_task_status_files. Qed.

Lemma request_cancel_present w : has_task_record tid w -> has_task_record tid (request_cancel tid w).
Proof.
  intros Hw. unfold request_cancel.
  destruct (task_status w !! tid); [|done].
  by apply append_logs_present, update_task_status_present.
Qed.

Lemma request_cancel_status_of w :
  has_task_record tid w -> status_of tid (request_cancel tid w) = Some Cancelled.
Proof.
  intros Hw. unfold request_cancel. destruct Hw as [r Hr]. rewrite Hr.
  rewrite append_logs_status_of. apply update_status_of. by exists r.
Qed.

Lemma save_state_in_present st w : has_task_record tid w -> has_task_record tid (save_state_in st w).
Proof. done. Qed.

Lemma save_state_in_files st w :
  files (save_state_in st w) !! state_file (task_id st) =
  Some (StateFile (state_data_of st)).
Proof. simpl. unfold save_state. cbv zeta. apply lookup_insert_eq. Qed.
Lemma worker_finally_status_of w :
  status_of tid (worker_finally tid w) = status_of tid w.
Proof. reflexivity. Qed.

Lemma worker_finally_files w : files (worker_finally tid w) = files w.
Proof. reflexivity. Qed.

Lemma save_state_in_status_of st w :
  status_of tid (save_state_in st w) = status_of tid w.
Proof. reflexivity. Qed.
End WorldFacts.

Section WorkerFacts.
Context {order : PySetOrder}.
Variable env : Env.
Variable tid : string.
Variables min_w max_w : Z.

Lemma process_tasks_present count i tasks st w :
  has_task_record tid w ->
  has_task_record tid (snd (process_tasks env tid min_w max_w count i tasks st w)).
Proof.
  revert i st w. induction tasks as [|task rest IH]; intros i st w Hw; [done|].
  simpl.
  set (w1 := if cancel_before env i then request_cancel tid w else w).
  assert (has_task_record tid w1) as Hw1.
  { subst w1. destruct (cancel_before env i); [|done].
    by apply request_cancel_present. }
  destruct (bool_decide (status_of tid w1 = Some Cancelled)).
  { simpl. by apply append_logs_present. }
  match goal with
  | |- context [if ?c then append_logs tid [LogProgressSaved] ?a else ?b] =>
      set (w2 := if c then append_logs tid [LogProgressSaved] a else b)
  end.
  assert (has_task_record tid w2) as Hw2.
  { subst w2.
    destruct (_ =? 0);
      repeat first [apply append_logs_present
                   |apply save_state_in_present
                   |apply update_task_status_present]; exact Hw1. }
  destruct (Z.of_nat i <? Z.of_nat count - 1); [|by apply IH].
  destruct (max_w <? min_w); [exact Hw2|].
  destruct (draw_wait env i <? 0).
  - simpl. by apply append_logs_present.
  - apply IH. by apply append_logs_present.
Qed.

Lemma process_tasks_cancel_seen count i tasks st w :
  has_task_record tid w ->
  fst (fst (process_tasks env tid min_w max_w count i tasks st w)) = CancelSeen ->
  status_of tid (snd (process_tasks env tid min_w max_w count i tasks st w))
    = Some Cancelled.
Proof.
  revert i st w. induction tasks as [|task rest IH]; intros i st w Hw;
    [discriminate|].
  simpl.
  set (w1 := if cancel_before env i then request_cancel tid w else w).
  assert (has_task_record tid w1) as Hw1.
  { subst w1. destruct (cancel_before env i); [|done].
    by apply request_cancel_present. }
  destruct (bool_decide (status_of tid w1 = Some Cancelled)) eqn:Hc.
  { intros _. simpl. rewrite append_logs_status_of.
    by apply bool_decide_eq_true in Hc. }
  match goal with
  | |- context [if ?c then append_logs tid [LogProgressSaved] ?a else ?b] =>
      set (w2 := if c then append_logs tid [LogProgressSaved] a else b)
  end.
  assert (has_task_record tid w2) as Hw2.
  { subst w2.
    destruct (_ =? 0);
      repeat first [apply append_logs_present
                   |apply save_state_in_present
                   |apply update_task_status_present]; exact Hw1. }
  destruct (Z.of_nat i <? Z.of_nat count - 1); [|by apply IH].
  destruct (max_w <? min_w); [discriminate|].
  destruct (draw_wait env i <? 0); [discriminate|].
  apply IH. by apply append_logs_present.
Qed.

Lemma process_tasks_not_NoDriver count i tasks st w :
  fst (fst (process_tasks env tid min_w max_w count i tasks st w)) <> NoDriver.
Proof.
  revert i st w. induction tasks as [|task rest IH]; intros i st w;
    [discriminate|].
  simpl.
  destruct (bool_decide _); [discriminate|].
  destruct (Z.of_nat i <? Z.of_nat count - 1); [|apply IH].
  destruct (max_w <? min_w); [discriminate|].
  destruct (draw_wait env i <? 0); [discriminate|apply IH].
Qed.

(** How a worker run ends, whenever the job's task record exists: the
    status is [error] after a failed driver set-up or an exception, and
    [completed] after the loop ran out of items and also after it was left
    on a cancellation; in the last three cases the snapshot of the final
    ledger is on disk. *)
Lemma worker_ends_completed (state : AutomationState) (w : World) :
  has_task_record tid w ->
  let run := automation_worker env tid min_w max_w state w in
  let state' := snd (fst run) in
  match fst (fst run) with
  | NoDriver => status_of tid (snd run) = Some Error
  | Raised =>
      status_of tid (snd run) = Some Error /\
      files (snd run) !! state_file (task_id state') =
        Some (StateFile (state_data_of state'))
  | Exhausted | CancelSeen =>
      status_of tid (snd run) = Some Completed /\
      files (snd run) !! state_file (task_id state') =
        Some (StateFile (state_data_of state'))
  end.
Proof.
  intros Hw run state'. subst state' run. unfold automation_worker.
  set (w0 := append_logs tid [LogStrategy] _).
  assert (has_task_record tid w0) as Hw0.
  { subst w0. by repeat apply append_logs_present. }
  destruct (driver_ok env); cbn [negb fst snd].
  2:{ rewrite worker_finally_status_of, append_logs_status_of.
      by apply update_status_of. }
  set (tasks := shuffle env (get_remaining_tasks state)).
  set (w1 := append_logs tid [LogRandomized _] _).
  assert (has_task_record tid w1) as Hw1.
  { subst w1. by repeat apply append_logs_present. }
  pose proof (process_tasks_present (length tasks) 0 tasks state w1 Hw1) as Hp.
  destruct (process_tasks env tid min_w max_w (length tasks) 0 tasks state w1)
    as [[exit st'] w'] eqn:Hrun.
  cbn [snd] in Hp.
  assert (status_of tid
            (worker_finally tid
               (append_logs tid [LogCompleted (get_progress_stats st')]
                  (update_task_status tid (with_status Completed)
                     (save_state_in st' w')))) = Some Completed /\
          files
            (worker_finally tid
               (append_logs tid [LogCompleted (get_progress_stats st')]
                  (update_task_status tid (with_status Completed)
                     (save_state_in st' w')))) !! state_file (task_id st') =
          Some (StateFile (state_data_of st'))) as Hdone.
  { split.
    - rewrite worker_finally_status_of, append_logs_status_of.
      by apply update_status_of.
    - rewrite worker_finally_files, append_logs_files, update_task_status_files
        by apply state_file_not_task_state.
      apply save_state_in_files. }
  pose proof (process_tasks_not_NoDriver (length tasks) 0 tasks state w1) as Hnd.
  rewrite Hrun in Hnd.
  destruct exit; cbn [fst snd]; try exact Hdone; [done|].
  split.
  - rewrite worker_finally_status_of, save_state_in_status_of,
      append_logs_status_of.
    by apply update_status_of.
  - rewrite worker_finally_files. apply save_state_in_files.
Qed.
End WorkerFacts.

(* ===================================================================== *)
(** * Recovery of a snapshot without index gaps *)
(* ===================================================================== *)

Lemma rstrip_idemp s : rstrip (rstrip s) = rstrip s.
Proof.
  induction s as [|c s IH]; [done|]. simpl.
  destruct (rstrip s) as [|b r] eqn:Hr.
  - destruct (py_isspace c) eqn:Hc; [done|]. simpl. by rewrite Hc.
  - change (rstrip (String c (String b r)))
      with (match rstrip (String b r) with
            | EmptyString =>
                if py_isspace c then EmptyString else String c EmptyString
            | r' => String c r'
            end).
    by rewrite IH.
Qed.

Lemma strip_idemp s : strip (strip s) = strip s.
Proof.
  unfold strip at 1 3.
  destruct (strip s) as [|c r] eqn:Hs; [done|].
  pose proof (proj1 (strip_no_surrounding_space s) c r Hs) as Hc.
  simpl lstrip. rewrite Hc, <- Hs. apply rstrip_idemp.
Qed.

(** What the builder produces is [stored_trimmed]. *)
Lemma created_stored_trimmed tl rc :
  Forall stored_trimmed (_create_paired_tasks tl rc).
Proof.
  apply Forall_forall. intros t (i & _ & Ht)%elem_of_created.
  unfold paired_task_at in Ht.
  destruct (truthy (strip (get_or_empty tl i))) eqn:Htr; [|discriminate].
  injection Ht as <-. unfold stored_trimmed. simpl.
  split; [apply strip_idemp|]. split; [by apply truthy_true|apply strip_idemp].
Qed.

Lemma omap_seq_imap {A B} (f : nat -> option B) (g : nat -> A -> B)
    (l : list A) (k : nat) :
  (forall (i : nat) x, l !! i = Some x -> f (k + i)%nat = Some (g (k + i)%nat x)) ->
  omap f (seq k (length l)) = imap (fun i => g (k + i)%nat) l.
Proof.
  revert k. induction l as [|x l IH]; intros k Hf; [done|].
  assert (f k = Some (g (k + 0)%nat x)) as Hk.
  { rewrite <- (Hf 0%nat x eq_refl). f_equal. lia. }
  cbn [length seq].
  change (omap f (k :: seq (S k) (length l)))
    with (match f k with
          | Some y => y :: omap f (seq (S k) (length l))
          | None => omap f (seq (S k) (length l))
          end).
  rewrite Hk, imap_cons. f_equal.
  rewrite (IH (S k)).
  - apply imap_ext. intros i y _. simpl. f_equal. lia.
  - intros i y Hy. replace (S k + i)%nat with (k + S i)%nat by lia.
    by apply Hf.
Qed.

(** Run on the lists read off stored tasks, the builder keeps every task,
    in order, and numbers them from 0. *)
Lemma create_paired_tasks_stored (l : list PairedTask) :
  Forall stored_trimmed l ->
  _create_paired_tasks (tweet_url <$> l) (comment <$> l) = imap reindexed l.
Proof.
  intros Hl. rewrite create_paired_tasks_omap, !length_fmap, Nat.max_id.
  rewrite (omap_seq_imap _ reindexed l 0); [done|].
  intros i t Ht. simpl.
  rewrite Forall_forall in Hl.
  destruct (Hl t) as (Hu & Hne & Hc); [by eapply list_elem_of_lookup_2|].
  unfold paired_task_at, get_or_empty.
  rewrite !list_lookup_fmap, Ht. simpl. rewrite Hu, Hc.
  apply truthy_true in Hne. by rewrite Hne.
Qed.

(** X1: Recovery of a snapshot without index gaps whose record does not show
    [running] and which has items left: the new job is registered under
    the id of the current second, its work items are the unprocessed items
    of the old job, same pairs in the same order, numbered from 0, with the
    old profile, actions and waits; the old snapshot file is gone. *)
Lemma recover_automation_resumes (now : string)
    (clock : Q) (id : string) (w : World) (d : state_data) :
  files w !! state_file id = Some (StateFile d) ->
  sd_task_id d = id ->
  status_of id w <> Some Running ->
  contiguous (sd_paired_tasks d) ->
  Forall stored_trimmed (sd_paired_tasks d) ->
  remaining_by_index (sd_processed_tasks d) (sd_paired_tasks d) <> [] ->
  let rest := remaining_by_index (sd_processed_tasks d) (sd_paired_tasks d) in
  let r := recover_automation now clock id w in
  let new_id := automation_id clock in
  fst r = Recovered new_id (Z.of_nat (length rest)) /\
  (exists job,
     automation_states (snd r) !! new_id = Some job /\
     paired_tasks job = imap reindexed rest /\
     processed_tasks job = [] /\
     profile_name job = sd_profile_name d /\
     actions job = sd_actions d /\
     min_wait job = sd_min_wait d /\
     max_wait job = sd_max_wait d /\
     max_retries job = sd_max_retries d) /\
  status_of new_id (snd r) = Some Running /\
  files (snd r) !! state_file id = None.
Proof.
  intros Hfile Hid Hrun Hc Htrim Hrest rest r new_id.
  pose proof (restore_remaining now d Hc) as Hrem. fold rest in Hrem.
  assert (Forall stored_trimmed rest) as Htrim'.
  { subst rest. unfold remaining_by_index. apply Forall_forall.
    intros t [_ Ht]%list_elem_of_filter.
    rewrite Forall_forall in Htrim. by apply Htrim. }
  subst r. unfold recover_automation, load_state. rewrite Hfile.
  rewrite bool_decide_eq_false_2 by done.
  rewrite Hrem.
  rewrite bool_decide_eq_false_2.
  2:{ intros Hnil. apply fmap_nil_inv in Hnil. by apply Hrest. }
  cbn [run_automation_async fst snd]. rewrite length_fmap.
  split; [done|]. split.
  { eexists. split; [apply lookup_insert_eq|]. simpl.
    split; [by apply create_paired_tasks_stored|done]. }
  split.
  { unfold status_of. simpl. by rewrite lookup_insert_eq. }
  simpl. unfold cleanup. cbv zeta. simpl. rewrite Hid.
  rewrite lookup_insert_ne by (apply not_eq_sym, state_file_not_task_state).
  rewrite Hfile. apply lookup_delete_eq.
Qed.

(** X2: What becomes of a job whose waits are inverted: with two or more items
    to process, the draw of the wait after the first item raises, and the
    run ends in the [except] clause. *)
Lemma worker_inverted_waits_raise {order : PySetOrder} (env : Env)
    (tid : string) (min_w max_w : Z) (state : AutomationState) (w : World) :
  has_task_record tid w ->
  status_of tid w <> Some Cancelled ->
  driver_ok env = true ->
  cancel_before env 0 = false ->
  max_w < min_w ->
  (2 <= length (shuffle env (get_remaining_tasks state)))%nat ->
  let run := automation_worker env tid min_w max_w state w in
  fst (fst run) = Raised /\ status_of tid (snd run) = Some Error.
Proof.
  intros Hw Hnc Hdrv Hcb Hlt Hlen run.
  assert (fst (fst run) = Raised) as Hexit.
  { subst run. unfold automation_worker. rewrite Hdrv. cbn [negb].
    destruct (shuffle env (get_remaining_tasks state)) as [|t1 [|t2 rest]];
      [simpl in Hlen; lia|simpl in Hlen; lia|].
    cbn [process_tasks]. rewrite Hcb.
    rewrite bool_decide_eq_false_2
      by (by rewrite !append_logs_status_of).
    replace (Z.of_nat 0 <? Z.of_nat (length (t1 :: t2 :: rest)) - 1) with true
      by (symmetry; apply Z.ltb_lt; simpl length; lia).
    replace (max_w <? min_w) with true by (symmetry; by apply Z.ltb_lt).
    reflexivity. }
  split; [exact Hexit|].
  pose proof (worker_ends_completed env tid min_w max_w state w Hw) as H.
  fold run in H. cbv zeta in H. rewrite Hexit in H. apply H.
Qed.

(* ===================================================================== *)
(** * The task store and its file *)
(* ===================================================================== *)

Lemma with_tasks_in_sync tasks w : in_sync (with_tasks tasks w).
Proof. unfold in_sync, load_task_state. simpl. by rewrite lookup_insert_eq. Qed.

Lemma add_task_status_in_sync id data w : in_sync (add_task_status id data w).
Proof. apply with_tasks_in_sync. Qed.

Lemma update_task_status_in_sync id f w :
  in_sync w -> in_sync (update_task_status id f w).
Proof.
  intros Hw. unfold update_task_status.
  destruct (task_status w !! id); [apply with_tasks_in_sync|done].
Qed.

Lemma remove_task_status_in_sync id w :
  in_sync w -> in_sync (remove_task_status id w).
Proof.
  intros Hw. unfold remove_task_status.
  destruct (task_status w !! id); [apply with_tasks_in_sync|done].
Qed.

Lemma remove_task_status_tasks id w :
  task_status (remove_task_status id w) = delete id (task_status w).
Proof.
  unfold remove_task_status.
  destruct (task_status w !! id) eqn:Hid; simpl; [done|].
  by rewrite delete_id.
Qed.

Lemma remove_task_status_rest id w :
  automation_states (remove_task_status id w) = automation_states w /\
  active_threads (remove_task_status id w) = active_threads w /\
  (forall path, path <> task_state_file ->
     files (remove_task_status id w) !! path = files w !! path).
Proof.
  unfold remove_task_status.
  destruct (task_status w !! id); simpl; [|done].
  repeat split. intros path Hp. by rewrite lookup_insert_ne.
Qed.

Lemma remove_all_lookup (l : list string) w id :
  task_status (foldl (fun w id => remove_task_status id w) w l) !! id =
  if decide (id ∈ l) then None else task_status w !! id.
Proof.
  revert w. induction l as [|k l IH]; intros w.
  - destruct (decide (id ∈ [])) as [H|_]; [by apply elem_of_nil in H|done].
  - cbn [foldl]. rewrite IH, remove_task_status_tasks.
    destruct (decide (id ∈ l)) as [Hl|Hl];
      destruct (decide (id ∈ k :: l)) as [Hkl|Hkl]; try done.
    + exfalso. apply Hkl. by right.
    + apply elem_of_cons in Hkl as [->|?]; [|done]. apply lookup_delete_eq.
    + apply lookup_delete_ne. intros ->. apply Hkl. by left.
Qed.

Lemma remove_all_rest (l : list string) w :
  let w' := foldl (fun w id => remove_task_status id w) w l in
  automation_states w' = automation_states w /\
  active_threads w' = active_threads w /\
  (forall path, path <> task_state_file -> files w' !! path = files w !! path) /\
  (in_sync w -> in_sync w').
Proof.
  revert w. induction l as [|k l IH]; intros w; simpl; [done|].
  destruct (IH (remove_task_status k w)) as (Ha & Ht & Hf & Hs).
  destruct (remove_task_status_rest k w) as (Ha' & Ht' & Hf').
  rewrite Ha, Ht, Ha', Ht'. repeat split.
  - intros path Hp. by rewrite Hf, Hf'.
  - intros Hw. by apply Hs, remove_task_status_in_sync.
Qed.

Lemma cleanup_completed_tasks_lookup (parse_time : string -> option Q)
    (now_timestamp : Q) (max_age_hours : Z) (w : World) (id : string) :
  task_status
    (cleanup_completed_tasks parse_time now_timestamp max_age_hours w) !! id =
  match task_status w !! id with
  | Some data =>
      if expired parse_time
           (Qminus now_timestamp (inject_Z (max_age_hours * 3600))) data
      then None else Some data
  | None => None
  end.
Proof.
  unfold cleanup_completed_tasks.
  set (cutoff_time := Qminus now_timestamp (inject_Z (max_age_hours * 3600))).
  rewrite remove_all_lookup.
  destruct (task_status w !! id) as [data|] eqn:Hid.
  - destruct (expired parse_time cutoff_time data) eqn:Hex.
    + rewrite decide_True; [done|].
      apply list_elem_of_fmap. exists (id, data). split; [done|].
      apply list_elem_of_filter. split; [done|].
      by apply elem_of_map_to_list.
    + rewrite decide_False; [done|].
      intros ([k d] & -> & [Hexp Hin]%list_elem_of_filter)%list_elem_of_fmap.
      apply elem_of_map_to_list in Hin. simpl in *. congruence.
  - rewrite decide_False; [done|].
    intros ([k d] & -> & [_ Hin]%list_elem_of_filter)%list_elem_of_fmap.
    apply elem_of_map_to_list in Hin. simpl in *. congruence.
Qed.

Lemma expired_running parse_time cutoff_time data :
  status data = Running -> expired parse_time cutoff_time data = false.
Proof. intros Hr. unfold expired. by rewrite Hr. Qed.

Lemma Qltb_lt (a b : Q) : Qltb a b = true <-> (a < b)%Q.
Proof.
  unfold Qltb. rewrite negb_true_iff. split.
  - intros H. apply Qnot_le_lt. intros Hle.
    apply Qle_bool_iff in Hle. congruence.
  - intros Hlt. destruct (Qle_bool b a) eqn:Hle; [|done].
    apply Qle_bool_iff in Hle. exfalso. by apply (Qlt_not_le a b).
Qed.

Lemma expired_spec parse_time cutoff_time data :
  expired parse_time cutoff_time data = true <->
  (status data = Completed \/ status data = Error \/ status data = Cancelled) /\
  record_start_time data <> EmptyString /\
  exists task_timestamp,
    parse_time (record_start_time data) = Some task_timestamp /\
    (task_timestamp < cutoff_time)%Q.
Proof.
  unfold expired. rewrite !andb_true_iff, truthy_true.
  assert (finished (status data) = true <->
          status data = Completed \/ status data = Error \/
          status data = Cancelled) as ->.
  { destruct (status data); simpl; split; try done; try tauto.
    intros [?|[?|?]]; discriminate. }
  destruct (parse_time (record_start_time data)) as [ts|].
  - rewrite Qltb_lt. split.
    + intros [[Hs Hne] Hlt]. split; [done|]. split; [done|]. by exists ts.
    + intros (Hs & Hne & ts' & [= <-] & Hlt). done.
  - split; [by intros [_ ?]|]. by intros (_ & _ & ts' & [=] & _).
Qed.

(** X3: What [cleanup_completed_tasks] removes and what it leaves.  A task
    goes exactly when its status is completed, error or cancelled, its
    start time is not empty and parses, and the parsed time lies strictly
    before the time of the call minus [max_age_hours] hours; every other
    task stays as it was, and no task appears.  So running tasks and tasks
    whose start time is empty or does not parse stay, however old; the
    registries and every file other than the task file are not touched,
    and the task file keeps mirroring the store. *)
Theorem cleanup_completed_tasks_removes (parse_time : string -> option Q)
    (now_timestamp : Q) (max_age_hours : Z) (w : World) :
  let w' := cleanup_completed_tasks parse_time now_timestamp max_age_hours w in
  (forall id data,
     task_status w !! id = Some data ->
     (task_status w' !! id = None <->
      (status data = Completed \/ status data = Error \/
       status data = Cancelled) /\
      record_start_time data <> EmptyString /\
      exists task_timestamp,
        parse_time (record_start_time data) = Some task_timestamp /\
        (task_timestamp <
         now_timestamp - inject_Z (max_age_hours * 3600))%Q) /\
     (task_status w' !! id = None \/ task_status w' !! id = Some data)) /\
  (forall id, task_status w !! id = None -> task_status w' !! id = None) /\
  (forall id data,
     task_status w !! id = Some data ->
     status data = Running \/
     record_start_time data = EmptyString \/
     parse_time (record_start_time data) = None ->
     task_status w' !! id = Some data) /\
  automation_states w' = automation_states w /\
  active_threads w' = active_threads w /\
  (forall path, path <> task_state_file -> files w' !! path = files w !! path) /\
  (in_sync w -> in_sync w').
Proof.
  intros w'.
  set (cutoff_time := Qminus now_timestamp (inject_Z (max_age_hours * 3600))).
  assert (forall id data,
            task_status w !! id = Some data ->
            task_status w' !! id =
              if expired parse_time cutoff_time data then None else Some data)
    as Hlook.
  { intros id data Hid. subst w'.
    by rewrite cleanup_completed_tasks_lookup, Hid. }
  split.
  { intros id data Hid. rewrite (Hlook id data Hid).
    rewrite <- (expired_spec parse_time cutoff_time data).
    destruct (expired parse_time cutoff_time data).
    - split; [done|by left].
    - split; [done|by right]. }
  split.
  { intros id Hid. subst w'. by rewrite cleanup_completed_tasks_lookup, Hid. }
  split.
  { intros id data Hid Hkeep. rewrite (Hlook id data Hid).
    destruct (expired parse_time cutoff_time data) eqn:Hex; [|done].
    apply expired_spec in Hex as (Hs & Hne & ts & Hp & _).
    destruct Hkeep as [Hr|[He|Hn]]; [|done|congruence].
    rewrite Hr in Hs. by destruct Hs as [?|[?|?]]. }
  subst w'. unfold cleanup_completed_tasks. apply remove_all_rest.
Qed.

Section SyncFacts.
Context {order : PySetOrder}.

Lemma save_state_in_in_sync st w : in_sync w -> in_sync (save_state_in st w).
Proof.
  unfold in_sync, load_task_state. simpl. unfold save_state. cbv zeta.
  rewrite lookup_insert_ne by apply state_file_not_task_state. done.
Qed.

Lemma cleanup_in_in_sync st w : in_sync w -> in_sync (cleanup_in st w).
Proof.
  unfold in_sync, load_task_state. simpl. unfold cleanup. cbv zeta.
  destruct (files w !! state_file (task_id st)); [|done].
  rewrite lookup_delete_ne by apply state_file_not_task_state. done.
Qed.

Lemma request_cancel_in_sync id w : in_sync w -> in_sync (request_cancel id w).
Proof.
  intros Hw. unfold request_cancel. destruct (task_status w !! id); [|done].
  by apply update_task_status_in_sync, update_task_status_in_sync.
Qed.

Lemma run_automation_async_in_sync now clock profile tl rc acts mn mx retries w :
  in_sync (snd (run_automation_async now clock profile tl rc acts mn mx retries w)).
Proof. unfold in_sync, load_task_state. simpl. by rewrite lookup_insert_eq. Qed.

Lemma process_tasks_in_sync env tid mn mx count i tasks st w :
  in_sync w -> in_sync (snd (process_tasks env tid mn mx count i tasks st w)).
Proof.
  revert i st w. induction tasks as [|task rest IH]; intros i st w Hw; [done|].
  simpl.
  set (w1 := if cancel_before env i then request_cancel tid w else w).
  assert (in_sync w1) as Hw1.
  { subst w1. destruct (cancel_before env i); [|done].
    by apply request_cancel_in_sync. }
  destruct (bool_decide (status_of tid w1 = Some Cancelled)).
  { simpl. by apply update_task_status_in_sync. }
  match goal with
  | |- context [if ?c then append_logs tid [LogProgressSaved] ?a else ?b] =>
      set (w2 := if c then append_logs tid [LogProgressSaved] a else b)
  end.
  assert (in_sync w2) as Hw2.
  { subst w2.
    destruct (_ =? 0);
      repeat first [apply update_task_status_in_sync
                   |apply save_state_in_in_sync]; exact Hw1. }
  destruct (Z.of_nat i <? Z.of_nat count - 1); [|by apply IH].
  destruct (mx <? mn); [exact Hw2|].
  destruct (draw_wait env i <? 0).
  - simpl. by apply update_task_status_in_sync.
  - apply IH. by apply update_task_status_in_sync.
Qed.

Lemma automation_worker_in_sync env tid mn mx st w :
  in_sync w -> in_sync (snd (automation_worker env tid mn mx st w)).
Proof.
  intros Hw. unfold automation_worker.
  set (w0 := append_logs tid [LogStrategy] _).
  assert (in_sync w0) as Hw0.
  { subst w0. by repeat apply update_task_status_in_sync. }
  destruct (driver_ok env); cbn [negb fst snd].
  2:{ by repeat apply update_task_status_in_sync. }
  set (tasks := shuffle env (get_remaining_tasks st)).
  set (w1 := append_logs tid [LogRandomized _] _).
  assert (in_sync w1) as Hw1.
  { subst w1. by repeat apply update_task_status_in_sync. }
  pose proof (process_tasks_in_sync env tid mn mx (length tasks) 0 tasks st w1 Hw1)
    as Hp.
  destruct (process_tasks env tid mn mx (length tasks) 0 tasks st w1)
    as [[exit st'] w'].
  cbn [snd] in Hp.
  assert (in_sync
            (append_logs tid [LogCompleted (get_progress_stats st')]
               (update_task_status tid (with_status Completed)
                  (save_state_in st' w')))) as Hdone.
  { by apply update_task_status_in_sync, update_task_status_in_sync,
             save_state_in_in_sync. }
  destruct exit; cbn [snd]; try exact Hdone.
  by apply save_state_in_in_sync, update_task_status_in_sync,
           update_task_status_in_sync.
Qed.
End SyncFacts.

(** X4: The task file mirrors the in-memory task store, and every operation
    keeps it so: adding, updating and removing a record, starting a job,
    recovering one, and a whole worker run, whatever its exit.  A process
    restarted at any of these points therefore loads the records as they
    were last written. *)
Theorem task_file_mirrors_store {order : PySetOrder} (w : World) :
  in_sync w ->
  (forall id data, in_sync (add_task_status id data w)) /\
  (forall id f, in_sync (update_task_status id f w)) /\
  (forall id, in_sync (remove_task_status id w)) /\
  (forall id, in_sync (request_cancel id w)) /\
  (forall now clock data, in_sync (snd (start_automation now clock data w))) /\
  (forall now clock id, in_sync (snd (recover_automation now clock id w))) /\
  (forall env tid mn mx st,
     in_sync (snd (automation_worker env tid mn mx st w))).
Proof.
  intros Hw.
  split; [intros; apply add_task_status_in_sync|].
  split; [intros; by apply update_task_status_in_sync|].
  split; [intros; by apply remove_task_status_in_sync|].
  split; [intros; by apply request_cancel_in_sync|].
  split.
  { intros now clock data. unfold start_automation.
    destruct (missing _); [done|]. destruct (bool_decide _); [done|].
    destruct (negb _); [done|]. apply run_automation_async_in_sync. }
  split.
  { intros now clock id. unfold recover_automation.
    destruct (load_state now (files w) id) as [state|]; [|done].
    destruct (bool_decide _); [done|]. destruct (bool_decide _); [done|].
    apply cleanup_in_in_sync, run_automation_async_in_sync. }
  intros. by apply automation_worker_in_sync.
Qed.

(** The store of a process that has just started, with a job started in
    it. *)
Lemma task_file_mirrors_store_witness :
  let w := mkWorld ∅ ∅ ∅ ∅ in
  in_sync w /\
  in_sync (snd (start_automation "t0" (100 # 1)
                  (mkAutomateRequest (Some "alice"%string) ["a"%string] []
                     [("like"%string, true)] None None None) w)).
Proof.
  intros w.
  assert (in_sync w) as Hw by reflexivity.
  split; [exact Hw|].
  apply (task_file_mirrors_store (order := insertion_order) w Hw).
Defined.

(* ===================================================================== *)
(** * Restarting the process *)
(* ===================================================================== *)

Lemma restart_state_file parse_time ts fs id :
  files (restart parse_time ts fs) !! state_file id = fs !! state_file id.
Proof.
  unfold restart, cleanup_completed_tasks.
  match goal with
  | |- files (foldl _ ?w0 ?l) !! _ = _ =>
      destruct (remove_all_rest l w0) as (_ & _ & Hf & _)
  end.
  rewrite Hf by apply state_file_not_task_state. done.
Qed.

Lemma restart_running parse_time ts w id :
  in_sync w -> status_of id w = Some Running ->
  status_of id (restart parse_time ts (files w)) = Some Running.
Proof.
  intros Hs Hr. unfold status_of in *. unfold restart.
  rewrite cleanup_completed_tasks_lookup. simpl. rewrite Hs.
  destruct (task_status w !! id) as [data|]; [|done].
  simpl in Hr. injection Hr as Hr. rewrite expired_running by done.
  simpl. by rewrite Hr.
Qed.

Lemma request_cancel_state_file id w path :
  path <> task_state_file ->
  files (request_cancel id w) !! path = files w !! path.
Proof.
  intros Hp. unfold request_cancel. destruct (task_status w !! id); [|done].
  by rewrite append_logs_files, update_task_status_files.
Qed.

(** X5: A job interrupted by the end of the process cannot be recovered right
    after the restart: its record, reloaded from the task file, still shows
    [running] (the start-up clean-up never removes running tasks), so
    [recover_automation] answers [AlreadyRunning] and changes nothing.
    Once the record has been cancelled, recovery is no longer refused for
    that reason, and the snapshot is still found. *)
Theorem recover_refused_after_restart (parse_time : string -> option Q)
    (ts : Q) (now : string) (clock : Q) (id : string) (w : World) :
  in_sync w ->
  status_of id w = Some Running ->
  has_snapshot id w ->
  let w' := restart parse_time ts (files w) in
  automation_states w' = ∅ /\
  active_threads w' = ∅ /\
  status_of id w' = Some Running /\
  recover_automation now clock id w' = (AlreadyRunning, w') /\
  fst (recover_automation now clock id (request_cancel id w')) <> AlreadyRunning /\
  fst (recover_automation now clock id (request_cancel id w')) <> NotFound.
Proof.
  intros Hs Hr [d Hd] w'.
  assert (status_of id w' = Some Running) as Hr' by (by apply restart_running).
  assert (files w' !! state_file id = Some (StateFile d)) as Hd'.
  { subst w'. by rewrite restart_state_file. }
  assert (automation_states w' = ∅ /\ active_threads w' = ∅) as [Ha Ht].
  { subst w'. unfold restart, cleanup_completed_tasks.
    match goal with
    | |- automation_states (foldl _ ?w0 ?l) = _ /\ _ =>
        destruct (remove_all_rest l w0) as (Ha & Ht & _)
    end.
    by rewrite Ha, Ht. }
  split; [exact Ha|]. split; [exact Ht|]. split; [exact Hr'|]. split.
  { unfold recover_automation, load_state. rewrite Hd'.
    by rewrite bool_decide_eq_true_2. }
  assert (has_task_record id w') as Hrec.
  { unfold has_task_record. unfold status_of in Hr'.
    destruct (task_status w' !! id); [by eexists|done]. }
  pose proof (request_cancel_status_of id w' Hrec) as Hc.
  destruct (recover_automation_cases now clock id (request_cancel id w'))
    as [[Hno _]|(d' & _ & [[Hrun _]|[(_ & _ & ->)|(_ & _ & w'' & ->)]])].
  - exfalso. apply Hno. exists d.
    rewrite request_cancel_state_file by apply state_file_not_task_state.
    exact Hd'.
  - congruence.
  - split; discriminate.
  - split; discriminate.
Qed.

(** A job started, its snapshot saved, then the process ends. *)
Lemma recover_refused_after_restart_witness :
  let start :=
    run_automation_async "t0" (100 # 1) "alice" ["a"; "b"] ["x"; "y"]
      [("like", true)] 5 15 3 (mkWorld ∅ ∅ ∅ ∅) in
  let state :=
    AutomationState_init "t0" (fst start) "alice" ["a"; "b"] ["x"; "y"]
      [("like", true)] 5 15 3 in
  let w := save_state_in (order := insertion_order) state (snd start) in
  let w' := restart (fun _ => None) (200 # 1) (files w) in
  in_sync w /\
  recover_automation "t1" (200 # 1) (fst start) w' = (AlreadyRunning, w').
Proof.
  intros start state w w'.
  assert (in_sync w) as Hs by reflexivity.
  assert (status_of (fst start) w = Some Running) as Hr
    by (vm_compute; reflexivity).
  assert (has_snapshot (fst start) w) as Hsnap.
  { exists (state_data_of (order := insertion_order) state).
    vm_compute. reflexivity. }
  split; [exact Hs|].
  apply (recover_refused_after_restart (fun _ => None) (200 # 1) "t1" (200 # 1)
           (fst start) w Hs Hr Hsnap).
Defined.

(* ===================================================================== *)
(** * The task view *)
(* ===================================================================== *)

Lemma task_info_pending (st : AutomationState) (i : nat) (t : PairedTask) :
  info_status (task_info st i t) = Pending <->
  Z.of_nat i ∉ processed_tasks st.
Proof.
  unfold task_info, set_in. cbn [info_status].
  destruct (decide (Z.of_nat i ∈ processed_tasks st)) as [Hin|Hnin].
  - rewrite bool_decide_eq_true_2 by done.
    destruct (bool_decide _); split; try discriminate; by intros Hn.
  - by rewrite bool_decide_eq_false_2 by done.
Qed.

Lemma pending_positions_from (st : AutomationState) (k : nat)
    (l : list PairedTask) :
  info_pair <$> filter (fun e => info_status e = Pending)
                  (imap (fun i => task_info st (k + i)) l) =
  task_pair <$> (snd <$> filter (fun it => Z.of_nat (fst it) ∉ processed_tasks st)
                           (imap (fun i t => ((k + i)%nat, t)) l)).
Proof.
  revert k. induction l as [|t l IH]; intros k; [done|].
  rewrite !imap_cons.
  rewrite (imap_ext _ (fun i => task_info st (S k + i)) l)
    by (intros; simpl; f_equal; lia).
  rewrite (imap_ext (_ ∘ S) (fun i t => ((S k + i)%nat, t)) l)
    by (intros; simpl; f_equal; lia).
  rewrite !filter_cons, Nat.add_0_r. cbn [fst].
  pose proof (task_info_pending st k t) as Hiff.
  destruct (decide (info_status (task_info st k t) = Pending)) as [Hp|Hp];
    destruct (decide (Z.of_nat k ∉ processed_tasks st)) as [Hn|Hn];
    try (exfalso; tauto).
  - rewrite !fmap_cons. f_equal. apply IH.
  - apply IH.
Qed.

Lemma imap_task_info_index (st : AutomationState) (k : nat)
    (l : list PairedTask) :
  info_index <$> imap (fun i => task_info st (k + i)) l =
  (Z.of_nat <$> seq k (length l)).
Proof.
  revert k. induction l as [|t l IH]; intros k; [done|].
  rewrite imap_cons.
  rewrite (imap_ext _ (fun i => task_info st (S k + i)) l)
    by (intros; simpl; f_equal; lia).
  cbn [length seq]. rewrite !fmap_cons, IH. simpl. by rewrite Nat.add_0_r.
Qed.

(** X6: What [get_automation_tasks] shows.  It answers 404 exactly when no
    state object is registered under the id and no snapshot is stored; a
    registered object is shown whatever the file holds.  The view has one
    entry per stored task, in order, numbered by list position; the entries
    shown as pending are exactly the tasks [get_remaining_tasks] returns,
    and an entry is shown as success as soon as its position is in
    [processed] and in [successful], even if it is in [failed] too. *)
Theorem get_automation_tasks_view (now : string) (id : string) (w : World) :
  (get_automation_tasks now id w = None <->
     automation_states w !! id = None /\ ~ has_snapshot id w) /\
  (forall state,
     automation_states w !! id = Some state ->
     find_state now id w = Some state) /\
  (forall state,
     find_state now id w = Some state ->
     exists view,
       get_automation_tasks now id w = Some view /\
       view_stats view = get_progress_stats state /\
       length (view_tasks view) = length (paired_tasks state) /\
       info_index <$> view_tasks view =
         (Z.of_nat <$> seq 0 (length (paired_tasks state))) /\
       info_pair <$> view_tasks view = (task_pair <$> paired_tasks state) /\
       info_pair <$> filter (fun e => info_status e = Pending) (view_tasks view) =
         (task_pair <$> get_remaining_tasks state) /\
       (forall (i : nat) e,
          view_tasks view !! i = Some e ->
          Z.of_nat i ∈ processed_tasks state ->
          Z.of_nat i ∈ successful_tasks state ->
          info_status e = Success)).
Proof.
  split.
  { unfold get_automation_tasks, find_state, load_state, has_snapshot.
    destruct (automation_states w !! id) as [state|].
    { split; [discriminate|]. by intros [? _]. }
    destruct (files w !! state_file id) as [[d| |]|]; split;
      try discriminate; try done.
    - intros [_ Hn]. exfalso. apply Hn. by exists d.
    - intros _. split; [done|]. by intros [d [=]].
    - intros _. split; [done|]. by intros [d [=]].
    - intros _. split; [done|]. by intros [d [=]]. }
  split.
  { intros state Hreg. unfold find_state. by rewrite Hreg. }
  intros state Hfind. unfold get_automation_tasks. rewrite Hfind.
  eexists. split; [reflexivity|]. cbn [view_stats view_tasks].
  split; [done|]. split; [by rewrite length_imap|]. split.
  { apply (imap_task_info_index state 0). }
  split.
  { rewrite fmap_imap. unfold task_pair.
    rewrite <- (imap_const (fun t => (tweet_url t, comment t))). done. }
  split.
  { apply (pending_positions_from state 0). }
  intros i e He Hp Hs.
  rewrite list_lookup_imap in He.
  destruct (paired_tasks state !! i) as [t|]; [|done].
  injection He as <-. unfold task_info, set_in. cbn [info_status].
  by rewrite !bool_decide_eq_true_2.
Qed.

(* ===================================================================== *)
(** * What a worker run does to the ledger *)
(* ===================================================================== *)

Lemma get_remaining_tasks_fresh (st : AutomationState) :
  processed_tasks st = [] -> get_remaining_tasks st = paired_tasks st.
Proof.
  intros Hp. unfold get_remaining_tasks, enumerate. rewrite Hp.
  generalize (paired_tasks st). intros l.
  assert (forall k, snd <$> filter (fun it : nat * PairedTask => Z.of_nat (fst it) ∉ [])
                      (imap (fun i t => ((k + i)%nat, t)) l) = l) as H.
  { induction l as [|t l IH]; intros k; [done|].
    rewrite imap_cons, filter_cons.
    rewrite decide_True by apply not_elem_of_nil.
    rewrite fmap_cons. cbn [snd]. f_equal.
    rewrite (imap_ext _ (fun i t => ((S k + i)%nat, t)) l)
      by (intros; simpl; f_equal; lia).
    apply IH. }
  apply (H 0%nat).
Qed.

Section LoopFacts.
Context {order : PySetOrder}.
Variable env : Env.
Variable tid : string.
Variables min_w max_w : Z.
Hypothesis waits_ordered : min_w <= max_w.
Hypothesis draws_nonneg : forall i, 0 <= draw_wait env i.

Lemma process_tasks_app count i pre post st w :
  process_tasks env tid min_w max_w count i (pre ++ post) st w =
  match process_tasks env tid min_w max_w count i pre st w with
  | (Exhausted, st', w') =>
      process_tasks env tid min_w max_w count (i + length pre) post st' w'
  | r => r
  end.
Proof.
  revert i st w. induction pre as [|task pre IH]; intros i st w.
  - simpl. by rewrite Nat.add_0_r.
  - cbn [app process_tasks length].
    destruct (bool_decide _); [done|].
    replace (i + S (length pre))%nat with (S i + length pre)%nat by lia.
    destruct (Z.of_nat i <? Z.of_nat count - 1); [|apply IH].
    destruct (max_w <? min_w); [done|].
    destruct (draw_wait env i <? 0); [done|apply IH].
Qed.

Lemma update_progress_status_of cur prog w :
  status_of tid (update_task_status tid (with_progress cur prog) w) =
  status_of tid w.
Proof.
  unfold status_of. rewrite update_task_status_lookup.
  by destruct (task_status w !! tid).
Qed.

(** The loop over tasks before which no cancel request lands. *)
Lemma process_tasks_uncancelled count i tasks st w :
  has_task_record tid w ->
  status_of tid w <> Some Cancelled ->
  (forall j, (i <= j < i + length tasks)%nat -> cancel_before env j = false) ->
  let r := process_tasks env tid min_w max_w count i tasks st w in
  fst (fst r) = Exhausted /\
  processed_tasks (snd (fst r)) =
    foldl set_add (processed_tasks st) (index <$> tasks) /\
  successful_tasks (snd (fst r)) =
    foldl set_add (successful_tasks st)
      (index <$> filter (fun t => executor env t = true) tasks) /\
  failed_tasks (snd (fst r)) =
    foldl set_add (failed_tasks st)
      (index <$> filter (fun t => executor env t = false) tasks) /\
  paired_tasks (snd (fst r)) = paired_tasks st /\
  has_task_record tid (snd r) /\
  status_of tid (snd r) = status_of tid w.
Proof.
  revert i st w. induction tasks as [|task rest IH]; intros i st w Hw Hnc Hcb.
  { simpl. done. }
  cbn [process_tasks].
  rewrite (Hcb i) by (simpl; lia).
  rewrite bool_decide_eq_false_2 by done.
  match goal with
  | |- context [if ?c then append_logs tid [LogProgressSaved] ?a else ?b] =>
      set (w2 := if c then append_logs tid [LogProgressSaved] a else b)
  end.
  assert (has_task_record tid w2 /\ status_of tid w2 = status_of tid w)
    as [Hw2 Hs2].
  { subst w2. destruct (_ =? 0).
    - split.
      + repeat first [apply append_logs_present
                     |apply save_state_in_present
                     |apply update_task_status_present]; exact Hw.
      + rewrite append_logs_status_of, save_state_in_status_of,
          !append_logs_status_of. apply update_progress_status_of.
    - split.
      + repeat first [apply append_logs_present
                     |apply update_task_status_present]; exact Hw.
      + rewrite !append_logs_status_of. apply update_progress_status_of. }
  replace (max_w <? min_w) with false by (symmetry; apply Z.ltb_ge; lia).
  replace (draw_wait env i <? 0) with false
    by (symmetry; apply Z.ltb_ge; apply draws_nonneg).
  set (st1 := mark_task_processed (now_at env i)
                (with_current_index (Z.of_nat i) st) (index task)
                (executor env task)).
  assert (forall w3, has_task_record tid w3 ->
            status_of tid w3 = status_of tid w ->
            let r := process_tasks env tid min_w max_w count (S i) rest st1 w3 in
            fst (fst r) = Exhausted /\
            processed_tasks (snd (fst r)) =
              foldl set_add (processed_tasks st) (index <$> task :: rest) /\
            successful_tasks (snd (fst r)) =
              foldl set_add (successful_tasks st)
                (index <$> filter (fun t => executor env t = true) (task :: rest)) /\
            failed_tasks (snd (fst r)) =
              foldl set_add (failed_tasks st)
                (index <$> filter (fun t => executor env t = false) (task :: rest)) /\
            paired_tasks (snd (fst r)) = paired_tasks st /\
            has_task_record tid (snd r) /\
            status_of tid (snd r) = status_of tid w) as Hnext.
  { intros w3 Hw3 Hs3.
    destruct (IH (S i) st1 w3 Hw3) as (He & Hp & Hsu & Hf & Hpt & Hr & Hst).
    - by rewrite Hs3.
    - intros j Hj. apply Hcb. simpl. lia.
    - cbv zeta. rewrite He, Hp, Hsu, Hf, Hpt, Hst, Hs3.
      split; [done|]. split; [done|].
      rewrite !filter_cons. subst st1. simpl.
      destruct (executor env task) eqn:Hex.
      + rewrite decide_True by done. rewrite decide_False by done. done.
      + rewrite decide_False by done. rewrite decide_True by done. done. }
  destruct (Z.of_nat i <? Z.of_nat count - 1).
  - apply Hnext.
    + by apply append_logs_present.
    + by rewrite append_logs_status_of.
  - by apply Hnext.
Qed.
End LoopFacts.

Lemma NoDup_fmap_inj_on {A B} (f : A -> B) (l : list A) x y :
  NoDup (f <$> l) -> x ∈ l -> y ∈ l -> f x = f y -> x = y.
Proof.
  induction l as [|a l IH]; intros Hnd Hx Hy Hf; [by apply elem_of_nil in Hx|].
  rewrite fmap_cons in Hnd. apply NoDup_cons in Hnd as [Ha Hnd].
  apply elem_of_cons in Hx as [->|Hx]; apply elem_of_cons in Hy as [->|Hy].
  - done.
  - exfalso. apply Ha. rewrite Hf. by apply list_elem_of_fmap_2.
  - exfalso. apply Ha. rewrite <- Hf. by apply list_elem_of_fmap_2.
  - by apply IH.
Qed.

Lemma length_filter_bool {A} (p : A -> bool) (l : list A) :
  (length (filter (fun x => p x = true) l) +
   length (filter (fun x => p x = false) l) = length l)%nat.
Proof.
  induction l as [|a l IH]; [done|]. rewrite !filter_cons.
  destruct (decide (p a = true)) as [Ht|Ht];
    destruct (decide (p a = false)) as [Hf|Hf]; simpl; try lia.
  - congruence.
  - destruct (p a); congruence.
Qed.

(** X7: A run of the worker on a job just started, the driver being up, the
    shuffle a rearrangement, the waits in order and the draws not negative.
    If the first cancel request lands before the item at position [k] of
    the shuffled list is polled, the run processes exactly the [k] items
    before it, each once, and none after: [processed] lists their indices
    in processing order, [successful] those the executor succeeded on and
    [failed] the others, with no index on both sides, and the counts add
    up.  Without any cancel request ([k] the number of items) every item is
    processed. *)
Theorem worker_processes_until_cancel {order : PySetOrder} (env : Env)
    (now : string) (clock : Q) (profile : string) (tl rc : list string)
    (acts : list (string * bool)) (mn mx retries : Z) (w0 : World) (k : nat) :
  let start := run_automation_async now clock profile tl rc acts mn mx retries w0 in
  let state :=
    AutomationState_init now (fst start) profile tl rc acts mn mx retries in
  let tasks := shuffle env (paired_tasks state) in
  driver_ok env = true ->
  tasks ≡ₚ paired_tasks state ->
  mn <= mx ->
  (forall i, 0 <= draw_wait env i) ->
  (k <= length tasks)%nat ->
  (forall j, (j < k)%nat -> cancel_before env j = false) ->
  ((k < length tasks)%nat -> cancel_before env k = true) ->
  let run := automation_worker env (fst start) mn mx state (snd start) in
  let ledger := snd (fst run) in
  let stats := get_progress_stats ledger in
  fst (fst run) =
    (if decide (k < length tasks)%nat then CancelSeen else Exhausted) /\
  processed_tasks ledger = (index <$> take k tasks) /\
  successful_tasks ledger =
    (index <$> filter (fun t => executor env t = true) (take k tasks)) /\
  failed_tasks ledger =
    (index <$> filter (fun t => executor env t = false) (take k tasks)) /\
  members (successful_tasks ledger) ∩ members (failed_tasks ledger) = ∅ /\
  processed_count stats = Z.of_nat k /\
  successful_count stats + failed_count stats = Z.of_nat k /\
  remaining_count stats = Z.of_nat (length tasks) - Z.of_nat k.
Proof.
  intros start state tasks Hdrv Hperm Hwaits Hdraws Hk Hnc Hc run ledger stats.
  set (tid := fst start) in *.
  assert (NoDup (index <$> tasks)) as Hnd.
  { rewrite Hperm. apply sorted_lt_NoDup, created_sorted. }
  assert (NoDup (index <$> take k tasks)) as Hndk.
  { eapply sublist_NoDup; [exact Hnd|]. apply fmap_sublist, sublist_take. }
  (* the loop *)
  assert (exists w',
            run = (if decide (k < length tasks)%nat then CancelSeen else Exhausted,
                   ledger, w') /\
            processed_tasks ledger = foldl set_add [] (index <$> take k tasks) /\
            successful_tasks ledger = foldl set_add []
              (index <$> filter (fun t => executor env t = true) (take k tasks)) /\
            failed_tasks ledger = foldl set_add []
              (index <$> filter (fun t => executor env t = false) (take k tasks)) /\
            paired_tasks ledger = paired_tasks state) as (w' & Hrun & Hp & Hs & Hf & Hpt).
  { subst ledger run. unfold automation_worker. rewrite Hdrv. cbn [negb].
    rewrite get_remaining_tasks_fresh by done. fold tasks.
    set (w1 := append_logs tid [LogRandomized _] _).
    assert (has_task_record tid w1 /\ status_of tid w1 = Some Running) as [Hw1 Hs1].
    { subst w1. split.
      - repeat apply append_logs_present. unfold has_task_record. simpl.
        rewrite lookup_insert_eq. by eexists.
      - rewrite !append_logs_status_of. unfold status_of. simpl.
        by rewrite lookup_insert_eq. }
    replace (process_tasks env tid mn mx (length tasks) 0 tasks state w1)
      with (process_tasks env tid mn mx (length tasks) 0
              (take k tasks ++ drop k tasks) state w1)
      by (by rewrite take_drop).
    rewrite (process_tasks_app env tid mn mx).
    destruct (process_tasks_uncancelled env tid mn mx Hwaits Hdraws
                (length tasks) 0 (take k tasks) state w1 Hw1)
      as (He & Hp & Hs & Hf & Hpt & Hrec & Hst).
    { rewrite Hs1. discriminate. }
    { intros j Hj. apply Hnc. rewrite length_take in Hj. lia. }
    destruct (process_tasks env tid mn mx (length tasks) 0 (take k tasks) state w1)
      as [[exit st'] w2].
    cbn [fst snd] in He, Hp, Hs, Hf, Hpt, Hrec, Hst. subst exit.
    rewrite length_take_le by done. cbn [Nat.add].
    destruct (decide (k < length tasks)%nat) as [Hlt|Hge].
    - destruct (drop k tasks) as [|t rest] eqn:Hdrop.
      { apply (f_equal length) in Hdrop. rewrite length_drop in Hdrop.
        simpl in Hdrop. lia. }
      cbn [process_tasks]. rewrite (Hc Hlt).
      rewrite bool_decide_eq_true_2 by (by apply request_cancel_status_of).
      cbn [fst snd]. eexists. split; [reflexivity|]. done.
    - rewrite drop_ge by lia. cbn [process_tasks fst snd].
      eexists. split; [reflexivity|]. done. }
  rewrite Hrun. cbn [fst].
  rewrite fold_set_add_NoDup in Hp by done.
  rewrite fold_set_add_NoDup in Hs
    by (eapply sublist_NoDup; [exact Hndk|]; apply fmap_sublist, sublist_filter).
  rewrite fold_set_add_NoDup in Hf
    by (eapply sublist_NoDup; [exact Hndk|]; apply fmap_sublist, sublist_filter).
  simpl in Hp, Hs, Hf.
  split; [done|]. split; [exact Hp|]. split; [exact Hs|]. split; [exact Hf|].
  split.
  { rewrite Hs, Hf. apply set_eq. intros i.
    rewrite elem_of_intersection, elem_of_empty. unfold members.
    rewrite !elem_of_list_to_set. split; [|done].
    intros [(t1 & -> & [H1 Hin1]%list_elem_of_filter)%list_elem_of_fmap
            (t2 & Heq & [H2 Hin2]%list_elem_of_filter)%list_elem_of_fmap].
    assert (t1 = t2) as ->
      by (eapply (NoDup_fmap_inj_on index); [exact Hndk|done..]).
    congruence. }
  subst stats. unfold get_progress_stats, set_len. cbn.
  rewrite Hp, Hs, Hf, Hpt, !length_fmap, length_take_le by done.
  pose proof (length_filter_bool (executor env) (take k tasks)) as Hlen.
  rewrite length_take_le in Hlen by done.
  assert (length (paired_tasks state) = length tasks) as Hl by (by rewrite Hperm).
  rewrite Hl. repeat split; lia.
Qed.

(** Two items, a cancel request before the second one is polled. *)
Lemma worker_processes_until_cancel_witness :
  let env :=
    {| driver_ok := true;
       shuffle := fun tasks => tasks;
       executor := fun _ => true;
       cancel_before := fun i => bool_decide (i = 1%nat);
       draw_wait := fun _ => 5;
       percent := fun a b => a * 100 / b;
       now_at := fun _ => "t1"%string |} in
  let start :=
    run_automation_async "t0" (100 # 1) "alice" ["a"; "b"] ["x"; "y"]
      [("like", true)] 5 15 3 (mkWorld ∅ ∅ ∅ ∅) in
  let state :=
    AutomationState_init "t0" (fst start) "alice" ["a"; "b"] ["x"; "y"]
      [("like", true)] 5 15 3 in
  let run :=
    automation_worker (order := insertion_order) env (fst start) 5 15 state
      (snd start) in
  driver_ok env = true /\
  5 <= 15 /\
  cancel_before env 1 = true /\
  fst (fst run) = CancelSeen /\
  processed_tasks (snd (fst run)) = [0].
Proof.
  intros env start state run.
  assert (driver_ok env = true) as Hdrv by reflexivity.
  assert (5 <= 15) as Hw by lia.
  assert (cancel_before env 1 = true) as Hc by reflexivity.
  split; [exact Hdrv|]. split; [exact Hw|]. split; [exact Hc|].
  destruct (worker_processes_until_cancel (order := insertion_order) env
              "t0" (100 # 1) "alice" ["a"; "b"] ["x"; "y"] [("like", true)]
              5 15 3 (mkWorld ∅ ∅ ∅ ∅) 1) as (Hexit & Hp & _).
  - exact Hdrv.
  - reflexivity.
  - exact Hw.
  - intros i. simpl. lia.
  - vm_compute. lia.
  - intros [|j] Hj; [reflexivity|lia].
  - intros _. exact Hc.
  - split; [exact Hexit|exact Hp].
Defined.

Section RegistryFacts.
Context {order : PySetOrder}.

Lemma same_registries_refl w : same_registries w w.
Proof. done. Qed.

Lemma same_registries_trans w1 w2 w3 :
  same_registries w1 w2 -> same_registries w2 w3 -> same_registries w1 w3.
Proof. intros [? ?] [? ?]. split; congruence. Qed.

Lemma update_task_status_registries id f w :
  same_registries w (update_task_status id f w).
Proof. unfold update_task_status. by destruct (task_status w !! id). Qed.

Lemma request_cancel_registries id w : same_registries w (request_cancel id w).
Proof.
  unfold request_cancel. destruct (task_status w !! id); [|done].
  eapply same_registries_trans; apply update_task_status_registries.
Qed.

Lemma save_state_in_registries st w : same_registries w (save_state_in st w).
Proof. done. Qed.

Lemma process_tasks_registries env tid mn mx count i tasks st w :
  same_registries w (snd (process_tasks env tid mn mx count i tasks st w)).
Proof.
  revert i st w. induction tasks as [|task rest IH]; intros i st w; [done|].
  simpl.
  set (w1 := if cancel_before env i then request_cancel tid w else w).
  assert (same_registries w w1) as Hw1.
  { subst w1. destruct (cancel_before env i); [|done].
    apply request_cancel_registries. }
  destruct (bool_decide (status_of tid w1 = Some Cancelled)).
  { simpl. eapply same_registries_trans; [exact Hw1|].
    apply update_task_status_registries. }
  match goal with
  | |- context [if ?c then append_logs tid [LogProgressSaved] ?a else ?b] =>
      set (w2 := if c then append_logs tid [LogProgressSaved] a else b)
  end.
  assert (same_registries w w2) as Hw2.
  { eapply same_registries_trans; [exact Hw1|]. subst w2.
    destruct (_ =? 0);
      repeat (eapply same_registries_trans;
                [|first [apply update_task_status_registries
                        |apply save_state_in_registries]]);
      apply same_registries_refl. }
  destruct (Z.of_nat i <? Z.of_nat count - 1);
    [|eapply same_registries_trans; [exact Hw2|apply IH]].
  destruct (mx <? mn); [exact Hw2|].
  destruct (draw_wait env i <? 0).
  - simpl. eapply same_registries_trans; [exact Hw2|].
    apply update_task_status_registries.
  - eapply same_registries_trans; [|apply IH].
    eapply same_registries_trans; [exact Hw2|].
    apply update_task_status_registries.
Qed.

Lemma process_tasks_task_id env tid mn mx count i tasks st w :
  task_id (snd (fst (process_tasks env tid mn mx count i tasks st w))) =
  task_id st.
Proof.
  revert i st w. induction tasks as [|task rest IH]; intros i st w; [done|].
  simpl. destruct (bool_decide _); [done|].
  destruct (Z.of_nat i <? Z.of_nat count - 1); [|by rewrite IH].
  destruct (mx <? mn); [done|].
  destruct (draw_wait env i <? 0); [done|by rewrite IH].
Qed.
End RegistryFacts.

(** X8: However a worker run ends, the job is taken out of both registries and
    no other job's registration changes.  After a failed driver set-up the
    record shows [error] and the job's snapshot file is left as it was;
    after an exception it shows [error] and the snapshot of the ledger is
    on disk; in the other cases it shows [completed] and the snapshot is on
    disk, under the job's own id. *)
Theorem worker_exit_effects {order : PySetOrder} (env : Env) (tid : string)
    (mn mx : Z) (state : AutomationState) (w : World) :
  has_task_record tid w ->
  let run := automation_worker env tid mn mx state w in
  let state' := snd (fst run) in
  automation_states (snd run) !! tid = None /\
  ~ (tid ∈ active_threads (snd run)) /\
  (forall id, id <> tid ->
     automation_states (snd run) !! id = automation_states w !! id /\
     (id ∈ active_threads (snd run) <-> id ∈ active_threads w)) /\
  task_id state' = task_id state /\
  match fst (fst run) with
  | NoDriver =>
      status_of tid (snd run) = Some Error /\
      files (snd run) !! state_file (task_id state) =
        files w !! state_file (task_id state)
  | Raised =>
      status_of tid (snd run) = Some Error /\
      files (snd run) !! state_file (task_id state) =
        Some (StateFile (state_data_of state'))
  | Exhausted | CancelSeen =>
      status_of tid (snd run) = Some Completed /\
      files (snd run) !! state_file (task_id state) =
        Some (StateFile (state_data_of state'))
  end.
Proof.
  intros Hw run state'.
  pose proof (worker_ends_completed env tid mn mx state w Hw) as Hend.
  fold run in Hend. cbv zeta in Hend. fold state' in Hend.
  assert (exists w1, snd run = worker_finally tid w1 /\ same_registries w w1 /\
            task_id state' = task_id state /\
            (fst (fst run) = NoDriver ->
             files w1 !! state_file (task_id state) =
             files w !! state_file (task_id state)))
    as (w1 & Hfin & [Hreg1 Hreg2] & Htid & Hnd).
  { subst state' run. unfold automation_worker.
    set (w0 := append_logs tid [LogStrategy] _).
    assert (same_registries w w0) as Hw0.
    { subst w0. eapply same_registries_trans; apply update_task_status_registries. }
    destruct (driver_ok env); cbn [negb fst snd].
    2:{ eexists. split; [reflexivity|]. split.
        - eapply same_registries_trans; [exact Hw0|].
          eapply same_registries_trans; apply update_task_status_registries.
        - split; [done|]. intros _. subst w0.
          by rewrite !append_logs_files, update_task_status_files,
            !append_logs_files by apply state_file_not_task_state. }
    set (tasks := shuffle env (get_remaining_tasks state)).
    set (w2 := append_logs tid [LogRandomized _] _).
    assert (same_registries w w2) as Hw2.
    { subst w2. eapply same_registries_trans; [exact Hw0|].
      eapply same_registries_trans; apply update_task_status_registries. }
    pose proof (process_tasks_registries env tid mn mx (length tasks) 0 tasks state w2)
      as Hp.
    pose proof (process_tasks_task_id env tid mn mx (length tasks) 0 tasks state w2)
      as Ht.
    pose proof (process_tasks_not_NoDriver env tid mn mx (length tasks) 0 tasks state w2)
      as Hn.
    destruct (process_tasks env tid mn mx (length tasks) 0 tasks state w2)
      as [[exit st'] w'].
    cbn [fst snd] in Hp, Ht, Hn.
    assert (same_registries w w') as Hw'
      by (eapply same_registries_trans; [exact Hw2|exact Hp]).
    destruct exit; cbn [fst snd]; try done;
      (eexists; split; [reflexivity|]; split; [|split; [exact Ht|done]]).
    - eapply same_registries_trans; [exact Hw'|].
      eapply same_registries_trans; [apply save_state_in_registries|].
      eapply same_registries_trans; apply update_task_status_registries.
    - eapply same_registries_trans; [exact Hw'|].
      eapply same_registries_trans; [apply save_state_in_registries|].
      eapply same_registries_trans; apply update_task_status_registries.
    - eapply same_registries_trans; [exact Hw'|].
      eapply same_registries_trans; [|apply save_state_in_registries].
      eapply same_registries_trans; apply update_task_status_registries. }
  rewrite Hfin. unfold worker_finally at 1 2 3 4. cbn [automation_states active_threads].
  rewrite Hreg1, Hreg2.
  split; [apply lookup_delete_eq|]. split.
  { rewrite elem_of_difference, elem_of_singleton. by intros [_ Hn]. }
  split.
  { intros id Hid. split; [by apply lookup_delete_ne|].
    rewrite elem_of_difference, elem_of_singleton. tauto. }
  split; [exact Htid|].
  rewrite <- Hfin. rewrite <- Htid.
  destruct (fst (fst run)) eqn:Hexit; try exact Hend.
  split; [exact Hend|]. rewrite Hfin, Htid. rewrite worker_finally_files. by apply Hnd.
Qed.

(** A run whose driver never comes up, on a job just started. *)
Lemma worker_exit_effects_witness :
  let env :=
    {| driver_ok := false;
       shuffle := fun tasks => tasks;
       executor := fun _ => true;
       cancel_before := fun _ => false;
       draw_wait := fun _ => 5;
       percent := fun a b => a * 100 / b;
       now_at := fun _ => "t1"%string |} in
  let start :=
    run_automation_async "t0" (100 # 1) "alice" ["a"; "b"] ["x"; "y"]
      [("like", true)] 5 15 3 (mkWorld ∅ ∅ ∅ ∅) in
  let state :=
    AutomationState_init "t0" (fst start) "alice" ["a"; "b"] ["x"; "y"]
      [("like", true)] 5 15 3 in
  let run :=
    automation_worker (order := insertion_order) env (fst start) 5 15 state
      (snd start) in
  has_task_record (fst start) (snd start) /\
  automation_states (snd start) !! fst start = Some state /\
  automation_states (snd run) !! fst start = None /\
  status_of (fst start) (snd run) = Some Error.
Proof.
  intros env start state run.
  assert (has_task_record (fst start) (snd start)) as Hrec.
  { unfold has_task_record. subst start. cbn. rewrite lookup_insert_eq. by eexists. }
  split; [exact Hrec|]. split.
  { subst start state. cbn. by rewrite lookup_insert_eq. }
  pose proof (worker_exit_effects (order := insertion_order) env (fst start)
                5 15 state (snd start) Hrec) as (Hgone & _ & _ & _ & Hexit).
  split; [exact Hgone|].
  change (fst (fst (automation_worker (order := insertion_order) env (fst start)
                      5 15 state (snd start)))) with NoDriver in Hexit.
  exact (proj1 Hexit).
Defined.


(* ===================================================================== *)
(** * Actions and retries *)
(* ===================================================================== *)

Lemma dict_set_new d k v :
  k ∉ (fst <$> d) -> dict_set d k v = d ++ [(k, v)].
Proof.
  induction d as [|[k' v'] d IH]; intros Hk; [done|].
  simpl in *. apply not_elem_of_cons in Hk as [Hne Hk].
  rewrite decide_False by done. by rewrite IH.
Qed.

Lemma execute_actions_from registered a acc (l : list (string * bool)) :
  NoDup (fst <$> (acc ++ l)) ->
  foldl (fun results entry =>
           dict_set results (fst entry)
             (run_action registered a (fst entry) (snd entry))) acc l =
  acc ++ ((fun entry => (fst entry, run_action registered a (fst entry) (snd entry)))
            <$> l).
Proof.
  revert acc. induction l as [|[k e] l IH]; intros acc Hnd; simpl.
  - by rewrite app_nil_r.
  - assert (k ∉ (fst <$> acc)) as Hk.
    { rewrite fmap_app in Hnd. apply NoDup_app in Hnd as (_ & Hdisj & _).
      intros Hin. apply (Hdisj _ Hin). simpl. by left. }
    rewrite dict_set_new by done.
    rewrite IH.
    + by rewrite <- app_assoc.
    + replace (fst <$> (acc ++ [(k, run_action registered a k e)]) ++ l)
        with (fst <$> acc ++ (k, e) :: l); [done|].
      rewrite !fmap_app. simpl. by rewrite <- app_assoc.
Qed.

Lemma run_action_true registered a name enabled :
  run_action registered a name enabled = true <->
  enabled = true /\ name ∈ registered /\
  can_execute a name = true /\ action_result a name = Some true.
Proof.
  unfold run_action. destruct enabled; simpl.
  2:{ split; [discriminate|]. by intros [? _]. }
  destruct (decide (name ∈ registered)) as [Hr|Hr].
  2:{ rewrite bool_decide_eq_false_2 by done. split; [discriminate|].
      by intros (_ & ? & _). }
  rewrite bool_decide_eq_true_2 by done.
  destruct (can_execute a name).
  2:{ split; [discriminate|]. by intros (_ & _ & ? & _). }
  destruct (action_result a name) as [[]|]; split; try done;
    intros (_ & _ & _ & ?); congruence.
Qed.

Lemma filter_length_eq_iff {A} (P Q : A -> Prop)
    `{!forall x, Decision (P x)} `{!forall x, Decision (Q x)} (l : list A) :
  (forall x, P x -> Q x) ->
  (length (filter P l) = length (filter Q l) <->
   forall x, x ∈ l -> Q x -> P x).
Proof.
  intros HPQ. induction l as [|a l IH].
  { split; [|done]. intros _ x Hx. by apply elem_of_nil in Hx. }
  rewrite !filter_cons.
  pose proof (length_filter P l) as HlenP.
  assert (length (filter P l) <= length (filter Q l))%nat as Hle.
  { clear IH HlenP. induction l as [|b l IHl]; [done|]. rewrite !filter_cons.
    destruct (decide (P b)) as [Hp|Hp]; destruct (decide (Q b)) as [Hq|Hq];
      simpl; try lia. exfalso. by apply Hq, HPQ. }
  destruct (decide (P a)) as [Hp|Hp]; destruct (decide (Q a)) as [Hq|Hq]; simpl.
  - split.
    + intros Hlen x [->|Hx]%elem_of_cons Hqx; [done|].
      apply IH; [lia|done..].
    + intros Hall. f_equal. apply IH. intros x Hx. apply Hall. by right.
  - exfalso. by apply Hq, HPQ.
  - split; [lia|]. intros Hall. exfalso. apply Hp, Hall; [by left|done].
  - split.
    + intros Hlen x [->|Hx]%elem_of_cons Hqx; [done|]. by apply IH.
    + intros Hall. apply IH. intros x Hx. apply Hall. by right.
Qed.

Lemma true_keys_results registered a actions :
  NoDup (fst <$> actions) ->
  length (true_keys (execute_actions registered a actions)) =
  length (filter (fun entry =>
                    run_action registered a (fst entry) (snd entry) = true)
            actions).
Proof.
  intros Hnd. unfold execute_actions, true_keys.
  rewrite (execute_actions_from registered a [] actions Hnd). simpl.
  rewrite length_fmap. clear Hnd.
  induction actions as [|[k e] l IH]; [done|].
  rewrite fmap_cons, !filter_cons. simpl.
  destruct (decide (run_action registered a k e = true)); simpl; by rewrite IH.
Qed.

(** The success test of one attempt, line 1348. *)
Lemma attempt_test registered a actions :
  NoDup (fst <$> actions) ->
  (length (true_keys (execute_actions registered a actions)) =
   length (true_keys actions) <->
   forall name, (name, true) ∈ actions ->
     name ∈ registered /\
     can_execute a name = true /\
     action_result a name = Some true).
Proof.
  intros Hnd. rewrite true_keys_results by done.
  unfold true_keys. rewrite length_fmap.
  rewrite (filter_length_eq_iff
             (fun entry => run_action registered a (fst entry) (snd entry) = true)
             (fun entry => snd entry = true)).
  2:{ intros [k e] H. by apply run_action_true in H as [? _]. }
  split.
  - intros Hall name Hin.
    specialize (Hall (name, true) Hin eq_refl). simpl in Hall.
    by apply run_action_true in Hall as (_ & ? & ? & ?).
  - intros Hall [k e] Hin He. simpl in *. subst e.
    apply run_action_true. split; [done|]. by apply Hall.
Qed.

(** X9: What [execute_actions] returns for a dict of flags: one result per
    flag, under the same names in the same order; a disabled action and an
    action the strategy does not know report [False]; an enabled, known
    action reports [True] only if it can execute and executes without
    raising, with result [True].  So the results count as many [True] as
    there are enabled flags exactly when every enabled action succeeded. *)
Theorem execute_actions_results (registered : list string) (a : Attempt)
    (actions : list (string * bool)) :
  NoDup (fst <$> actions) ->
  let results := execute_actions registered a actions in
  fst <$> results = (fst <$> actions) /\
  (forall name enabled,
     (name, enabled) ∈ actions ->
     (name, run_action registered a name enabled) ∈ results) /\
  (forall name result,
     (name, result) ∈ results ->
     exists enabled,
       (name, enabled) ∈ actions /\
       (result = true <->
        enabled = true /\ name ∈ registered /\
        can_execute a name = true /\ action_result a name = Some true)) /\
  (length (true_keys results) = length (true_keys actions) <->
   forall name, (name, true) ∈ actions ->
     name ∈ registered /\
     can_execute a name = true /\
     action_result a name = Some true).
Proof.
  intros Hnd results. subst results.
  split; [|split; [|split; [|by apply attempt_test]]];
    unfold execute_actions;
    rewrite (execute_actions_from registered a [] actions Hnd); simpl.
  - rewrite <- list_fmap_compose. by apply list_fmap_ext.
  - intros name enabled Hin. apply list_elem_of_fmap.
    exists (name, enabled). by split.
  - intros name result ([k e] & [= -> ->] & Hin)%list_elem_of_fmap.
    exists e. split; [done|]. apply run_action_true.
Qed.

(** Like enabled, retweet disabled, on a page where liking works. *)
Lemma execute_actions_results_witness :
  let a := mkAttempt true (fun _ => true) (fun _ => Some true) in
  let actions := [("like"%string, true); ("retweet"%string, false)] in
  NoDup (fst <$> actions) /\
  (fst <$> execute_actions standard_actions a actions) = ["like"%string; "retweet"%string].
Proof.
  intros a actions.
  assert (NoDup (fst <$> actions)) as Hnd
    by (apply (bool_decide_unpack _); vm_compute; exact I).
  split; [exact Hnd|].
  apply (execute_actions_results standard_actions a actions Hnd).
Defined.

Section RetryFacts.
Variable registered : list string.
Variable attempts : nat -> Attempt.
Variable actions : list (string * bool).
Variable max_retries : Z.
Hypothesis unique_names : NoDup (fst <$> actions).

Lemma attempt_succeeds_test (i : nat) :
  attempt_succeeds registered (attempts i) actions <->
  page_loads (attempts i) = true /\
  (length (true_keys (execute_actions registered (attempts i) actions)) =?
   length (true_keys actions))%nat = true.
Proof.
  unfold attempt_succeeds. rewrite Nat.eqb_eq.
  by rewrite (attempt_test registered (attempts i) actions unique_names).
Qed.

Lemma try_attempts_seq (a len : nat) :
  (a + len = Z.to_nat max_retries)%nat ->
  let r := try_attempts registered attempts actions max_retries (seq a len) in
  (fst r = true <->
   exists i : nat, (a <= i < a + len)%nat /\
                   attempt_succeeds registered (attempts i) actions) /\
  (length (snd r) <= len)%nat.
Proof.
  revert a. induction len as [|len IH]; intros a Hlen.
  { simpl. split; [|done]. split; [discriminate|]. intros (i & Hi & _). lia. }
  cbn [seq try_attempts].
  destruct (IH (S a)) as [IHr IHl]; [lia|].
  pose proof (attempt_succeeds_test a) as Htest.
  assert ((exists i : nat, (a <= i < a + S len)%nat /\
             attempt_succeeds registered (attempts i) actions) <->
          attempt_succeeds registered (attempts a) actions \/
          exists i : nat, (S a <= i < S a + len)%nat /\
             attempt_succeeds registered (attempts i) actions) as Hsplit.
  { split.
    - intros (i & Hi & Hs). destruct (decide (i = a)) as [->|Hne]; [by left|].
      right. exists i. split; [lia|done].
    - intros [Hs|(i & Hi & Hs)]; [exists a|exists i]; (split; [lia|done]). }
  rewrite Hsplit.
  assert ((Z.of_nat a <? max_retries - 1) = false -> len = 0%nat) as Hlast.
  { intros H%Z.ltb_ge. lia. }
  destruct (page_loads (attempts a)) eqn:Hpage.
  - destruct (length _ =? length _)%nat eqn:Hcount.
    + simpl. split; [|lia]. split; [|done]. intros _. left. by apply Htest.
    + assert (~ attempt_succeeds registered (attempts a) actions) as Hfail.
      { intros Hs. apply Htest in Hs as [_ Hs]. congruence. }
      destruct (Z.of_nat a <? max_retries - 1) eqn:Hmore.
      * destruct (try_attempts registered attempts actions max_retries
                    (seq (S a) len)) as [result lines] eqn:Htry.
        cbn [fst snd length] in *. split; [|lia]. rewrite IHr. tauto.
      * cbn [fst snd]. rewrite (Hlast eq_refl) in *. split; [|done].
        split; [discriminate|]. intros [Hs|(i & Hi & _)]; [done|lia].
  - assert (~ attempt_succeeds registered (attempts a) actions) as Hfail.
    { intros Hs. apply Htest in Hs as [Hs _]. congruence. }
    destruct (Z.of_nat a <? max_retries - 1) eqn:Hmore.
    + destruct (try_attempts registered attempts actions max_retries
                  (seq (S a) len)) as [result lines] eqn:Htry.
      cbn [fst snd length] in *. split; [|lia]. rewrite IHr. tauto.
    + cbn [fst snd]. rewrite (Hlast eq_refl) in *. split; [|done].
      split; [discriminate|]. intros [Hs|(i & Hi & _)]; [done|lia].
Qed.
End RetryFacts.

(** X10: The result of [_process_tweet_with_retries]: [True] exactly when one of
    the first [max_retries] attempts succeeds, that is, the page loads and
    every enabled action is known to the strategy, can execute and reports
    success.  With [max_retries] zero or negative nothing is attempted and
    the result is [False]; an enabled action the strategy does not know
    makes the result [False] whatever the browser does; and at most one
    line per attempt is logged. *)
Theorem process_tweet_with_retries_result (registered : list string)
    (attempts : nat -> Attempt) (actions : list (string * bool))
    (max_retries : Z) :
  NoDup (fst <$> actions) ->
  let r := _process_tweet_with_retries registered attempts actions max_retries in
  (fst r = true <->
   exists i : nat,
     Z.of_nat i < max_retries /\
     attempt_succeeds registered (attempts i) actions) /\
  (max_retries <= 0 -> r = (false, [])) /\
  ((exists name, (name, true) ∈ actions /\ name ∉ registered) ->
   fst r = false) /\
  Z.of_nat (length (snd r)) <= Z.max 0 max_retries.
Proof.
  intros Hnd r. subst r. unfold _process_tweet_with_retries.
  destruct (try_attempts_seq registered attempts actions max_retries Hnd
              0 (Z.to_nat max_retries)) as [Hr Hl]; [done|].
  assert (fst (try_attempts registered attempts actions max_retries
                 (seq 0 (Z.to_nat max_retries))) = true <->
          exists i : nat, Z.of_nat i < max_retries /\
            attempt_succeeds registered (attempts i) actions) as Hiff.
  { rewrite Hr. split; intros (i & Hi & Hs); exists i; (split; [lia|done]). }
  split; [exact Hiff|]. split.
  { intros Hle. replace (Z.to_nat max_retries) with 0%nat by lia. done. }
  split; [|lia].
  intros (name & Hin & Hnot).
  destruct (fst (try_attempts _ _ _ _ _)) eqn:Hres; [|done].
  destruct (proj1 Hiff eq_refl) as (i & _ & _ & Hall).
  by destruct (Hall name Hin) as [? _].
Qed.

(** Two attempts allowed, the second one succeeds. *)
Lemma process_tweet_with_retries_result_witness :
  let attempts := fun i : nat =>
    mkAttempt (bool_decide (i = 1%nat)) (fun _ => true) (fun _ => Some true) in
  let actions := [("like"%string, true); ("retweet"%string, false)] in
  NoDup (fst <$> actions) /\
  _process_tweet_with_retries standard_actions attempts actions 2 =
    (true, [RetryRaised 1]) /\
  _process_tweet_with_retries standard_actions attempts actions (-1) = (false, []).
Proof.
  intros attempts actions.
  assert (NoDup (fst <$> actions)) as Hnd
    by (apply (bool_decide_unpack _); vm_compute; exact I).
  split; [exact Hnd|]. split; [vm_compute; reflexivity|].
  apply (process_tweet_with_retries_result standard_actions attempts actions
           (-1) Hnd). lia.
Defined.

Lemma has_content_spec content :
  has_content content = true <->
  exists text, content = Some text /\ strip text <> EmptyString.
Proof.
  destruct content as [text|]; simpl.
  2:{ split; [discriminate|]. by intros (? & ? & _). }
  split.
  - intros [_ Hs]%andb_true_iff. exists text. split; [done|].
    intros Heq. rewrite Heq in Hs. discriminate.
  - intros (text' & [= <-] & Hs). apply andb_true_iff.
    assert (truthy (strip text) = true) as Ht
      by (destruct (strip text); [done|reflexivity]).
    split; [|exact Ht]. destruct text; [done|reflexivity].
Qed.

Lemma scrape_attempts_seq attempts (start len : nat) :
  match scrape_attempts attempts (seq start len) with
  | Some text =>
      exists i : nat, (start <= i < start + len)%nat /\
        attempts i = ScrapeReturns (Some text) /\
        strip text <> EmptyString /\
        forall j, (start <= j < i)%nat -> ~ scrape_succeeds (attempts j)
  | None =>
      forall i : nat, (start <= i < start + len)%nat ->
        ~ scrape_succeeds (attempts i)
  end.
Proof.
  revert start. induction len as [|len IH]; intros start; simpl.
  { intros i Hi. lia. }
  specialize (IH (S start)).
  assert (has_content_of : forall c, attempts start = ScrapeReturns c ->
            has_content c = false -> ~ scrape_succeeds (attempts start)).
  { intros c Hc Hno (text & Heq & Hs). rewrite Hc in Heq. injection Heq as ->.
    assert (has_content (Some text) = true) as Hyes
      by (apply has_content_spec; eauto).
    congruence. }
  assert (Hrest : ~ scrape_succeeds (attempts start) ->
    match scrape_attempts attempts (seq (S start) len) with
    | Some text =>
        exists i : nat, (start <= i < start + S len)%nat /\
          attempts i = ScrapeReturns (Some text) /\
          strip text <> EmptyString /\
          forall j, (start <= j < i)%nat -> ~ scrape_succeeds (attempts j)
    | None =>
        forall i : nat, (start <= i < start + S len)%nat ->
          ~ scrape_succeeds (attempts i)
    end).
  { intros Hfail. destruct (scrape_attempts attempts (seq (S start) len)) as [text|].
    - destruct IH as (i & Hi & Ha & Hs & Hbefore). exists i.
      split; [lia|]. split; [done|]. split; [done|].
      intros j Hj. destruct (decide (j = start)) as [->|Hne]; [done|].
      apply Hbefore. lia.
    - intros i Hi. destruct (decide (i = start)) as [->|Hne]; [done|].
      apply IH. lia. }
  destruct (attempts start) as [|content] eqn:Ha.
  - apply Hrest. by intros (? & ? & _).
  - destruct (has_content content) eqn:Hc.
    + apply has_content_spec in Hc as (text & -> & Hs).
      exists start. split; [lia|]. split; [done|]. split; [done|].
      intros j Hj. lia.
    + apply Hrest. by eapply has_content_of.
Qed.

(** X11: The result of [_scrape_with_retries]: the text returned by the first of
    the first [max_retries] attempts that returns text with something other
    than white space in it, the text as returned (not trimmed); [None] when
    none of them does, in particular when [max_retries] is zero or
    negative. *)
Theorem scrape_with_retries_result (attempts : nat -> ScrapeAttempt)
    (max_retries : Z) :
  match _scrape_with_retries attempts max_retries with
  | Some text =>
      exists i : nat,
        Z.of_nat i < max_retries /\
        attempts i = ScrapeReturns (Some text) /\
        strip text <> EmptyString /\
        forall j, (j < i)%nat -> ~ scrape_succeeds (attempts j)
  | None =>
      forall i : nat, Z.of_nat i < max_retries ->
        ~ scrape_succeeds (attempts i)
  end.
Proof.
  unfold _scrape_with_retries.
  pose proof (scrape_attempts_seq attempts 0 (Z.to_nat max_retries)) as H.
  destruct (scrape_attempts attempts (seq 0 (Z.to_nat max_retries))) as [text|].
  - destruct H as (i & Hi & Ha & Hs & Hbefore). exists i.
    split; [lia|]. split; [done|]. split; [done|].
    intros j Hj. apply Hbefore. lia.
  - intros i Hi. apply H. lia.
Qed.

(* ===================================================================== *)
(** * Recovery and inverted waits at concrete jobs *)
(* ===================================================================== *)

(** Recovery of a job of two items of which the first was processed. *)
Lemma recover_automation_resumes_witness :
  let st :=
    mark_task_processed "t1"
      (AutomationState_init "t0" "job" "alice" ["a"; "b"] ["x"; "y"]
         [("like", true)] 5 15 3) 0 true in
  let d := state_data_of (order := insertion_order) st in
  let w := mkWorld ∅ ∅ ∅ (save_state (order := insertion_order) st ∅) in
  let r := recover_automation "t2" (200 # 1) "job" w in
  contiguous (sd_paired_tasks d) /\
  Forall stored_trimmed (sd_paired_tasks d) /\
  status_of "job" w <> Some Running /\
  fst r = Recovered (automation_id (200 # 1)) 1 /\
  files (snd r) !! state_file "job" = None.
Proof.
  intros st d w r.
  assert (contiguous (sd_paired_tasks d)) as Hc by reflexivity.
  assert (Forall stored_trimmed (sd_paired_tasks d)) as Ht.
  { repeat constructor; discriminate. }
  assert (status_of "job" w <> Some Running) as Hs by discriminate.
  split; [exact Hc|]. split; [exact Ht|]. split; [exact Hs|].
  destruct (recover_automation_resumes "t2" (200 # 1) "job" w d)
    as (Hr & _ & _ & Hgone).
  - reflexivity.
  - reflexivity.
  - exact Hs.
  - exact Hc.
  - exact Ht.
  - discriminate.
  - split; [exact Hr|exact Hgone].
Defined.

(** A job of two items started with waits 10 and 5. *)
Lemma worker_inverted_waits_raise_witness :
  let env :=
    {| driver_ok := true;
       shuffle := fun tasks => tasks;
       executor := fun _ => true;
       cancel_before := fun _ => false;
       draw_wait := fun _ => 5;
       percent := fun a b => a * 100 / b;
       now_at := fun _ => "t1"%string |} in
  let start :=
    run_automation_async "t0" (100 # 1) "alice" ["a"; "b"] ["x"; "y"]
      [("like", true)] 10 5 3 (mkWorld ∅ ∅ ∅ ∅) in
  let state :=
    AutomationState_init "t0" (fst start) "alice" ["a"; "b"] ["x"; "y"]
      [("like", true)] 10 5 3 in
  let run :=
    automation_worker (order := insertion_order) env (fst start) 10 5 state
      (snd start) in
  has_task_record (fst start) (snd start) /\
  5 < 10 /\
  (2 <= length (shuffle env (get_remaining_tasks state)))%nat /\
  fst (fst run) = Raised /\
  status_of (fst start) (snd run) = Some Error.
Proof.
  intros env start state run.
  assert (has_task_record (fst start) (snd start)) as Hrec.
  { unfold has_task_record. subst start. cbn. rewrite lookup_insert_eq. by eexists. }
  assert (5 < 10) as Hlt by lia.
  assert (2 <= length (shuffle env (get_remaining_tasks state)))%nat as Hlen
    by (vm_compute; lia).
  split; [exact Hrec|]. split; [exact Hlt|]. split; [exact Hlen|].
  apply (worker_inverted_waits_raise (order := insertion_order) env (fst start)
           10 5 state (snd start) Hrec).
  - unfold status_of. subst start. cbn. rewrite lookup_insert_eq. discriminate.
  - reflexivity.
  - reflexivity.
  - exact Hlt.
  - exact Hlen.
Defined.

(* ===================================================================== *)
(** * Jobs without blank targets *)
(* ===================================================================== *)

Lemma mark_all_paired_tasks st calls :
  paired_tasks (mark_all st calls) = paired_tasks st.
Proof.
  revert st. induction calls as [|[[now i] b] calls IH]; intros st; [done|].
  unfold mark_all in *. simpl. by rewrite IH.
Qed.

Lemma omap_seq_none {B} (f : nat -> option B) (k n : nat) :
  (forall i, (k <= i)%nat -> f i = None) -> omap f (seq k n) = [].
Proof.
  revert k. induction n as [|n IH]; intros k Hf; [done|].
  simpl. rewrite (Hf k) by lia. apply IH. intros i Hi. apply Hf. lia.
Qed.

Lemma create_paired_tasks_no_blank tl rc :
  Forall (fun s => strip s <> EmptyString) tl ->
  _create_paired_tasks tl rc =
  imap (fun i s => {| index := Z.of_nat i;
                      tweet_url := strip s;
                      comment := strip (get_or_empty rc i);
                      original_tweet_index := Z.of_nat i;
                      original_comment_index := Z.of_nat i |}) tl.
Proof.
  intros Hl. rewrite create_paired_tasks_omap.
  replace (Nat.max (length tl) (length rc))
    with (length tl + (Nat.max (length tl) (length rc) - length tl))%nat by lia.
  rewrite seq_app, omap_app. simpl.
  rewrite (omap_seq_none _ (length tl)).
  2:{ intros i Hi. unfold paired_task_at, get_or_empty.
      by rewrite (lookup_ge_None_2 tl i) by lia. }
  rewrite app_nil_r.
  rewrite (omap_seq_imap _
             (fun i s => {| index := Z.of_nat i;
                            tweet_url := strip s;
                            comment := strip (get_or_empty rc i);
                            original_tweet_index := Z.of_nat i;
                            original_comment_index := Z.of_nat i |}) tl 0);
    [done|].
  intros i s Hs. simpl. unfold paired_task_at, get_or_empty. rewrite Hs. simpl.
  rewrite Forall_forall in Hl.
  assert (strip s <> EmptyString) as Hne
    by (apply Hl; by eapply list_elem_of_lookup_2).
  apply truthy_true in Hne. by rewrite Hne.
Qed.

Lemma imap_index_contiguous (f : nat -> string -> PairedTask) (l : list string) :
  (forall i s, index (f i s) = Z.of_nat i) ->
  contiguous (imap f l).
Proof.
  intros Hf. unfold contiguous. rewrite length_imap.
  apply list_eq. intros i. rewrite !list_lookup_fmap, list_lookup_imap.
  destruct (l !! i) as [s|] eqn:Hs; simpl.
  - rewrite lookup_seq_lt by (by eapply lookup_lt_Some). simpl. by rewrite Hf.
  - rewrite lookup_seq_ge; [done|]. by apply lookup_ge_None.
Qed.

(** X12: A job none of whose targets is blank, after any sequence of [mark]
    calls: it has one work item per target, the item at position [i]
    carrying index [i], the trimmed target and the trimmed annotation of
    that position (empty when the annotations ran out), and
    [get_remaining_tasks] returns exactly the items whose index was never
    marked, in order. *)
Theorem job_without_blank_targets (now id profile : string)
    (tl rc : list string) (acts : list (string * bool)) (mn mx retries : Z)
    (calls : list (string * Z * bool)) :
  Forall (fun s => strip s <> EmptyString) tl ->
  let st :=
    mark_all (AutomationState_init now id profile tl rc acts mn mx retries)
      calls in
  length (paired_tasks st) = length tl /\
  (forall (i : nat) s, tl !! i = Some s ->
     paired_tasks st !! i =
       Some {| index := Z.of_nat i;
               tweet_url := strip s;
               comment := strip (get_or_empty rc i);
               original_tweet_index := Z.of_nat i;
               original_comment_index := Z.of_nat i |}) /\
  get_remaining_tasks st =
    filter (fun t => index t ∉ marked true calls ∪ marked false calls)
           (paired_tasks st).
Proof.
  intros Hl st.
  assert (paired_tasks st =
          imap (fun i s => {| index := Z.of_nat i;
                              tweet_url := strip s;
                              comment := strip (get_or_empty rc i);
                              original_tweet_index := Z.of_nat i;
                              original_comment_index := Z.of_nat i |}) tl)
    as Hpt.
  { subst st. rewrite mark_all_paired_tasks. simpl.
    by apply create_paired_tasks_no_blank. }
  split; [by rewrite Hpt, length_imap|]. split.
  { intros i s Hs. by rewrite Hpt, list_lookup_imap, Hs. }
  rewrite get_remaining_tasks_contiguous
    by (rewrite Hpt; by apply imap_index_contiguous).
  unfold remaining_by_index. apply list_filter_iff. intros t.
  destruct (mark_all_sets
              (AutomationState_init now id profile tl rc acts mn mx retries)
              calls) as (Hp & _).
  fold st in Hp.
  assert (members (processed_tasks st) =
          marked true calls ∪ marked false calls) as Hp'
    by (rewrite Hp; apply (union_empty_l_L (C := gset Z))).
  rewrite <- Hp'. unfold members. by rewrite elem_of_list_to_set.
Qed.

(** Two targets, the second item marked. *)
Lemma job_without_blank_targets_witness :
  let st :=
    mark_all
      (AutomationState_init "t0" "job" "alice" ["a"; " b "] ["x"]
         [("like", true)] 5 15 3)
      [("t1", 1, true)] in
  Forall (fun s => strip s <> EmptyString) ["a"; " b "]%string /\
  paired_tasks st !! 1%nat = Some (mkPairedTask 1 "b" "" 1 1) /\
  length (paired_tasks st) = 2%nat.
Proof.
  intros st.
  assert (Forall (fun s => strip s <> EmptyString) ["a"; " b "]%string) as Hl
    by (repeat constructor; discriminate).
  split; [exact Hl|].
  destruct (job_without_blank_targets "t0" "job" "alice" ["a"; " b "] ["x"]
              [("like", true)] 5 15 3 [("t1", 1, true)] Hl)
    as (Hlen & Hat & _).
  split; [exact (Hat 1%nat " b "%string eq_refl)|exact Hlen].
Defined.

(* ===================================================================== *)
(** * The counts and rates of [get_progress_stats] *)
(* ===================================================================== *)

Lemma set_len_members s : NoDup s -> set_len s = Z.of_nat (size (members s)).
Proof.
  intros Hnd. unfold set_len, members. by rewrite size_list_to_set.
Qed.

Lemma size_union_intersection (X Y : gset Z) :
  (size (X ∪ Y) + size (X ∩ Y) = size X + size Y)%nat.
Proof.
  rewrite size_union_alt, size_difference_alt.
  assert (size (Y ∩ X) <= size Y)%nat
    by (apply subseteq_size, intersection_subseteq_l).
  replace (X ∩ Y) with (Y ∩ X) by (apply (comm_L (∩))). lia.
Qed.

Lemma percent_of_mono (a b total : Z) :
  a <= b -> (percent_of a total <= percent_of b total)%Q.
Proof.
  intros Hab. unfold percent_of. destruct (0 <? total) eqn:Ht.
  2:{ apply Qle_refl. }
  apply Z.ltb_lt in Ht. destruct total as [|p|p]; try lia.
  unfold Qle, Qmult, Qdiv, Qinv, inject_Z. simpl. nia.
Qed.

Lemma percent_of_zero (total : Z) : (percent_of 0 total == 0)%Q.
Proof.
  unfold percent_of. destruct (0 <? total) eqn:Ht; [|reflexivity].
  apply Z.ltb_lt in Ht. destruct total as [|p|p]; try lia.
  unfold Qeq, Qmult, Qdiv, Qinv, inject_Z. simpl. lia.
Qed.

Lemma percent_of_all (total : Z) : (percent_of total total <= 100)%Q.
Proof.
  unfold percent_of. destruct (0 <? total) eqn:Ht; [|discriminate].
  apply Z.ltb_lt in Ht. destruct total as [|p|p]; try lia.
  unfold Qle, Qmult, Qdiv, Qinv, inject_Z. simpl. nia.
Qed.

(** X13: The dict of [get_progress_stats] on a job after any sequence of [mark]
    calls.  The counts of successes and failures add up to the processed
    count plus the number of indices marked both ways, neither exceeds the
    processed count, and the success rate is at most the progress
    percentage; with no work items both rates are 0 (no division is made).
    When every marked index is the index of a work item, as the worker's
    are, the processed count is at most the total, the remaining count is
    not negative and the progress percentage is at most 100. *)
Theorem progress_stats_accounting (now id profile : string)
    (tl rc : list string) (acts : list (string * bool)) (mn mx retries : Z)
    (calls : list (string * Z * bool)) :
  let st0 := AutomationState_init now id profile tl rc acts mn mx retries in
  let stats := get_progress_stats (mark_all st0 calls) in
  successful_count stats + failed_count stats =
    processed_count stats +
    Z.of_nat (size (marked true calls ∩ marked false calls)) /\
  0 <= successful_count stats <= processed_count stats /\
  0 <= failed_count stats <= processed_count stats /\
  (0 <= success_rate stats)%Q /\
  (success_rate stats <= progress_percentage stats)%Q /\
  (total_tasks stats = 0 ->
   success_rate stats = inject_Z 0 /\ progress_percentage stats = inject_Z 0) /\
  ((forall c, c ∈ calls -> c.1.2 ∈ index <$> paired_tasks st0) ->
   processed_count stats <= total_tasks stats /\
   0 <= remaining_count stats /\
   (progress_percentage stats <= 100)%Q).
Proof.
  intros st0 stats.
  set (st := mark_all st0 calls) in *.
  destruct (mark_all_sets_wf st0 calls) as (Hnp & Hns & Hnf);
    [apply init_sets_wf|].
  destruct (mark_all_sets st0 calls) as (Hp & Hs & Hf).
  fold st in Hnp, Hns, Hnf, Hp, Hs, Hf.
  assert (members (processed_tasks st) =
          marked true calls ∪ marked false calls) as Hp'
    by (rewrite Hp; apply (union_empty_l_L (C := gset Z))).
  assert (members (successful_tasks st) = marked true calls) as Hs'
    by (rewrite Hs; apply (union_empty_l_L (C := gset Z))).
  assert (members (failed_tasks st) = marked false calls) as Hf'
    by (rewrite Hf; apply (union_empty_l_L (C := gset Z))).
  clear Hp Hs Hf.
  assert (processed_count stats =
          Z.of_nat (size (marked true calls ∪ marked false calls))) as Ep
    by (subst stats; simpl; by rewrite set_len_members, Hp').
  assert (successful_count stats = Z.of_nat (size (marked true calls))) as Es
    by (subst stats; simpl; by rewrite set_len_members, Hs').
  assert (failed_count stats = Z.of_nat (size (marked false calls))) as Ef
    by (subst stats; simpl; by rewrite set_len_members, Hf').
  pose proof (size_union_intersection (marked true calls) (marked false calls))
    as Hsize.
  assert (size (marked true calls) <=
          size (marked true calls ∪ marked false calls))%nat as Hle1
    by (apply subseteq_size, union_subseteq_l).
  assert (size (marked false calls) <=
          size (marked true calls ∪ marked false calls))%nat as Hle2
    by (apply subseteq_size, union_subseteq_r).
  assert (success_rate stats =
          percent_of (successful_count stats) (total_tasks stats)) as Er
    by reflexivity.
  assert (progress_percentage stats =
          percent_of (processed_count stats) (total_tasks stats)) as Eg
    by reflexivity.
  split; [lia|]. split; [lia|]. split; [lia|]. split.
  { rewrite Er. rewrite <- (percent_of_zero (total_tasks stats)).
    apply percent_of_mono. lia. }
  split.
  { rewrite Er, Eg. apply percent_of_mono. lia. }
  split.
  { intros Ht. rewrite Er, Eg. unfold percent_of. by rewrite Ht. }
  intros Hin.
  assert (processed_count stats <= total_tasks stats) as Hbound.
  { rewrite Ep. subst stats. cbn [total_tasks get_progress_stats].
    subst st. rewrite mark_all_paired_tasks.
    assert (NoDup (index <$> paired_tasks st0)) as Hnd
      by (apply sorted_lt_NoDup, created_sorted).
    rewrite <- (length_fmap index).
    rewrite <- (size_list_to_set (C := gset Z) _ Hnd).
    apply inj_le, subseteq_size. intros i.
    rewrite elem_of_union, elem_of_list_to_set. unfold marked.
    rewrite !elem_of_list_to_set.
    intros [(c & -> & [_ Hc]%list_elem_of_filter)%list_elem_of_fmap
           |(c & -> & [_ Hc]%list_elem_of_filter)%list_elem_of_fmap];
      by apply Hin. }
  split; [exact Hbound|]. split.
  { assert (remaining_count stats =
            total_tasks stats - processed_count stats) as Erem by reflexivity.
    lia. }
  rewrite Eg.
  eapply Qle_trans; [apply percent_of_mono, Hbound|apply percent_of_all].
Qed.

(** Three items, the first marked both ways and the third marked once. *)
Lemma progress_stats_accounting_witness :
  let st0 :=
    AutomationState_init "t0" "job" "alice" ["a"; "b"; "c"] ["x"; "y"]
      [("like", true)] 5 15 3 in
  let calls := [("t1"%string, 0, true); ("t2"%string, 0, false);
                ("t3"%string, 2, true)] in
  let stats := get_progress_stats (mark_all st0 calls) in
  (forall c, c ∈ calls -> c.1.2 ∈ index <$> paired_tasks st0) /\
  processed_count stats = 2 /\
  successful_count stats + failed_count stats = 3 /\
  0 <= remaining_count stats.
Proof.
  intros st0 calls stats.
  assert (forall c, c ∈ calls -> c.1.2 ∈ index <$> paired_tasks st0) as Hin.
  { intros c Hc. subst calls.
    repeat (apply elem_of_cons in Hc as [->|Hc]);
      [| | |by apply elem_of_nil in Hc];
      apply (bool_decide_unpack _); vm_compute; exact I. }
  split; [exact Hin|]. split; [reflexivity|]. split; [reflexivity|].
  apply (progress_stats_accounting "t0" "job" "alice" ["a"; "b"; "c"] ["x"; "y"]
           [("like", true)] 5 15 3 calls). exact Hin.
Defined.

(* ===================================================================== *)
(** * One snapshot file per job id *)
(* ===================================================================== *)

Lemma string_app_length (s t : string) :
  String.length (s +:+ t) = (String.length s + String.length t)%nat.
Proof. induction s as [|c s IH]; simpl; [done|]. by rewrite IH. Qed.

Lemma string_app_inj_r (s1 s2 t : string) : s1 +:+ t = s2 +:+ t -> s1 = s2.
Proof.
  revert s2. induction s1 as [|c s1 IH]; intros [|c2 s2] H.
  - done.
  - apply (f_equal String.length) in H.
    rewrite !string_app_length in H. simpl in H. lia.
  - apply (f_equal String.length) in H.
    rewrite !string_app_length in H. simpl in H. lia.
  - change (String c (s1 +:+ t) = String c2 (s2 +:+ t)) in H.
    injection H as -> H. f_equal. by apply IH.
Qed.

Lemma state_file_inj id1 id2 : state_file id1 = state_file id2 -> id1 = id2.
Proof.
  unfold state_file. intros H.
  apply (inj (String.app "automation_state_")) in H.
  by apply string_app_inj_r in H.
Qed.

Lemma cleanup_lookup st fs path :
  cleanup st fs !! path =
  if decide (path = state_file (task_id st)) then None else fs !! path.
Proof.
  unfold cleanup. cbv zeta.
  destruct (decide (path = state_file (task_id st))) as [->|Hne].
  - destruct (fs !! state_file (task_id st)) eqn:Hf; [|done].
    apply lookup_delete_eq.
  - destruct (fs !! state_file (task_id st)); [|done].
    by apply lookup_delete_ne.
Qed.

(** X14: Snapshot files are per job: the file name determines the job id, so
    saving or cleaning up one job leaves what [load_state] returns for
    every other id unchanged.  After [cleanup] the job's own id loads
    nothing, whether or not a snapshot had been saved, and a second
    [cleanup] changes nothing. *)
Theorem snapshot_files_per_job {order : PySetOrder} (now : string)
    (st : AutomationState) (id : string) (fs : gmap string file) :
  id <> task_id st ->
  state_file id <> state_file (task_id st) /\
  load_state now (save_state st fs) id = load_state now fs id /\
  load_state now (cleanup st fs) id = load_state now fs id /\
  load_state now (cleanup st fs) (task_id st) = None /\
  load_state now (cleanup st (save_state st fs)) (task_id st) = None /\
  load_state now (cleanup st (save_state st fs)) id = load_state now fs id /\
  cleanup st (cleanup st fs) = cleanup st fs.
Proof.
  intros Hid.
  assert (state_file id <> state_file (task_id st)) as Hne
    by (intros H; by apply Hid, state_file_inj).
  split; [exact Hne|].
  assert (forall fs', load_state now (cleanup st fs') id = load_state now fs' id)
    as Hother.
  { intros fs'. unfold load_state. rewrite cleanup_lookup.
    by rewrite decide_False. }
  assert (forall fs', load_state now (cleanup st fs') (task_id st) = None)
    as Hown.
  { intros fs'. unfold load_state. rewrite cleanup_lookup.
    by rewrite decide_True. }
  assert (load_state now (save_state st fs) id = load_state now fs id) as Hsave.
  { unfold load_state, save_state. cbv zeta. by rewrite lookup_insert_ne. }
  split; [exact Hsave|]. split; [apply Hother|]. split; [apply Hown|].
  split; [apply Hown|]. split; [by rewrite Hother|].
  apply map_eq. intros path. rewrite !cleanup_lookup.
  by destruct (decide (path = state_file (task_id st))).
Qed.

(** Two jobs, one of them saved and then cleaned up. *)
Lemma snapshot_files_per_job_witness :
  let st1 :=
    AutomationState_init "t0" "automation_1" "alice" ["a"] ["x"]
      [("like", true)] 5 15 3 in
  let st2 :=
    AutomationState_init "t1" "automation_2" "bob" ["b"] ["y"]
      [("like", true)] 5 15 3 in
  let fs := save_state (order := insertion_order) st1 ∅ in
  "automation_1"%string <> task_id st2 /\
  is_Some (load_state "t2" (cleanup st2 (save_state (order := insertion_order) st2 fs))
             "automation_1") /\
  load_state "t2" (cleanup st2 (save_state (order := insertion_order) st2 fs))
    "automation_2" = None.
Proof.
  intros st1 st2 fs.
  assert ("automation_1"%string <> task_id st2) as Hid by discriminate.
  split; [exact Hid|].
  destruct (snapshot_files_per_job (order := insertion_order) "t2" st2
              "automation_1" fs Hid) as (_ & _ & _ & _ & Hown & Hother & _).
  split; [|exact Hown].
  rewrite Hother. subst fs. unfold load_state, save_state. cbv zeta.
  change (state_file (task_id st1)) with (state_file "automation_1").
  rewrite lookup_insert_eq. by eexists.
Defined.

(* ===================================================================== *)
(** * Saving in place *)
(* ===================================================================== *)

Lemma open_for_writing_unreadable now path id fs :
  path = state_file id -> load_state now (open_for_writing path fs) id = None.
Proof.
  intros ->. unfold load_state, open_for_writing. by rewrite lookup_insert_eq.
Qed.

(** C9, as the code has it: both saves rewrite the final file in place,
    first opening it for writing, which empties it, then dumping.  No other
    path is written at either stage, so there is no temporary file and no
    rename.  The last stage is the save as a whole: the new snapshot, or
    the new store, is loaded from it.  At the stage before, the file cannot
    be parsed: [AutomationState.load_state] returns [None] and
    [TaskStateManager.load_state] the empty store, whatever was stored
    before.  The in-memory store, which the status reads consult, holds the
    mutated records at both stages. *)
Theorem save_in_place {order : PySetOrder} (now : string)
    (st : AutomationState) (fs : gmap string file)
    (tasks : gmap string TaskRecord) (w : World) :
  (exists opened,
     save_state_stages st fs = [opened; save_state st fs] /\
     opened !! state_file (task_id st) = Some Unreadable /\
     load_state now opened (task_id st) = None /\
     load_state now (save_state st fs) (task_id st) =
       Some (restore now (state_data_of st)) /\
     (forall stage path,
        stage ∈ save_state_stages st fs ->
        path <> state_file (task_id st) ->
        stage !! path = fs !! path)) /\
  (exists opened,
     with_tasks_stages tasks w = [opened; with_tasks tasks w] /\
     files opened !! task_state_file = Some Unreadable /\
     load_task_state (files opened) = ∅ /\
     load_task_state (files (with_tasks tasks w)) = tasks /\
     (forall stage,
        stage ∈ with_tasks_stages tasks w ->
        task_status stage = tasks /\
        forall path, path <> task_state_file ->
          files stage !! path = files w !! path)).
Proof.
  split.
  - exists (open_for_writing (state_file (task_id st)) fs).
    split.
    { unfold save_state_stages, save_state, open_for_writing. cbv zeta.
      by rewrite insert_insert_eq. }
    split; [apply lookup_insert_eq|].
    split; [by apply open_for_writing_unreadable|].
    split; [apply load_state_saved|].
    intros stage path Hin Hne.
    unfold save_state_stages, open_for_writing in Hin. cbv zeta in Hin.
    apply elem_of_cons in Hin as [->|Hin].
    { by apply lookup_insert_ne. }
    apply elem_of_cons in Hin as [->|Hin]; [|by apply elem_of_nil in Hin].
    rewrite lookup_insert_ne by done. by apply lookup_insert_ne.
  - eexists. split.
    { unfold with_tasks_stages, with_tasks, open_for_writing. cbv zeta.
      rewrite insert_insert_eq. reflexivity. }
    split; [apply lookup_insert_eq|].
    split.
    { unfold load_task_state. cbn [files]. by rewrite lookup_insert_eq. }
    split.
    { unfold load_task_state, with_tasks. cbn [files].
      by rewrite lookup_insert_eq. }
    intros stage Hin.
    unfold with_tasks_stages, open_for_writing in Hin. cbv zeta in Hin.
    apply elem_of_cons in Hin as [->|Hin].
    { split; [done|]. intros path Hne. by apply lookup_insert_ne. }
    apply elem_of_cons in Hin as [->|Hin]; [|by apply elem_of_nil in Hin].
    split; [done|]. intros path Hne. cbn [files].
    rewrite lookup_insert_ne by done. by apply lookup_insert_ne.
Qed.

(** C9 fails as stated: a job of two items is saved, its first item is
    processed and the job is saved again.  While the second save runs, a
    reader of the snapshot finds neither the old snapshot nor the new one
    but a file it cannot parse, and [recover_automation] answers that no
    saved state exists, although one was stored before the save and one is
    stored after it. *)
Lemma save_state_torn_read :
  let st0 :=
    AutomationState_init "t0" "job" "alice" ["a"; "b"] ["x"; "y"]
      [("like", true)] 5 15 3 in
  let st1 := mark_task_processed "t1" st0 0 true in
  let fs := save_state (order := insertion_order) st0 ∅ in
  let world := fun files => mkWorld ∅ ∅ ∅ files in
  ~ snapshot_save_atomic (order := insertion_order) "t2" st1 fs /\
  fst (recover_automation "t2" (200 # 1) "job" (world fs)) <> NotFound /\
  fst (recover_automation "t2" (200 # 1) "job"
         (world (save_state (order := insertion_order) st1 fs))) <> NotFound /\
  exists stage,
    stage ∈ save_state_stages (order := insertion_order) st1 fs /\
    load_state "t2" stage "job" = None /\
    fst (recover_automation "t2" (200 # 1) "job" (world stage)) = NotFound.
Proof.
  intros st0 st1 fs world.
  assert (load_state "t2" (open_for_writing (state_file "job") fs) "job" = None)
    as Hmid by (by apply open_for_writing_unreadable).
  assert (is_Some (load_state "t2" fs "job")) as Hold.
  { pose proof (load_state_saved (order := insertion_order) "t2" st0 ∅) as H.
    change (task_id st0) with "job"%string in H. fold fs in H.
    rewrite H. by eexists. }
  assert (is_Some (load_state "t2" (save_state (order := insertion_order) st1 fs)
                     "job")) as Hnew.
  { pose proof (load_state_saved (order := insertion_order) "t2" st1 fs) as H.
    change (task_id st1) with "job"%string in H.
    rewrite H. by eexists. }
  assert (open_for_writing (state_file "job") fs ∈
          save_state_stages (order := insertion_order) st1 fs) as Hin
    by (unfold save_state_stages; cbv zeta; apply elem_of_cons; by left).
  split.
  { intros Hatomic. destruct (Hatomic _ Hin) as [H|H];
      change (task_id st1) with "job"%string in H; rewrite Hmid in H.
    - rewrite <- H in Hold. by destruct Hold.
    - rewrite <- H in Hnew. by destruct Hnew. }
  split; [vm_compute; discriminate|].
  split; [vm_compute; discriminate|].
  eexists. split; [exact Hin|]. split; [exact Hmid|].
  unfold recover_automation, world. cbn [files]. by rewrite Hmid.
Qed.
